(** * OblivAI: the boundary policy guard, the chat store and the inference adapter

    A shallow embedding of the TypeScript sources
    - [src/lib/network-audit.ts]   (the network audit log),
    - [src/lib/security-init.ts]   (the fetch gate and the storage scrub),
    - [src/lib/security.ts]        (input sanitisation),
    - [src/store/chat-store.ts]    (the chat state container),
    - [src/lib/webllm-service.ts]  (the inference client adapter),
    - [src/components/ChatInterface.tsx] (the send path),
    - [src/lib/model-config.ts]    (the model catalogue),
    - [src/components/ModelSelector.tsx] (the status of a model card),
    - [public/set-theme.js]        (the theme of the page before it mounts),
    followed by the properties of the specification, stated on that embedding.

    Conventions.  A JavaScript string is modelled by a Rocq [string]; its
    characters are the code units below 256.  A function that may throw
    returns a [result]; [try_catch] is the [try { } catch { }] statement.
    Mutable objects become explicit state that every operation takes and
    returns.  Values the browser or a library supplies (the clock, the outcome
    of a storage call, the chunks of a completion stream) are arguments. *)

From Stdlib Require Import ZArith QArith Ascii String List Bool Lia Sorted.
From stdpp Require Import base option list strings gmap pretty.

Open Scope string_scope.
Open Scope list_scope.

(** ** Exceptions and effects *)

(** What a [throw] carries: an [Error] object with its [name] and [message],
    or some other value, kept as the text [String(value)] gives. *)
Inductive exn : Type :=
| ErrorObj (name message : string)
| OtherValue (text : string).

Definition new_Error (msg : string) : exn := ErrorObj "Error" msg.
Definition TypeError (msg : string) : exn := ErrorObj "TypeError" msg.
Definition QuotaExceededError (msg : string) : exn := ErrorObj "QuotaExceededError" msg.

(** [error instanceof Error ? error.message : fallback] *)
Definition message_or (fallback : string) (e : exn) : string :=
  match e with
  | ErrorObj _ m => m
  | OtherValue _ => fallback
  end.

(** [error instanceof Error ? error.message : String(error)] *)
Definition message_or_text (e : exn) : string :=
  match e with
  | ErrorObj _ m => m
  | OtherValue t => t
  end.

Inductive result (A : Type) : Type :=
| Ok (a : A)
| Throw (e : exn).
Arguments Ok {A} a.
Arguments Throw {A} e.

(** A computation over a mutable state [S]: it ends normally or by a throw,
    and the state it leaves is kept in both cases. *)
Definition eff (S A : Type) : Type := S -> result A * S.

Definition ret {S A} (a : A) : eff S A := fun s => (Ok a, s).

Definition bind {S A B} (m : eff S A) (k : A -> eff S B) : eff S B :=
  fun s => match m s with
           | (Ok a, s') => k a s'
           | (Throw e, s') => (Throw e, s')
           end.

Definition throw {S A} (e : exn) : eff S A := fun s => (Throw e, s).

Definition gets {S A} (f : S -> A) : eff S A := fun s => (Ok (f s), s).

Definition modify {S} (f : S -> S) : eff S unit := fun s => (Ok tt, f s).

(** [try { body } catch (e) { handler }] *)
Definition try_catch {S A} (body : eff S A) (handler : exn -> eff S A) : eff S A :=
  fun s => match body s with
           | (Ok a, s') => (Ok a, s')
           | (Throw e, s') => handler e s'
           end.

(** [try { body } finally { fin }] *)
Definition try_finally {S A} (body : eff S A) (fin : eff S unit) : eff S A :=
  fun s => match body s with
           | (r, s') =>
               match fin s' with
               | (Ok _, s'') => (r, s'')
               | (Throw e, s'') => (Throw e, s'')
               end
           end.

(** A promise is modelled by the way it settles: [Ok] when it is fulfilled,
    [Throw] when it is rejected.  Callbacks run at once, where the event loop
    would run them later. *)
Definition promise (A : Type) : Type := result A.

(** The promise of an [async] function with body [m], or of a callback: a
    throw of [m] rejects the promise and does not reach the caller. *)
Definition settle {S A} (m : eff S A) : eff S (promise A) :=
  fun s => match m s with (r, s') => (Ok r, s') end.

(** [p.then(f)] *)
Definition then_ {S A B} (p : promise A) (f : A -> eff S B) : eff S (promise B) :=
  match p with
  | Ok a => settle (f a)
  | Throw e => ret (Throw e)
  end.

(** [p.catch(h)] *)
Definition catch_ {S A} (p : promise A) (h : exn -> eff S A) : eff S (promise A) :=
  match p with
  | Ok a => ret (Ok a)
  | Throw e => settle (h e)
  end.

(** [await p] *)
Definition await {S A} (p : promise A) : eff S A :=
  match p with
  | Ok a => ret a
  | Throw e => throw e
  end.

(** A statement whose value is dropped. *)
Definition ignore {S A} (m : eff S A) : eff S unit := bind m (fun _ => ret tt).

(** [if (c) { m }] *)
Definition when {S} (c : bool) (m : eff S unit) : eff S unit :=
  if c then m else ret tt.

(** [l.forEach(f)] *)
Fixpoint forEach {S A} (f : A -> eff S unit) (l : list A) : eff S unit :=
  match l with
  | [] => ret tt
  | x :: l' => bind (f x) (fun _ => forEach f l')
  end.

(** Run [m] on a part of the state. *)
Definition zoom {S T A} (get : S -> T) (set : T -> S -> S) (m : eff T A) : eff S A :=
  fun s => match m (get s) with (r, t) => (r, set t s) end.

(** [m] keeps [R]: the state [m] leaves is related by [R] to the state it
    started from, whether [m] ends normally or by a throw. *)
Definition keeps {S A} (R : S -> S -> Prop) (m : eff S A) : Prop :=
  forall s, R s (snd (m s)).

(** From a state in [P], [m] ends in a state and with a result in [Q]. *)
Definition hoare {S A} (P : S -> Prop) (m : eff S A) (Q : result A -> S -> Prop)
    : Prop :=
  forall s, P s -> Q (fst (m s)) (snd (m s)).

(** The part [f] of the state is the same after as before. *)
Definition unchanged {S X} (f : S -> X) : S -> S -> Prop :=
  fun s s' => f s' = f s.

Declare Scope eff_scope.
Delimit Scope eff_scope with eff.
Notation "'let!' x ':=' m 'in' k" := (bind m (fun x => k))
  (at level 10, x name, m at level 100, k at level 200) : eff_scope.
Notation "m ;; k" := (bind m (fun _ => k))
  (at level 100, k at level 200, right associativity) : eff_scope.
Open Scope eff_scope.

(** ** String primitives of the JavaScript runtime *)

Module Js.

Definition startsWith (s p : string) : bool := String.prefix p s.

Fixpoint includes (s sub : string) : bool :=
  String.prefix sub s ||
  match s with
  | EmptyString => false
  | String _ s' => includes s' sub
  end.

Definition endsWith (s suf : string) : bool :=
  let n := String.length s in
  let m := String.length suf in
  (m <=? n)%nat && String.eqb (String.substring (n - m) m s) suf.

Definition is_upper (c : ascii) : bool :=
  let n := nat_of_ascii c in (65 <=? n)%nat && (n <=? 90)%nat.

Definition lower (c : ascii) : ascii :=
  if is_upper c then ascii_of_nat (nat_of_ascii c + 32) else c.

Fixpoint toLowerCase (s : string) : string :=
  match s with
  | EmptyString => EmptyString
  | String c s' => String (lower c) (toLowerCase s')
  end.

(** [s.slice(0, n)] *)
Definition slice0 (n : nat) (s : string) : string := String.substring 0 n s.

(** [l.slice(-n)] on an array *)
Definition slice_last {A} (n : nat) (l : list A) : list A :=
  drop (length l - n) l.

(** [l.slice(0, -1)] on an array *)
Definition slice_but_last {A} (l : list A) : list A :=
  take (length l - 1) l.

(** A value that is neither [null] nor [undefined]. *)
Definition present {A} (o : option A) : bool :=
  match o with Some _ => true | None => false end.

(** [o === text], where [o] may be [null] *)
Definition is_text (o : option string) (text : string) : bool :=
  match o with Some t => String.eqb t text | None => false end.

(** [l.some(p)] *)
Definition some {A} (p : A -> bool) (l : list A) : bool := existsb p l.

(** [s.slice(n)] *)
Fixpoint skip (n : nat) (s : string) : string :=
  match n, s with
  | O, _ => s
  | S n', String _ s' => skip n' s'
  | S _, EmptyString => EmptyString
  end.

(** [s.length] *)
Definition length (s : string) : Z := Z.of_nat (String.length s).

Definition code (c : ascii) : nat := nat_of_ascii c.

Definition in_range (lo hi : nat) (c : ascii) : bool :=
  (lo <=? code c)%nat && (code c <=? hi)%nat.

(** The white space of [\s] and of [trim]: tab, line feed, vertical tab,
    form feed, carriage return, space and no-break space.  (The other
    white-space code units, U+1680, U+2000 to U+200A, U+2028, U+2029,
    U+202F, U+205F, U+3000 and U+FEFF, lie above 255.) *)
Definition is_space (c : ascii) : bool :=
  in_range 9 13 c || (code c =? 32)%nat || (code c =? 160)%nat.

Fixpoint trimStart (s : string) : string :=
  match s with
  | EmptyString => EmptyString
  | String c s' => if is_space c then trimStart s' else s
  end.

Fixpoint trimEnd (s : string) : string :=
  match s with
  | EmptyString => EmptyString
  | String c s' =>
      match trimEnd s' with
      | EmptyString => if is_space c then EmptyString else String c EmptyString
      | t => String c t
      end
  end.

Definition trim (s : string) : string := trimEnd (trimStart s).

(** Every character of [s] satisfies [p]. *)
Fixpoint all_chars (p : ascii -> bool) (s : string) : bool :=
  match s with
  | EmptyString => true
  | String c s' => p c && all_chars p s'
  end.

Fixpoint filter_chars (p : ascii -> bool) (s : string) : string :=
  match s with
  | EmptyString => EmptyString
  | String c s' => if p c then String c (filter_chars p s') else filter_chars p s'
  end.

(** The line feed, [\n] in the source. *)
Definition nl : string := String "010" EmptyString.

Fixpoint repeat_char (c : ascii) (n : nat) : string :=
  match n with
  | O => EmptyString
  | S n' => String c (repeat_char c n')
  end.

(** [s.charCodeAt(i)]; out of range the answer is [NaN], which the bit
    operators read as 0. *)
Definition charCodeAt (s : string) (i : nat) : Z :=
  match String.get i s with
  | Some c => Z.of_nat (code c)
  | None => 0%Z
  end.

(** A JavaScript number that is neither [NaN] nor infinite. *)
Definition number : Type := Q.

(** [a <= b] and [a < b] on numbers *)
Definition le (a b : number) : bool := Qle_bool a b.
Definition lt (a b : number) : bool := negb (Qle_bool b a).

End Js.


(** ** Regular expressions, as far as [security.ts] uses them

    Every pattern of [sanitizeInput] is a sequence of literal text, of a
    greedy repetition of one character class, of an optional character, of a
    fixed number of characters of a class, and of [\b]; all carry the flags
    [g] and [i].  [match_here] is the backtracking matcher of the runtime on
    such sequences, [replaceAll] the global [String.prototype.replace]. *)

Module Regex.

Inductive atom : Type :=
| Lit (text : string)                    (* literal text, letters in either case *)
| Many (min : nat) (p : ascii -> bool)   (* [p{min,}], greedy *)
| Opt (c : ascii)                        (* [c?], greedy *)
| Times (n : nat) (p : ascii -> bool)    (* [p{n}] *)
| WordEnd.                               (* [\b] after a word character *)

Definition regex := list atom.

Definition same_letter (a b : ascii) : bool :=
  Ascii.eqb (Js.lower a) (Js.lower b).

Fixpoint prefix_ci (text s : string) : bool :=
  match text with
  | EmptyString => true
  | String a text' =>
      match s with
      | EmptyString => false
      | String b s' => same_letter a b && prefix_ci text' s'
      end
  end.

(** The length of the longest prefix of [s] made of characters in [p]. *)
Fixpoint run_length (p : ascii -> bool) (s : string) : nat :=
  match s with
  | EmptyString => 0
  | String c s' => if p c then S (run_length p s') else 0
  end.

(** [\w] *)
Definition is_word (c : ascii) : bool :=
  Js.in_range 48 57 c || Js.in_range 65 90 c || Js.in_range 97 122 c
  || (Js.code c =? 95)%nat.

(** [.]: any character but a line terminator *)
Definition is_dot (c : ascii) : bool :=
  negb ((Js.code c =? 10)%nat || (Js.code c =? 13)%nat).

(** [[0-9a-f]] under the flag [i] *)
Definition is_hex (c : ascii) : bool :=
  Js.in_range 48 57 c || Js.in_range 65 70 c || Js.in_range 97 102 c.

(** Give [k] characters to a greedy repetition, then fewer, down to [min]. *)
Fixpoint backtrack (cont : string -> option nat) (s : string) (min k : nat)
    : option nat :=
  match cont (Js.skip k s) with
  | Some m => Some (k + m)
  | None =>
      match k with
      | O => None
      | S k' => if (min <=? k')%nat then backtrack cont s min k' else None
      end
  end.

(** The length of the match of [r] that starts at the head of [s]. *)
Fixpoint match_here (r : regex) (s : string) : option nat :=
  match r with
  | [] => Some 0
  | Lit text :: r' =>
      if prefix_ci text s
      then option_map (Nat.add (String.length text))
                      (match_here r' (Js.skip (String.length text) s))
      else None
  | Many min p :: r' =>
      let k := run_length p s in
      if (min <=? k)%nat then backtrack (match_here r') s min k else None
  | Opt c :: r' =>
      let without := match_here r' s in
      match s with
      | String b s' =>
          if same_letter c b
          then match match_here r' s' with
               | Some m => Some (S m)
               | None => without
               end
          else without
      | EmptyString => without
      end
  | Times n p :: r' =>
      if (n <=? run_length p s)%nat
      then option_map (Nat.add n) (match_here r' (Js.skip n s))
      else None
  | WordEnd :: r' =>
      match s with
      | String b _ => if is_word b then None else match_here r' s
      | EmptyString => match_here r' s
      end
  end.

(** [s.replace(r, by)] for a global [r], from left to right; [pending]
    counts the characters of [s] that belong to the match just replaced.
    No pattern of [security.ts] matches the empty string. *)
Fixpoint replace_from (r : regex) (by_ : string) (pending : nat) (s : string)
    : string :=
  match s with
  | EmptyString => EmptyString
  | String c s' =>
      match pending with
      | S k => replace_from r by_ k s'
      | O =>
          match match_here r s with
          | Some (S m) => by_ +:+ replace_from r by_ m s'
          | _ => String c (replace_from r by_ 0 s')
          end
      end
  end.

Definition replaceAll (r : regex) (by_ : string) (s : string) : string :=
  replace_from r by_ 0 s.

End Regex.

(** ** [security.ts]: [sanitizeInput] *)

(** [DOMPurify.sanitize(input, config)] with the configuration of
    [sanitizeInput]: no tag and no attribute is allowed, text content is
    kept.  DOMPurify is a library outside this repository. *)
Class DOMPurify := sanitize_text : string -> string.

Module Security.
Import Regex.

Definition MAX_INPUT_LENGTH : Z := 10000.

Definition s1 : regex := [Many 1 Js.is_space].   (* [\s+] *)
Definition s0 : regex := [Many 0 Js.is_space].   (* [\s*] *)

Definition sqlPatterns : list regex := [
  Lit "union" :: s1 ++ [Lit "select"];
  Lit "drop" :: s1 ++ [Lit "table"];
  Lit "insert" :: s1 ++ [Lit "into"];
  Lit "delete" :: s1 ++ [Lit "from"];
  Lit "update" :: s1 ++ [Lit "set"];
  Lit "create" :: s1 ++ [Lit "table"];
  Lit "alter" :: s1 ++ [Lit "table"];
  Lit "exec" :: s0 ++ [Lit "("];
  [Lit "xp_cmdshell"];
  [Lit "sp_executesql"]
].

(** [/onNAME\s*=/gi] *)
Definition handler (name : string) : regex := Lit name :: s0 ++ [Lit "="].

Definition xssPatterns : list regex := [
  [Lit "<script"; WordEnd];
  [Lit "</script>"];
  [Lit "<script"];
  [Lit "javascript:"];
  [Lit "vbscript:"];
  [Lit "livescript:"];
  [Lit "mocha:"];
  [Lit "data:text/html"];
  [Lit "data:application/javascript"];
  Lit "on" :: Many 1 is_word :: s0 ++ [Lit "="];
  handler "onload";
  handler "onerror";
  handler "onclick";
  handler "onmouseover";
  handler "onfocus";
  handler "onblur";
  handler "onchange";
  handler "onsubmit";
  handler "onanimationend";
  handler "onbeforeunload";
  handler "onhashchange";
  handler "onpopstate";
  handler "ontransitionend";
  Lit "expression" :: s0 ++ [Lit "("];
  Lit "url" :: s0 ++ Lit "(" :: s0 ++ [Lit "javascript:"];
  [Lit "@import"];
  [Lit "<svg"; WordEnd];
  [Lit "<math"; WordEnd];
  [Lit "<xml"; WordEnd];
  [Lit "xlink:href"];
  [Lit "{{"; Many 0 is_dot; Lit "}}"];
  [Lit "${"; Many 0 is_dot; Lit "}"];
  [Lit "&#"; Opt "x"; Many 1 is_hex; Opt ";"];
  [Lit "%"; Times 2 is_hex];
  [Lit "\u"; Times 4 is_hex];
  [Lit "\x"; Times 2 is_hex];
  [Lit "<iframe"];
  [Lit "<object"];
  [Lit "<embed"];
  [Lit "<applet"];
  [Lit "<form"];
  [Lit "<base"];
  [Lit "<link"];
  [Lit "<meta"];
  [Lit "<style"]
].

Definition SECURITY_BLOCKED : string := "[SECURITY_BLOCKED]".

(** [[\x00-\x1F\x7F-\x9F]] *)
Definition is_control (c : ascii) : bool :=
  Js.in_range 0 31 c || Js.in_range 127 159 c.

Definition printable (c : ascii) : bool := negb (is_control c).

Definition block_patterns (s : string) : string :=
  fold_left (fun sanitized pattern => replaceAll pattern SECURITY_BLOCKED sanitized)
            (sqlPatterns ++ xssPatterns) s.

Definition remove_control (s : string) : string :=
  Js.filter_chars printable s.

(** [.replace(/\s{10,}/g, ' ').trim()] *)
Definition collapse_space (s : string) : string :=
  Js.trim (replaceAll [Many 10 Js.is_space] " " s).

Definition sanitizeInput `{DOMPurify} (input : string) : result string :=
  if (MAX_INPUT_LENGTH <? Js.length input)%Z
  then Throw (new_Error "Input too long")
  else
    let cleaned := sanitize_text input in
    let sanitized := block_patterns cleaned in
    let sanitized := remove_control sanitized in
    Ok (collapse_space sanitized).

(** [class RateLimiter] *)
Module RateLimiter.

Record t := mk {
  timestamps : list Z;
  maxRequests : Z;
  windowMs : Z
}.

(** [new RateLimiter(maxRequests, windowMs)] *)
Definition create (maxRequests windowMs : Z) : t := mk [] maxRequests windowMs.

(** [canProceed()]; [now] is [Date.now()].  The answer, and the limiter
    after the call. *)
Definition canProceed (now : Z) (this : t) : bool * t :=
  let timestamps :=
    List.filter (fun t => (now - t <? windowMs this)%Z) (timestamps this) in
  if (maxRequests this <=? Z.of_nat (length timestamps))%Z
  then (false, mk timestamps (maxRequests this) (windowMs this))
  else (true, mk (timestamps ++ [now]) (maxRequests this) (windowMs this)).

(** [getRemainingTime()]; [now] is [Date.now()], and [Math.min(...l)] on a
    list that is not empty is a fold. *)
Definition getRemainingTime (now : Z) (this : t) : Z :=
  match timestamps this with
  | [] => 0%Z
  | t :: rest =>
      let oldest := fold_left Z.min rest t in
      Z.max 0 (windowMs this - (now - oldest))
  end.

(** A sequence of calls of [canProceed], each with the reading of the clock
    it takes: the readings with the answers, in order, and the limiter at the
    end. *)
Fixpoint run (nows : list Z) (this : t) : list (Z * bool) * t :=
  match nows with
  | [] => ([], this)
  | now :: rest =>
      let (answer, this) := canProceed now this in
      let (answers, final) := run rest this in
      ((now, answer) :: answers, final)
  end.

(** A call that was granted less than [windowMs] before [now]. *)
Definition recent_grant (windowMs now : Z) (call : Z * bool) : bool :=
  snd call && (now - fst call <? windowMs)%Z.

End RateLimiter.

(** [secureCompare(a, b)] *)
Definition secureCompare (a b : string) : bool :=
  if negb (Js.length a =? Js.length b)%Z then false
  else
    let result :=
      fold_left
        (fun result i => Z.lor result (Z.lxor (Js.charCodeAt a i) (Js.charCodeAt b i)))
        (seq 0 (String.length a)) 0%Z in
    (result =? 0)%Z.

(** [[/\\]] *)
Definition is_separator (c : ascii) : bool :=
  Ascii.eqb c "/" || Ascii.eqb c "\".

(** [[\x00-\x1F\x7F]] *)
Definition is_file_control (c : ascii) : bool :=
  Js.in_range 0 31 c || (Js.code c =? 127)%nat.

(** [sanitizeFileName(filename)] *)
Definition sanitizeFileName (filename : string) : string :=
  let sanitized := replaceAll [Lit ".."] "" filename in
  let sanitized := Js.filter_chars (fun c => negb (is_separator c)) sanitized in
  let sanitized := Js.filter_chars (fun c => negb (Js.code c =? 0)%nat) sanitized in
  let sanitized := Js.filter_chars (fun c => negb (is_file_control c)) sanitized in
  Js.slice0 255 sanitized.

(** A character that no step of [sanitizeFileName] removes. *)
Definition plain (c : ascii) : bool :=
  negb (Ascii.eqb c ".") && negb (is_separator c) && negb (is_file_control c).

End Security.

(** ** [network-audit.ts]: the audit log *)

Module NetworkAudit.

Record NetworkRequest := mkRequest {
  url : string;
  timestamp : Z;
  blocked : bool;
  reason : option string;
  method : string
}.

Definition MAX_ENTRIES : nat := 100.

(** The [requests] array of the singleton. *)
Definition log := list NetworkRequest.

Definition empty : log := [].

(** [logRequest(url, allowed, reason, method)]; [now] is [Date.now()].
    [push] appends, [shift] removes the first element. *)
Definition logRequest (now : Z) (u : string) (allowed : bool)
    (why : option string) (m : string) (requests : log) : log :=
  let requests := requests ++ [mkRequest u now (negb allowed) why m] in
  if (MAX_ENTRIES <? length requests)%nat then tail requests else requests.

Definition getRequests (requests : log) : list NetworkRequest := requests.

Definition getBlockedRequests (requests : log) : list NetworkRequest :=
  List.filter blocked requests.

Definition getAllowedRequests (requests : log) : list NetworkRequest :=
  List.filter (fun r => negb (blocked r)) requests.

Definition clear (_ : log) : log := [].

(** The properties that every object of a browser inherits from
    [Object.prototype]. *)
Definition Object_prototype : list string :=
  ["constructor"; "__defineGetter__"; "__defineSetter__"; "hasOwnProperty";
   "__lookupGetter__"; "__lookupSetter__"; "isPrototypeOf"; "propertyIsEnumerable";
   "toString"; "valueOf"; "__proto__"; "toLocaleString"].

(** [domain in {}]: the name is a property of [Object.prototype]. *)
Definition inherits (domain : string) : bool :=
  Js.some (String.eqb domain) Object_prototype.

(** A value of [domainCounts]: a number, or the text that [+ 1] makes of
    what is no number, which is the text of the inherited property [member]
    followed by [ones] digits 1. *)
Inductive Count :=
| Number (n : Z)
| Text (member : string) (ones : nat).

(** What [getStatistics()] returns. *)
Module Statistics.
Record t := mk {
  total : Z;
  blocked : Z;
  allowed : Z;
  domains : gmap string Count
}.
End Statistics.

(** [domainCounts[domain] = (domainCounts[domain] || 0) + 1] on the plain
    object [domainCounts], whose own properties are [own].  A name that the
    object does not own is looked up in [Object.prototype]: what is found
    there is a function or an object, [|| 0] keeps it and [+ 1] makes a
    text of it.  The assignment creates an own property, except under
    [__proto__], whose setter ignores a text. *)
Definition count_up (domain : string) (own : gmap string Count) : gmap string Count :=
  match own !! domain with
  | Some (Number n) => <[domain := Number ((if (n =? 0)%Z then 0 else n) + 1)]> own
  | Some (Text member ones) => <[domain := Text member (S ones)]> own
  | None =>
      if inherits domain
      then if String.eqb domain "__proto__" then own
           else <[domain := Text domain 1]> own
      else <[domain := Number 1]> own
  end.

(** The body of the [forEach] of [getStatistics]: one more request of the
    domain of [req]; [URL_hostname] is
    [new URL(url, window.location.origin).hostname], [None] when the
    constructor throws. *)
Definition count_domain (URL_hostname : string -> option string)
    (domainCounts : gmap string Count) (req : NetworkRequest) : gmap string Count :=
  match URL_hostname (url req) with
  | Some domain => count_up domain domainCounts
  | None => domainCounts
  end.

Definition getStatistics (URL_hostname : string -> option string) (requests : log)
    : Statistics.t :=
  let total := Z.of_nat (length requests) in
  let blocked := Z.of_nat (length (List.filter blocked requests)) in
  let allowed := (total - blocked)%Z in
  let domainCounts := fold_left (count_domain URL_hostname) requests ∅ in
  Statistics.mk total blocked allowed domainCounts.

(** The requests of the log whose URL names the host [domain]. *)
Definition requests_to (URL_hostname : string -> option string) (domain : string)
    (requests : log) : list NetworkRequest :=
  List.filter (fun req => bool_decide (URL_hostname (url req) = Some domain)) requests.

(** What [domainCounts] holds under [domain] after [n] requests to that
    host. *)
Definition counted (domain : string) (n : nat) : option Count :=
  match n with
  | O => None
  | S _ =>
      if inherits domain
      then if String.eqb domain "__proto__" then None else Some (Text domain n)
      else Some (Number (Z.of_nat n))
  end.

(** One call of [logRequest], with the clock value it reads. *)
Record call := mkCall {
  c_now : Z; c_url : string; c_allowed : bool;
  c_reason : option string; c_method : string
}.

Definition entry_of (c : call) : NetworkRequest :=
  mkRequest (c_url c) (c_now c) (negb (c_allowed c)) (c_reason c) (c_method c).

Definition apply_call (requests : log) (c : call) : log :=
  logRequest (c_now c) (c_url c) (c_allowed c) (c_reason c) (c_method c) requests.

(** A sequence of calls, from left to right. *)
Definition run (calls : list call) (requests : log) : log :=
  fold_left apply_call calls requests.

End NetworkAudit.

(** ** The [URL] constructor

    [new URL(url, base)] belongs to the browser.  The fetch gate below takes
    its answer as a parameter; [Url.hostname] computes that answer on the
    URLs the examples need: [scheme://host[:port]...] for the schemes http,
    https, ws, wss and ftp, [//host[:port]...], [scheme:...] without an
    authority for any other scheme, and paths, which the base resolves.  A
    host is made of letters, digits, [-], [_] and [.] and is taken as
    written, in lower case.  On any other spelling (back slashes, missing
    slashes, bracketed or abbreviated numeric hosts, percent escapes, white
    space to strip) the function answers [None] and is not meant to agree
    with the browser. *)

Module Url.

Definition is_alpha (c : ascii) : bool :=
  Js.in_range 65 90 c || Js.in_range 97 122 c.

Definition is_digit (c : ascii) : bool := Js.in_range 48 57 c.

Definition is_scheme_char (c : ascii) : bool :=
  is_alpha c || is_digit c || Ascii.eqb c "+" || Ascii.eqb c "-" || Ascii.eqb c ".".

Definition is_host_char (c : ascii) : bool :=
  is_alpha c || is_digit c || Ascii.eqb c "-" || Ascii.eqb c "_" || Ascii.eqb c ".".

Fixpoint take_until (stop : ascii -> bool) (s : string) : string :=
  match s with
  | EmptyString => EmptyString
  | String c s' => if stop c then EmptyString else String c (take_until stop s')
  end.

Fixpoint drop_until (stop : ascii -> bool) (s : string) : string :=
  match s with
  | EmptyString => EmptyString
  | String c s' => if stop c then s else drop_until stop s'
  end.

(** What follows the last [sep] of [s]; [cur] is what follows the last one
    seen so far. *)
Fixpoint after_last (sep : ascii) (cur s : string) : string :=
  match s with
  | EmptyString => cur
  | String c s' => if Ascii.eqb c sep then after_last sep s' s' else after_last sep cur s'
  end.

(** [scheme:rest] *)
Definition scheme_of (url : string) : option (string * string) :=
  match url with
  | String c _ =>
      if is_alpha c then
        match drop_until (fun c => negb (is_scheme_char c)) url with
        | String ":" rest =>
            Some (Js.toLowerCase (take_until (fun c => negb (is_scheme_char c)) url), rest)
        | _ => None
        end
      else None
  | EmptyString => None
  end.

Definition ends_authority (c : ascii) : bool :=
  Ascii.eqb c "/" || Ascii.eqb c "?" || Ascii.eqb c "#".

Definition host_of_authority (rest : string) : option string :=
  let authority := take_until ends_authority rest in
  let hostport := after_last "@" authority authority in
  let host := take_until (Ascii.eqb ":") hostport in
  let port := Js.skip 1 (drop_until (Ascii.eqb ":") hostport) in
  if negb (String.eqb host "") && Js.all_chars is_host_char host
     && Js.all_chars is_digit port
  then Some (Js.toLowerCase host)
  else None.

Definition with_host (scheme : string) : bool :=
  existsb (String.eqb scheme) ["http"; "https"; "ws"; "wss"; "ftp"].

(** [new URL(url, base).hostname], where [base_hostname] is the host name
    of [base]; [None] when the constructor throws. *)
Definition hostname (base_hostname url : string) : option string :=
  match scheme_of url with
  | Some (scheme, rest) =>
      if Js.startsWith rest "//"
      then if with_host scheme then host_of_authority (Js.skip 2 rest) else None
      else if with_host scheme || String.eqb scheme "file" then None
      else Some ""
  | None =>
      if Js.startsWith url "//"
      then host_of_authority (Js.skip 2 url)
      else if Js.all_chars (fun c => negb (Ascii.eqb c "\")) url
      then Some base_hostname
      else None
  end.

End Url.

(** ** [security-init.ts]: the fetch gate of [deployNetworkSecurity] *)

Module NetworkSecurity.

(** The audit log, the number of [Date.now()] readings taken so far, and
    the requests handed to the original [fetch], oldest first. *)
Record Net := mkNet {
  requests : NetworkAudit.log;
  reads : nat;
  issued : list string
}.

Definition initial : Net := mkNet NetworkAudit.empty 0 [].

(** What [window.fetch] is called on: a string, a [URL] object with its
    [href], or a [Request] object with its URL and its method. *)
Inductive RequestInfo :=
| InputString (url : string)
| InputURL (href : string)
| InputRequest (url method : string).

(** [typeof input === 'string' ? input : input.toString()]: a [URL]
    answers with its [href]; a [Request] has no [toString] of its own and
    answers as every object does. *)
Definition input_text (input : RequestInfo) : string :=
  match input with
  | InputString url => url
  | InputURL href => href
  | InputRequest _ _ => "[object Request]"
  end.

(** The URL that the original [fetch] requests when it is handed [input]. *)
Definition request_url (input : RequestInfo) : string :=
  match input with
  | InputString url => url
  | InputURL href => href
  | InputRequest url _ => url
  end.

Section Gate.

(** [window.location.hostname] *)
Variable location_hostname : string.

(** [new URL(url, window.location.origin).hostname]; [None] when the
    constructor throws. *)
Variable URL_hostname : string -> option string.

(** The readings of [Date.now()], in order. *)
Variable Date_now : nat -> Z.

(** [networkAudit.logRequest(url, allowed, reason, method)] *)
Definition logRequest (url : string) (allowed : bool) (reason method : string)
    : eff Net unit :=
  modify (fun st =>
    mkNet (NetworkAudit.logRequest (Date_now (reads st)) url allowed
             (Some reason) method (requests st))
          (S (reads st))
          (issued st)).

(** [originalFetch(input, init)] *)
Definition originalFetch (input : string) : eff Net unit :=
  modify (fun st => mkNet (requests st) (reads st) (issued st ++ [input])).

Definition allowedDomains : list string := [
  "huggingface.co";
  "cdn-lfs.huggingface.co";
  "raw.githubusercontent.com";
  "xethub.hf.co"
].

Definition isAllowed (hostname : string) : bool :=
  Js.some (fun domain => Js.includes hostname domain) allowedDomains.

Definition isLocalRequest (hostname : string) : bool :=
  Js.includes hostname location_hostname ||
  String.eqb hostname "localhost" ||
  String.eqb hostname "127.0.0.1" ||
  Js.endsWith hostname ".onion" ||
  Js.startsWith hostname "192.168." ||
  Js.startsWith hostname "10." ||
  Js.startsWith hostname "172.16." ||
  Js.startsWith hostname "172.17." ||
  Js.startsWith hostname "172.18." ||
  Js.startsWith hostname "172.19." ||
  Js.startsWith hostname "172.20." ||
  Js.startsWith hostname "172.21." ||
  Js.startsWith hostname "172.22." ||
  Js.startsWith hostname "172.23." ||
  Js.startsWith hostname "172.24." ||
  Js.startsWith hostname "172.25." ||
  Js.startsWith hostname "172.26." ||
  Js.startsWith hostname "172.27." ||
  Js.startsWith hostname "172.28." ||
  Js.startsWith hostname "172.29." ||
  Js.startsWith hostname "172.30." ||
  Js.startsWith hostname "172.31.".

(** The host matches the allow-list: a model-hosting domain, the host of
    the page, the loop-back names, a private range or an onion name. *)
Definition host_matches (hostname : string) : bool :=
  isAllowed hostname || isLocalRequest hostname.

(** The body of the [try] block. *)
Definition check (url method : string) : eff Net unit :=
  match URL_hostname url with
  | None => throw (TypeError "Invalid URL")
  | Some hostname =>
      if negb (isAllowed hostname) && negb (isLocalRequest hostname)
      then
        logRequest url false "Domain not in whitelist" method ;;
        throw (new_Error "Network request blocked: domain not whitelisted")
      else
        logRequest url true
          (if isLocalRequest hostname then "Local request" else "Whitelisted domain")
          method
  end.

(** The body of the [catch] block. *)
Definition recover (url method : string) : eff Net unit :=
  if Js.startsWith url "/" || Js.startsWith url "./"
  then logRequest url true "Local resource" method
  else
    logRequest url false "Invalid or blocked URL" method ;;
    throw (new_Error "Network request blocked").

(** [init?.method || 'GET'] *)
Definition method_or_GET (init_method : option string) : string :=
  match init_method with
  | Some (String c m) => String c m
  | _ => "GET"
  end.

(** The function installed as [window.fetch], called on a string;
    [init_method] is [init?.method], and [method] is [init?.method || 'GET'].
    It ends normally when the request was handed to the original [fetch]. *)
Definition fetch (input : string) (init_method : option string) : eff Net unit :=
  let url := input in
  let method := method_or_GET init_method in
  try_catch (check url method) (fun _ => recover url method) ;;
  originalFetch input.

(** The function installed as [window.fetch], on any input.  [issued]
    gains the URL that the original [fetch] requests. *)
Definition fetch_input (input : RequestInfo) (init_method : option string)
    : eff Net unit :=
  let url := input_text input in
  let method := method_or_GET init_method in
  try_catch (check url method) (fun _ => recover url method) ;;
  originalFetch (request_url input).

End Gate.

End NetworkSecurity.

(** ** The storage the browser keeps, and how it answers *)

Module Browser.

(** What the browser stores for the page: the two key-value stores, the
    names of the IndexedDB databases and the names of the caches of the Cache
    API. *)
Record Storage := mkStorage {
  localStorage : gmap string string;
  sessionStorage : gmap string string;
  databases : list string;
  cacheNames : list string
}.

Inductive keys_answer := KeysThrows | KeysRejects | KeysResolves.

(** The answers of one browser session: which interfaces exist, which
    calls are denied (private browsing, quota, sandboxing, permissions). *)
Record Policy := mkPolicy {
  localStorage_denied : bool;
  sessionStorage_denied : bool;
  indexedDB_in_window : bool;
  indexedDB_defined : bool;
  indexedDB_has_databases : bool;
  databases_rejects : bool;
  deleteDatabase_throws : string -> bool;
  caches_in_window : bool;
  caches_keys : keys_answer;
  caches_delete_throws : string -> bool;
  crypto_defined : bool;
  random_bytes : Z -> list N
}.

Definition SecurityError : exn := ErrorObj "SecurityError" "The operation is insecure.".

Section Calls.
Variable policy : Policy.

(** [localStorage.clear()] *)
Definition localStorage_clear : eff Storage unit :=
  if localStorage_denied policy then throw SecurityError
  else modify (fun st =>
         mkStorage ∅ (sessionStorage st) (databases st) (cacheNames st)).

(** [localStorage.setItem(key, value)] *)
Definition localStorage_setItem (key value : string) : eff Storage unit :=
  if localStorage_denied policy then throw SecurityError
  else modify (fun st =>
         mkStorage (<[key := value]> (localStorage st)) (sessionStorage st)
                   (databases st) (cacheNames st)).

(** [localStorage.getItem(key)] *)
Definition localStorage_getItem (key : string) : eff Storage (option string) :=
  if localStorage_denied policy then throw SecurityError
  else gets (fun st => localStorage st !! key).

(** [sessionStorage.clear()] *)
Definition sessionStorage_clear : eff Storage unit :=
  if sessionStorage_denied policy then throw SecurityError
  else modify (fun st =>
         mkStorage (localStorage st) ∅ (databases st) (cacheNames st)).

(** ['databases' in indexedDB] *)
Definition databases_in_indexedDB : eff Storage bool :=
  if indexedDB_defined policy then ret (indexedDB_has_databases policy)
  else throw (TypeError "right-hand side of 'in' is not an object").

(** [indexedDB.databases()], with [dbInfo.name || ''] for each entry *)
Definition indexedDB_databases : eff Storage (promise (list string)) :=
  if databases_rejects policy then ret (Throw SecurityError)
  else gets (fun st => Ok (databases st)).

(** [indexedDB.deleteDatabase(name)] *)
Definition indexedDB_deleteDatabase (name : string) : eff Storage unit :=
  if deleteDatabase_throws policy name then throw SecurityError
  else modify (fun st =>
         mkStorage (localStorage st) (sessionStorage st)
                   (List.filter (fun n => negb (String.eqb n name)) (databases st))
                   (cacheNames st)).

(** [caches.keys()] *)
Definition caches_keys_call : eff Storage (promise (list string)) :=
  match caches_keys policy with
  | KeysThrows => throw SecurityError
  | KeysRejects => ret (Throw SecurityError)
  | KeysResolves => gets (fun st => Ok (cacheNames st))
  end.

(** [caches.delete(name)] *)
Definition caches_delete (name : string) : eff Storage unit :=
  if caches_delete_throws policy name then throw SecurityError
  else modify (fun st =>
         mkStorage (localStorage st) (sessionStorage st) (databases st)
                   (List.filter (fun n => negb (String.eqb n name)) (cacheNames st))).

(** The most bytes one call of [crypto.getRandomValues] fills. *)
Definition ENTROPY_QUOTA : Z := 65536.

(** [crypto.getRandomValues(new Uint8Array(len))] *)
Definition getRandomValues {S} (len : Z) : eff S (list N) :=
  if negb (crypto_defined policy)
  then throw (ErrorObj "ReferenceError" "crypto is not defined")
  else if (ENTROPY_QUOTA <? len)%Z
  then throw (QuotaExceededError "The requested length exceeds 65536 bytes")
  else ret (random_bytes policy len).

End Calls.

End Browser.

(** ** Random identifiers: src/lib/security.ts, [generateSecureId] *)

Module SecureId.

(** The digit of [n] in base 16, for [n] below 16. *)
Definition hex_digit (n : N) : ascii :=
  match String.get (N.to_nat n) "0123456789abcdef" with
  | Some c => c
  | None => "0"%char
  end.

(** [byte.toString(16)], for a byte *)
Definition toString16 (byte : N) : string :=
  if (byte <? 16)%N then String (hex_digit byte) ""
  else String (hex_digit (byte / 16)) (String (hex_digit (byte mod 16)) "").

(** [s.padStart(2, '0')] *)
Definition padStart2 (s : string) : string :=
  match String.length s with
  | 0 => "00"
  | 1 => "0" +:+ s
  | _ => s
  end.

(** [generateSecureId(length)]; [new Uint8Array(length)] throws for a
    negative length. *)
Definition generateSecureId {S} (policy : Browser.Policy) (length : Z) : eff S string :=
  if (length <? 0)%Z
  then throw (ErrorObj "RangeError" "Invalid typed array length")
  else
    let! array := Browser.getRandomValues policy length in
    ret (String.concat "" (map (fun byte => padStart2 (toString16 byte)) array)).

(** [[0-9a-f]] *)
Definition is_lower_hex (c : ascii) : bool :=
  Js.in_range 48 57 c || Js.in_range 97 102 c.

(** What [crypto.getRandomValues] writes to a [Uint8Array] of [length]
    elements: that many bytes. *)
Definition fills_bytes (policy : Browser.Policy) (length : Z) : Prop :=
  Z.of_nat (List.length (Browser.random_bytes policy length)) = length
  /\ Forall (fun byte => (byte < 256)%N) (Browser.random_bytes policy length).

End SecureId.

(** ** [security-init.ts]: the storage scrub of [SecurityManager] *)

Module SecurityManager.
Import Browser.

Section Scrub.
Variable policy : Policy.

Definition allowedDatabases : list string :=
  ["webllm"; "webllm-cache"; "mlc-wasm-cache"; "mlc-chat-config"; "tvmjs"].

(** [private async clearUserDataFromIndexedDB(): Promise<void>] *)
Definition clearUserDataFromIndexedDB : eff Storage (promise unit) :=
  settle
    (try_catch
       (let! has := databases_in_indexedDB policy in
        when has
          (let! pending := indexedDB_databases policy in
           let! dbs := await pending in
           forEach (fun dbName =>
                      when (negb (Js.some (fun allowed => Js.includes dbName allowed)
                                          allowedDatabases))
                           (indexedDB_deleteDatabase policy dbName))
                   dbs))
       (fun _ => ret tt)).

(** [new Uint8Array(size); window.crypto.getRandomValues(buffer)], [n] times *)
Fixpoint overwrite_memory (n : nat) (size : Z) : eff Storage unit :=
  match n with
  | O => ret tt
  | S n' => ignore (getRandomValues policy size) ;; overwrite_memory n' size
  end.

(** [private secureMemoryWipe(): void] *)
Definition secureMemoryWipe : eff Storage unit :=
  try_catch
    (try_catch
       (localStorage_clear policy ;; sessionStorage_clear policy)
       (fun _ => ret tt) ;;
     ignore clearUserDataFromIndexedDB ;;
     when (caches_in_window policy)
       (let! pending := caches_keys_call policy in
        let! deleted :=
          then_ pending (fun names =>
            forEach (fun name =>
                       when (negb (Js.includes name "webllm")
                             && negb (Js.includes name "mlc"))
                            (caches_delete policy name))
                    names) in
        ignore (catch_ deleted (fun _ => ret tt))) ;;
     when (crypto_defined policy) (overwrite_memory 2 (256 * 1024)%Z))
    (fun _ => ret tt).

(** [private totalMemoryWipe(): void] *)
Definition totalMemoryWipe : eff Storage unit :=
  secureMemoryWipe ;;
  when (crypto_defined policy) (overwrite_memory 20 65536%Z).

(** The [beforeunload] listener of [deployDataProtection]. *)
Definition on_beforeunload : eff Storage unit :=
  try_catch
    (localStorage_clear policy ;;
     sessionStorage_clear policy ;;
     ignore clearUserDataFromIndexedDB)
    (fun _ => ret tt).

(** [private initiateSecurityProtocol(): void] *)
Definition initiateSecurityProtocol : eff Storage unit := totalMemoryWipe.

End Scrub.

(** The [allowedDomains] of [validateOrigin]. *)
Definition allowedDomains : list string :=
  ["huggingface.co"; "cdn-lfs.huggingface.co"; "raw.githubusercontent.com"].

(** [urlObj.hostname === domain || urlObj.hostname.endsWith('.' + domain)]
    for some allowed domain *)
Definition origin_matches (hostname : string) : bool :=
  Js.some (fun domain =>
             String.eqb hostname domain || Js.endsWith hostname ("." +:+ domain))
          allowedDomains.

(** [public validateOrigin(url: string): boolean]; [URL_hostname] is
    [new URL(url).hostname], [None] when the constructor throws. *)
Definition validateOrigin (URL_hostname : string -> option string) (url : string)
    : bool :=
  match URL_hostname url with
  | Some hostname => origin_matches hostname
  | None => false
  end.

End SecurityManager.

(** ** The data of the chat: messages, models, the store, the service *)

Module ChatMessage.
(** ['user' | 'assistant' | 'system'], and the [''] that [clearAllHistory]
    writes over a role. *)
Inductive Role := user | assistant | system | wiped.

Record t := mk {
  role : Role;
  content : string;
  timestamp : Z
}.

Definition role_text (r : Role) : string :=
  match r with
  | user => "user"
  | assistant => "assistant"
  | system => "system"
  | wiped => ""
  end.

Definition is_user (r : Role) : bool :=
  match r with user => true | _ => false end.
End ChatMessage.

Module ModelConfig.
Inductive Gpu := optional | recommended | required.
Inductive Category := tiny | small | medium | large | xl | coding.

Record t := mk {
  id : string;
  name : string;
  size : string;
  ram : Z;
  gpu : Gpu;
  description : string;
  category : Category
}.
End ModelConfig.

(** ** [model-config.ts]: the catalogue and what a device can run *)

Module Models.
Import ModelConfig.

Definition smollm2_360m : t :=
  mk "SmolLM2-360M-Instruct-q4f16_1-MLC" "SmolLM2 360M" "350MB" 2 optional
     "Extremely lightweight model for very old devices"
     tiny.

Definition qwen2_0_5b : t :=
  mk "Qwen2.5-0.5B-Instruct-q4f16_1-MLC" "Qwen2.5 0.5B" "500MB" 4 optional
     "Ultra-fast, works on all devices including old phones"
     tiny.

Definition qwen3_0_6b : t :=
  mk "Qwen3-0.6B-q4f16_1-MLC" "Qwen3 0.6B" "600MB" 4 optional
     "Latest ultra-compact Qwen model, excellent efficiency"
     tiny.

Definition llama32_1b : t :=
  mk "Llama-3.2-1B-Instruct-q4f16_1-MLC" "Llama 3.2 1B" "879MB" 6 optional
     "Flexible and fast, great for mobile devices"
     tiny.

Definition tinyllama_1b : t :=
  mk "TinyLlama-1.1B-Chat-v1.0-q4f16_1-MLC" "TinyLlama 1.1B" "879MB" 6 optional
     "Ultra-compact model for resource-constrained devices"
     tiny.

Definition qwen2_1_5b : t :=
  mk "Qwen2.5-1.5B-Instruct-q4f16_1-MLC" "Qwen2.5 1.5B" "1.63GB" 8 recommended
     "Recommended: Best balance of speed and quality"
     small.

Definition qwen3_1_7b : t :=
  mk "Qwen3-1.7B-q4f16_1-MLC" "Qwen3 1.7B" "1.7GB" 8 recommended
     "Latest Qwen3 model with improved performance"
     small.

Definition smollm2_1_7b : t :=
  mk "SmolLM2-1.7B-Instruct-q4f16_1-MLC" "SmolLM2 1.7B" "1.1GB" 8 recommended
     "Efficient small model with good performance"
     small.

Definition gemma_2b : t :=
  mk "gemma-2-2b-it-q4f16_1-MLC" "Gemma 2-2B (Google)" "1.73GB" 8 recommended
     "Google's efficient model, excellent for general tasks"
     small.

Definition llama32_3b : t :=
  mk "Llama-3.2-3B-Instruct-q4f16_1-MLC" "Llama 3.2 3B" "2.26GB" 12 recommended
     "High quality responses, good for complex conversations"
     medium.

Definition hermes_3b : t :=
  mk "Hermes-3-Llama-3.2-3B-q4f16_1-MLC" "Hermes 3 Llama 3B (Uncensored)" "2.26GB" 12 recommended
     "Uncensored 3B model with strong instruction following"
     medium.

Definition stablelm_3b : t :=
  mk "stablelm-2-zephyr-1_6b-q4f16_1-MLC" "StableLM 2 Zephyr 1.6B" "1.89GB" 10 recommended
     "Stability AI's efficient model, great for creative tasks"
     medium.

Definition qwen25_3b : t :=
  mk "Qwen2.5-3B-Instruct-q4f16_1-MLC" "Qwen2.5 3B" "2.1GB" 10 recommended
     "Latest Qwen model with excellent multilingual capabilities"
     medium.

Definition redpajama_3b : t :=
  mk "RedPajama-INCITE-Chat-3B-v1-q4f16_1-MLC" "RedPajama 3B" "2.07GB" 10 recommended
     "Open-source model trained on diverse data, versatile"
     medium.

Definition hermes_7b : t :=
  mk "Hermes-2-Pro-Mistral-7B-q4f16_1-MLC" "Hermes 2 Pro 7B (Uncensored)" "4.03GB" 12 required
     "Advanced uncensored model with excellent instruction following"
     large.

Definition mistral_7b : t :=
  mk "Mistral-7B-Instruct-v0.2-q4f16_1-MLC" "Mistral 7B v0.2" "4.37GB" 12 required
     "Popular powerful model, excellent for complex reasoning"
     large.

Definition mistral_7b_v0_3 : t :=
  mk "Mistral-7B-Instruct-v0.3-q4f16_1-MLC" "Mistral 7B v0.3" "4.37GB" 12 required
     "Latest Mistral model with improved performance"
     large.

Definition openhermes_7b : t :=
  mk "OpenHermes-2.5-Mistral-7B-q4f16_1-MLC" "OpenHermes 2.5 Mistral 7B" "4.37GB" 12 required
     "Fine-tuned Mistral with excellent instruction following"
     large.

Definition neuralhermes_7b : t :=
  mk "NeuralHermes-2.5-Mistral-7B-q4f16_1-MLC" "NeuralHermes 2.5 Mistral 7B" "4.37GB" 12 required
     "Specialized for complex reasoning and problem-solving"
     large.

Definition deepseek_7b : t :=
  mk "DeepSeek-R1-Distill-Qwen-7B-q4f16_1-MLC" "DeepSeek-R1 7B (Reasoning)" "5.11GB" 12 required
     "Specialized reasoning model with chain-of-thought capabilities"
     large.

Definition llama31_8b : t :=
  mk "Llama-3.1-8B-Instruct-q4f16_1-MLC" "Llama 3.1 8B" "4.60GB" 16 required
     "Meta's flagship model, exceptional at all tasks"
     xl.

Definition hermes_8b : t :=
  mk "Hermes-3-Llama-3.1-8B-q4f16_1-MLC" "Hermes 3 Llama 8B (Uncensored)" "4.98GB" 16 required
     "Latest uncensored model with advanced capabilities, no content restrictions"
     xl.

Definition deepseek_8b : t :=
  mk "DeepSeek-R1-Distill-Llama-8B-q4f16_1-MLC" "DeepSeek-R1 8B (Advanced Reasoning)" "5.00GB" 16 required
     "Top-tier reasoning model with exceptional problem-solving"
     xl.

Definition wizardmath_7b : t :=
  mk "WizardMath-7B-V1.1-q4f16_1-MLC" "WizardMath 7B" "4.57GB" 16 required
     "Specialized in mathematics and complex problem-solving"
     large.

Definition phi_3_5_mini : t :=
  mk "Phi-3.5-mini-instruct-q4f16_1-MLC" "Phi-3.5 Mini" "2.3GB" 10 recommended
     "Microsoft's efficient model with strong reasoning capabilities"
     medium.

Definition qwen3_4b : t :=
  mk "Qwen3-4B-q4f16_1-MLC" "Qwen3 4B" "2.5GB" 12 required
     "Latest Qwen3 model with excellent performance"
     medium.

Definition qwen25_7b : t :=
  mk "Qwen2.5-7B-Instruct-q4f16_1-MLC" "Qwen2.5 7B" "4.7GB" 12 required
     "Latest Qwen model with excellent multilingual support"
     large.

Definition qwen3_8b : t :=
  mk "Qwen3-8B-q4f16_1-MLC" "Qwen3 8B" "5.0GB" 16 required
     "Latest Qwen3 flagship model with cutting-edge capabilities"
     xl.

Definition gemma2_9b : t :=
  mk "gemma-2-9b-it-q4f16_1-MLC" "Gemma 2-9B" "5.4GB" 16 required
     "Google's advanced 9B model with strong reasoning"
     xl.

Definition qwen25_coder_7b : t :=
  mk "Qwen2.5-Coder-7B-Instruct-q4f16_1-MLC" "Qwen2.5-Coder 7B (Largest)" "4.7GB" 16 required
     "Most powerful coding model - expert at programming, debugging, and code review"
     coding.

Definition qwen25_coder_3b : t :=
  mk "Qwen2.5-Coder-3B-Instruct-q4f16_1-MLC" "Qwen2.5-Coder 3B" "2.1GB" 12 recommended
     "Efficient coding model great for development tasks and refactoring"
     coding.

Definition qwen25_coder_1_5b : t :=
  mk "Qwen2.5-Coder-1.5B-Instruct-q4f16_1-MLC" "Qwen2.5-Coder 1.5B" "1.2GB" 8 recommended
     "Fast coding assistant for quick tasks and code completion"
     coding.

Definition qwen25_coder_0_5b : t :=
  mk "Qwen2.5-Coder-0.5B-Instruct-q4f16_1-MLC" "Qwen2.5-Coder 0.5B (Mobile)" "400MB" 4 optional
     "Ultra-fast coding helper for mobile devices and simple coding tasks"
     coding.

(** [MODELS], with its keys, in the order of the source. *)
Definition MODELS : list (string * t) := [
  ("smollm2_360m", smollm2_360m);
  ("qwen2_0_5b", qwen2_0_5b);
  ("qwen3_0_6b", qwen3_0_6b);
  ("llama32_1b", llama32_1b);
  ("tinyllama_1b", tinyllama_1b);
  ("qwen2_1_5b", qwen2_1_5b);
  ("qwen3_1_7b", qwen3_1_7b);
  ("smollm2_1_7b", smollm2_1_7b);
  ("gemma_2b", gemma_2b);
  ("llama32_3b", llama32_3b);
  ("hermes_3b", hermes_3b);
  ("stablelm_3b", stablelm_3b);
  ("qwen25_3b", qwen25_3b);
  ("redpajama_3b", redpajama_3b);
  ("hermes_7b", hermes_7b);
  ("mistral_7b", mistral_7b);
  ("mistral_7b_v0_3", mistral_7b_v0_3);
  ("openhermes_7b", openhermes_7b);
  ("neuralhermes_7b", neuralhermes_7b);
  ("deepseek_7b", deepseek_7b);
  ("llama31_8b", llama31_8b);
  ("hermes_8b", hermes_8b);
  ("deepseek_8b", deepseek_8b);
  ("wizardmath_7b", wizardmath_7b);
  ("phi_3_5_mini", phi_3_5_mini);
  ("qwen3_4b", qwen3_4b);
  ("qwen25_7b", qwen25_7b);
  ("qwen3_8b", qwen3_8b);
  ("gemma2_9b", gemma2_9b);
  ("qwen25_coder_7b", qwen25_coder_7b);
  ("qwen25_coder_3b", qwen25_coder_3b);
  ("qwen25_coder_1_5b", qwen25_coder_1_5b);
  ("qwen25_coder_0_5b", qwen25_coder_0_5b)
].

(** [Object.values(MODELS)] *)
Definition values : list t := map snd MODELS.

(** [a === b] on categories *)
Definition same_category (a b : Category) : bool :=
  match a, b with
  | tiny, tiny | small, small | medium, medium
  | large, large | xl, xl | coding, coding => true
  | _, _ => false
  end.

Definition getModelsByCategory (category : Category) : list t :=
  List.filter (fun model => same_category (ModelConfig.category model) category) values.

(** [model.requirements.ram <= n] and [model.requirements.ram <= deviceMemory] *)
Definition ram_le (model : t) (n : Js.number) : bool :=
  Js.le (inject_Z (ram model)) n.

Definition getModelsForDevice (deviceMemory : Js.number) (isMobile : bool) : list t :=
  List.filter
    (fun model =>
       if isMobile then
         if Js.le deviceMemory 4%Q then same_category (category model) tiny
         else if Js.le deviceMemory 8%Q then
           same_category (category model) tiny || same_category (category model) small
         else
           same_category (category model) tiny || same_category (category model) small
           || (same_category (category model) medium && ram_le model 6%Q)
       else ram_le model deviceMemory)
    values.

Definition isModelCompatible (model : t) (deviceMemory : Js.number) (isMobile : bool)
    : bool :=
  if isMobile then
    if Js.le deviceMemory 4%Q then same_category (category model) tiny
    else if Js.le deviceMemory 8%Q then
      same_category (category model) tiny || same_category (category model) small
    else
      same_category (category model) tiny || same_category (category model) small
      || (same_category (category model) medium && ram_le model 6%Q)
  else ram_le model deviceMemory.

End Models.

(** ** [ModelSelector.tsx]: the status of a model card *)

(** [interface HardwareInfo], the fields that the selector reads;
    [deviceType] is [deviceInfo.type]. *)
Module HardwareInfo.
Inductive Backend := webgpu | webgl | wasm.
Inductive DeviceType := mobile | tablet | desktop.
Inductive Tier := tiny | small | medium | large | xl | xxl.

Record t := mk {
  memory : Js.number;
  backend : Backend;
  recommendedModel : Tier;
  deviceType : DeviceType
}.
End HardwareInfo.

Module ModelSelector.

Inductive Status := checking | insufficient | recommended | compatible.

(** [model.category === hardware.recommendedModel] *)
Definition is_recommended (category : ModelConfig.Category) (tier : HardwareInfo.Tier)
    : bool :=
  match category, tier with
  | ModelConfig.tiny, HardwareInfo.tiny
  | ModelConfig.small, HardwareInfo.small
  | ModelConfig.medium, HardwareInfo.medium
  | ModelConfig.large, HardwareInfo.large
  | ModelConfig.xl, HardwareInfo.xl => true
  | _, _ => false
  end.

(** [hardware.deviceInfo.type === 'mobile' || hardware.deviceInfo.type === 'tablet'] *)
Definition isMobile (hardware : HardwareInfo.t) : bool :=
  match HardwareInfo.deviceType hardware with
  | HardwareInfo.mobile | HardwareInfo.tablet => true
  | HardwareInfo.desktop => false
  end.

(** [getModelStatus(model)]; [hardware] is [null] until the detection ends. *)
Definition getModelStatus (hardware : option HardwareInfo.t) (model : ModelConfig.t)
    : Status :=
  match hardware with
  | None => checking
  | Some hardware =>
      let isCompatible :=
        Models.isModelCompatible model (HardwareInfo.memory hardware) (isMobile hardware) in
      if negb isCompatible then insufficient
      else if Js.lt (HardwareInfo.memory hardware) (inject_Z (ModelConfig.ram model))
      then insufficient
      else if match HardwareInfo.backend hardware, ModelConfig.gpu model with
              | HardwareInfo.wasm, (ModelConfig.recommended | ModelConfig.required) => true
              | _, _ => false
              end
      then insufficient
      else if is_recommended (ModelConfig.category model)
                             (HardwareInfo.recommendedModel hardware)
      then recommended
      else compatible
  end.

(** [status === 'insufficient' || isLoading], the [disabled] of the card;
    a click calls [onModelSelect] only when it is [false]. *)
Definition isDisabled (hardware : option HardwareInfo.t) (model : ModelConfig.t)
    (isLoading : bool) : bool :=
  match getModelStatus hardware model with
  | insufficient => true
  | _ => isLoading
  end.

End ModelSelector.

(** [interface ChatState], the fields. *)
Module ChatState.
Record t := mk {
  messages : list ChatMessage.t;
  selectedModel : option ModelConfig.t;
  isGenerating : bool;
  modelLoadingProgress : Z;
  modelLoadingStatus : string;
  isDarkMode : bool;
  autoDeleteChats : bool;
  systemInstruction : string;
  storageEnabled : bool;
  contextTokenCount : Z;
  showContextWarning : bool
}.

(** The state [create] starts from; [dark] is what [getInitialDarkMode]
    reads from the document. *)
Definition initial (dark : bool) : t :=
  mk [] None false 0 "" dark false "" false 0 false.
End ChatState.

(** The private fields of [class WebLLMService].  An engine is known by the
    number of its creation; the abort controller by its [aborted] flag. *)
Module Service.
Record t := mk {
  engine : option nat;
  currentModel : option string;
  isLoading : bool;
  loadingProgress : Z;
  loadingStatus : string;
  abortController : option bool
}.

Definition initial : t := mk None None false 0 "" None.
End Service.

(** The calls that reach the inference library and the callbacks the service
    invokes, in the order they happen. *)
Inductive event : Type :=
| EngineCreated (e : nat)
| EngineUnload (e : nat)
| EngineReload (e : nat) (model : string)
| CompletionCreate (e : nat) (messages : list (string * string)) (max_tokens : Z)
| OnProgress (progress : Z) (status : string)
| OnToken (token : string).

(** Everything the page holds. *)
Record World := mkWorld {
  chat : ChatState.t;
  storage : Browser.Storage;
  service : Service.t;
  trace : list event;
  engines_created : nat;
  clock_reads : nat;
  (** the variable [assistantContent] of the [handleSendMessage] in flight *)
  assistantContent : string
}.

Definition set_chat (f : ChatState.t -> ChatState.t) (w : World) : World :=
  mkWorld (f (chat w)) (storage w) (service w) (trace w) (engines_created w)
          (clock_reads w) (assistantContent w).

Definition set_service (f : Service.t -> Service.t) (w : World) : World :=
  mkWorld (chat w) (storage w) (f (service w)) (trace w) (engines_created w)
          (clock_reads w) (assistantContent w).

Definition set_assistantContent (f : string -> string) (w : World) : World :=
  mkWorld (chat w) (storage w) (service w) (trace w) (engines_created w)
          (clock_reads w) (f (assistantContent w)).

Definition emit (ev : event) : eff World unit :=
  modify (fun w =>
    mkWorld (chat w) (storage w) (service w) (trace w ++ [ev]) (engines_created w)
            (clock_reads w) (assistantContent w)).

(** Run a storage call of the browser on the storage of the world. *)
Definition on_storage {A} (m : eff Browser.Storage A) : eff World A :=
  zoom storage
       (fun st w => mkWorld (chat w) st (service w) (trace w) (engines_created w)
                            (clock_reads w) (assistantContent w))
       m.

Definition initial_world (dark : bool) (st : Browser.Storage) : World :=
  mkWorld (ChatState.initial dark) st Service.initial [] 0 0 "".

(** ** [chat-store.ts]: the chat state container *)

Module ChatStore.
Import ChatState.

Definition THEME_KEY : string := "oblivai-theme".

(** The warning shows above this many estimated tokens. *)
Definition WARNING_TOKENS : Z := 2048.

(** [newMessages.reduce((sum, msg) => sum + msg.content.length, 0)] *)
Definition totalChars (msgs : list ChatMessage.t) : Z :=
  fold_left (fun sum msg => (sum + Js.length (ChatMessage.content msg))%Z) msgs 0%Z.

(** [Math.ceil(totalChars / 4)], on a count of characters *)
Definition estimateTokens (chars : Z) : Z :=
  (if (chars mod 4 =? 0) then chars / 4 else chars / 4 + 1)%Z.

(** [array.toString()] of a [Uint8Array] *)
Definition Uint8Array_toString (bytes : list N) : string :=
  String.concat "," (map pretty bytes).

(** The partial updates that the actions hand to [set]. *)
Definition with_messages (msgs : list ChatMessage.t) (tokens : Z) (warn : bool)
    (st : t) : t :=
  mk msgs (selectedModel st) (isGenerating st) (modelLoadingProgress st)
     (modelLoadingStatus st) (isDarkMode st) (autoDeleteChats st)
     (systemInstruction st) (storageEnabled st) tokens warn.

Definition with_messages_only (msgs : list ChatMessage.t) (st : t) : t :=
  with_messages msgs (contextTokenCount st) (showContextWarning st) st.

Definition with_selectedModel (model : option ModelConfig.t) (st : t) : t :=
  mk (messages st) model (isGenerating st) (modelLoadingProgress st)
     (modelLoadingStatus st) (isDarkMode st) (autoDeleteChats st)
     (systemInstruction st) (storageEnabled st) (contextTokenCount st)
     (showContextWarning st).

Definition with_isGenerating (b : bool) (st : t) : t :=
  mk (messages st) (selectedModel st) b (modelLoadingProgress st)
     (modelLoadingStatus st) (isDarkMode st) (autoDeleteChats st)
     (systemInstruction st) (storageEnabled st) (contextTokenCount st)
     (showContextWarning st).

Definition with_modelLoading (progress : Z) (status : string) (st : t) : t :=
  mk (messages st) (selectedModel st) (isGenerating st) progress status
     (isDarkMode st) (autoDeleteChats st) (systemInstruction st)
     (storageEnabled st) (contextTokenCount st) (showContextWarning st).

Definition with_isDarkMode (b : bool) (st : t) : t :=
  mk (messages st) (selectedModel st) (isGenerating st) (modelLoadingProgress st)
     (modelLoadingStatus st) b (autoDeleteChats st) (systemInstruction st)
     (storageEnabled st) (contextTokenCount st) (showContextWarning st).

Definition with_autoDeleteChats (b : bool) (st : t) : t :=
  mk (messages st) (selectedModel st) (isGenerating st) (modelLoadingProgress st)
     (modelLoadingStatus st) (isDarkMode st) b (systemInstruction st)
     (storageEnabled st) (contextTokenCount st) (showContextWarning st).

Definition with_systemInstruction (text : string) (st : t) : t :=
  mk (messages st) (selectedModel st) (isGenerating st) (modelLoadingProgress st)
     (modelLoadingStatus st) (isDarkMode st) (autoDeleteChats st) text
     (storageEnabled st) (contextTokenCount st) (showContextWarning st).

Definition with_storageEnabled (b : bool) (st : t) : t :=
  mk (messages st) (selectedModel st) (isGenerating st) (modelLoadingProgress st)
     (modelLoadingStatus st) (isDarkMode st) (autoDeleteChats st)
     (systemInstruction st) b (contextTokenCount st) (showContextWarning st).

Definition with_context (tokens : Z) (warn : bool) (st : t) : t :=
  with_messages (messages st) tokens warn st.

(** [set(partial)] and [get()] of the store. *)
Definition set (f : t -> t) : eff World unit := modify (set_chat f).
Definition get : eff World t := gets chat.

Section Actions.
Variable policy : Browser.Policy.

(** The readings of the clock, in order, and [toISOString] on them. *)
Variable Date_now : nat -> Z.
Variable toISOString : Z -> string.

(** [new Date()] *)
Definition new_Date : eff World Z :=
  fun w => (Ok (Date_now (clock_reads w)),
            mkWorld (chat w) (storage w) (service w) (trace w)
                    (engines_created w) (S (clock_reads w)) (assistantContent w)).

Definition addMessage (message : ChatMessage.t) : eff World unit :=
  let! now := new_Date in
  set (fun state =>
    let newMessages :=
      messages state ++
      [ChatMessage.mk (ChatMessage.role message) (ChatMessage.content message) now] in
    let estimatedTokens := estimateTokens (totalChars newMessages) in
    let showWarning := (WARNING_TOKENS <? estimatedTokens)%Z in
    with_messages newMessages estimatedTokens showWarning state).

Definition clearMessages : eff World unit :=
  set (with_messages [] 0 false).

(** The [forEach] of [clearAllHistory]: the message objects of the store
    are overwritten where they are, one after the other, from index [i]. *)
Fixpoint overwrite_from (i : nat) (msgs : list ChatMessage.t) : eff World unit :=
  match msgs with
  | [] => ret tt
  | msg :: rest =>
      let len := Js.length (ChatMessage.content msg) in
      let! bytes := Browser.getRandomValues policy len in
      set (fun state =>
        with_messages_only
          (<[i := ChatMessage.mk ChatMessage.wiped (Uint8Array_toString bytes)
                                 (ChatMessage.timestamp msg)]> (messages state))
          state) ;;
      overwrite_from (S i) rest
  end.

Definition keep_cache (cacheName : string) : bool :=
  Js.includes cacheName "mlc" || Js.includes cacheName "webllm"
  || Js.includes cacheName "oblivai-static".

Definition preserveDatabases : list string :=
  ["webllm"; "mlc-wasm-cache"; "mlc-chat-config"; "tvmjs"].

Definition clearAllHistory : eff World unit :=
  let! state := get in
  overwrite_from 0 (messages state) ;;
  set (fun st => with_systemInstruction "" (with_messages [] 0 false st)) ;;
  try_catch
    (on_storage (Browser.localStorage_clear policy) ;;
     on_storage (Browser.sessionStorage_clear policy))
    (fun _ => ret tt) ;;
  when (Browser.caches_in_window policy)
    (let! pending := on_storage (Browser.caches_keys_call policy) in
     let! deleted :=
       then_ pending (fun cacheNames =>
         forEach (fun cacheName =>
                    when (negb (keep_cache cacheName))
                         (on_storage (Browser.caches_delete policy cacheName)))
                 cacheNames) in
     ignore (catch_ deleted (fun _ => ret tt))) ;;
  when (Browser.indexedDB_in_window policy)
    (try_catch
       (let! has := on_storage (Browser.databases_in_indexedDB policy) in
        when has
          (let! pending := on_storage (Browser.indexedDB_databases policy) in
           let! deleted :=
             then_ pending (fun dbs =>
               forEach (fun dbName =>
                          when (negb (Js.some (fun p => Js.includes dbName p)
                                              preserveDatabases))
                               (on_storage (Browser.indexedDB_deleteDatabase policy dbName)))
                       dbs) in
           ignore (catch_ deleted (fun _ => ret tt))))
       (fun _ => ret tt)).

Definition setSelectedModel (model : ModelConfig.t) : eff World unit :=
  set (with_selectedModel (Some model)).

Definition setGenerating (isGenerating : bool) : eff World unit :=
  set (with_isGenerating isGenerating).

Definition setModelLoadingProgress (progress : Z) (status : string) : eff World unit :=
  set (with_modelLoading progress status).

(** The classes of the document element are not part of the model. *)
Definition toggleDarkMode : eff World unit :=
  let! state := get in
  let newMode := negb (isDarkMode state) in
  try_catch
    (on_storage (Browser.localStorage_setItem policy THEME_KEY
                   (if newMode then "dark" else "light")))
    (fun _ => ret tt) ;;
  set (with_isDarkMode newMode).

Definition setAutoDeleteChats (autoDelete : bool) : eff World unit :=
  set (with_autoDeleteChats autoDelete).

Definition setSystemInstruction (instruction : string) : eff World unit :=
  set (with_systemInstruction instruction).

Definition enableStorage : eff World unit :=
  set (with_storageEnabled false).

Definition disableStorage : eff World unit :=
  set (with_storageEnabled false).

Definition exportChat : eff World string :=
  let! state := get in
  let markdown :=
    String.concat (Js.nl +:+ Js.nl)
      (map (fun msg =>
              "**" +:+ (if ChatMessage.is_user (ChatMessage.role msg) then "You" else "AI")
              +:+ "**: " +:+ ChatMessage.content msg)
           (messages state)) in
  let! now := new_Date in
  let nl := Js.nl in
  let header :=
    "# OBLIVAI Chat Export" +:+ nl +:+ nl +:+ "Exported: " +:+ toISOString now +:+ nl
    +:+ "Model: "
    +:+ match selectedModel state with
        | Some model => if String.eqb (ModelConfig.name model) "" then "Unknown"
                        else ModelConfig.name model
        | None => "Unknown"
        end
    +:+ nl +:+ nl +:+ "---" +:+ nl +:+ nl in
  ret (header +:+ markdown).

Definition updateContextTokenCount (count : Z) : eff World unit :=
  set (fun st => with_context count (WARNING_TOKENS <? count)%Z st).

Definition dismissContextWarning : eff World unit :=
  set (fun st => with_context (contextTokenCount st) false st).

(** The entry points of the store. *)
Inductive action : Type :=
| AddMessage (message : ChatMessage.t)
| ClearMessages
| ClearAllHistory
| SetSelectedModel (model : ModelConfig.t)
| SetGenerating (isGenerating : bool)
| SetModelLoadingProgress (progress : Z) (status : string)
| ToggleDarkMode
| SetAutoDeleteChats (autoDelete : bool)
| SetSystemInstruction (instruction : string)
| EnableStorage
| DisableStorage
| ExportChat
| UpdateContextTokenCount (count : Z)
| DismissContextWarning.

Definition perform (a : action) : eff World unit :=
  match a with
  | AddMessage message => addMessage message
  | ClearMessages => clearMessages
  | ClearAllHistory => clearAllHistory
  | SetSelectedModel model => setSelectedModel model
  | SetGenerating b => setGenerating b
  | SetModelLoadingProgress progress status => setModelLoadingProgress progress status
  | ToggleDarkMode => toggleDarkMode
  | SetAutoDeleteChats b => setAutoDeleteChats b
  | SetSystemInstruction text => setSystemInstruction text
  | EnableStorage => enableStorage
  | DisableStorage => disableStorage
  | ExportChat => ignore exportChat
  | UpdateContextTokenCount count => updateContextTokenCount count
  | DismissContextWarning => dismissContextWarning
  end.

(** A sequence of calls from event handlers: a call that throws leaves
    the state it reached, and the next call starts from it. *)
Definition run (actions : list action) (w : World) : World :=
  fold_left (fun w a => snd (perform a w)) actions w.

End Actions.

End ChatStore.

(** ** [set-theme.js] and [getInitialDarkMode]: the theme when the page loads *)

Module SetTheme.

(** What the script works on: the storage, and the classes of the document
    element. *)
Record Page := mkPage {
  storage : Browser.Storage;
  classList : gset string
}.

Definition THEME_KEY : string := "oblivai-theme".

Definition on_storage {A} (m : eff Browser.Storage A) : eff Page A :=
  zoom storage (fun st page => mkPage st (classList page)) m.

(** [document.documentElement.classList.add(name)] and [.remove(name)] *)
Definition classList_add (name : string) : eff Page unit :=
  modify (fun page => mkPage (storage page) ({[name]} ∪ classList page)).

Definition classList_remove (name : string) : eff Page unit :=
  modify (fun page => mkPage (storage page) (classList page ∖ {[name]})).

(** The script. *)
Definition script (policy : Browser.Policy) : eff Page unit :=
  try_catch
    (let! savedTheme :=
       try_catch (on_storage (Browser.localStorage_getItem policy THEME_KEY))
                 (fun _ => ret None) in
     let isDark := negb (Js.is_text savedTheme "light") in
     if isDark
     then classList_add "dark" ;; classList_remove "light"
     else classList_add "light" ;; classList_remove "dark")
    (fun _ => classList_add "dark").

(** [getInitialDarkMode()] of [chat-store.ts], in a browser. *)
Definition getInitialDarkMode : eff Page bool :=
  gets (fun page => bool_decide ("dark" ∈ classList page)).

(** The page is loaded: the script runs on a document element with the
    classes [classes], then the store reads its first [isDarkMode]. *)
Definition load (policy : Browser.Policy) (st : Browser.Storage) (classes : gset string)
    : result bool :=
  fst ((script policy ;; getInitialDarkMode) (mkPage st classes)).

End SetTheme.

(** The history is cleared: no message, no token counted, no warning. *)
Definition cleared (st : ChatState.t) : Prop :=
  ChatState.messages st = []
  /\ ChatState.contextTokenCount st = 0%Z
  /\ ChatState.showContextWarning st = false.

(** The text of the message fits one call of [crypto.getRandomValues]. *)
Definition within_quota (msg : ChatMessage.t) : Prop :=
  (Js.length (ChatMessage.content msg) <= Browser.ENTROPY_QUOTA)%Z.

(** ** What may reach the storage of the browser *)

Definition theme_value (v : string) : Prop := v = "dark" \/ v = "light".

(** [after] holds nothing that [before] did not hold, but for a theme
    preference under the key of the theme. *)
Definition only_theme_written (before after : Browser.Storage) : Prop :=
  (forall k v, Browser.localStorage after !! k = Some v ->
     Browser.localStorage before !! k = Some v
     \/ (k = ChatStore.THEME_KEY /\ theme_value v))
  /\ (forall k v, Browser.sessionStorage after !! k = Some v ->
        Browser.sessionStorage before !! k = Some v)
  /\ (forall n, n ∈ Browser.databases after -> n ∈ Browser.databases before)
  /\ (forall n, n ∈ Browser.cacheNames after -> n ∈ Browser.cacheNames before).

(** From [w] to [w']: the storage gained at most a theme preference, and the
    persistence switch of the store, if off, stayed off. *)
Definition no_leak (w w' : World) : Prop :=
  only_theme_written (storage w) (storage w')
  /\ (ChatState.storageEnabled (chat w) = false ->
      ChatState.storageEnabled (chat w') = false).

(** ** [webllm-service.ts]: the inference client adapter *)

Module WebLLMService.
Import Service.

Definition with_engine (e : option nat) (st : t) : t :=
  mk e (currentModel st) (isLoading st) (loadingProgress st) (loadingStatus st)
     (abortController st).

Definition with_currentModel (m : option string) (st : t) : t :=
  mk (engine st) m (isLoading st) (loadingProgress st) (loadingStatus st)
     (abortController st).

Definition with_isLoading (b : bool) (st : t) : t :=
  mk (engine st) (currentModel st) b (loadingProgress st) (loadingStatus st)
     (abortController st).

Definition with_loadingProgress (p : Z) (st : t) : t :=
  mk (engine st) (currentModel st) (isLoading st) p (loadingStatus st)
     (abortController st).

Definition with_loadingStatus (text : string) (st : t) : t :=
  mk (engine st) (currentModel st) (isLoading st) (loadingProgress st) text
     (abortController st).

Definition with_abortController (c : option bool) (st : t) : t :=
  mk (engine st) (currentModel st) (isLoading st) (loadingProgress st)
     (loadingStatus st) c.

(** [this.field = value] *)
Definition assign (f : t -> t) : eff World unit := modify (set_service f).

(** A throw of a plain [result] inside a computation. *)
Definition lift {A} (r : result A) : eff World A := fun w => (r, w).

(** [callback?.(a, b)]: the invocation is recorded, then the callback runs. *)
Definition call_onProgress (onProgress : option (Z -> string -> eff World unit))
    (progress : Z) (status : string) : eff World unit :=
  match onProgress with
  | Some callback => emit (OnProgress progress status) ;; callback progress status
  | None => ret tt
  end.

Definition call_onToken (onToken : option (string -> eff World unit))
    (token : string) : eff World unit :=
  match onToken with
  | Some callback => emit (OnToken token) ;; callback token
  | None => ret tt
  end.

(** [new webllm.MLCEngine(engineConfig)] *)
Definition new_MLCEngine (throws : option exn) : eff World nat :=
  match throws with
  | Some e => throw e
  | None =>
      fun w =>
        let e := engines_created w in
        (Ok e, mkWorld (chat w) (storage w) (service w) (trace w ++ [EngineCreated e])
                       (S e) (clock_reads w) (assistantContent w))
  end.

(** [await engine.unload()] *)
Definition engine_unload (e : nat) (throws : bool) : eff World unit :=
  emit (EngineUnload e) ;;
  if throws then throw (new_Error "unload failed") else ret tt.

Definition cleanup (unload_throws : bool) : eff World unit :=
  let! this := gets service in
  match engine this with
  | Some e =>
      try_catch (engine_unload e unload_throws) (fun _ => ret tt) ;;
      assign (with_engine None)
  | None => ret tt
  end ;;
  assign (with_currentModel None) ;;
  assign (with_loadingProgress 0) ;;
  assign (with_loadingStatus "").

Inductive adapter_answer := AdapterThrows | AdapterNull | AdapterFound.

(** One report of the library to [initProgressCallback]: [percent] is
    [Math.round(report.progress * 100)] when [report.progress] is neither
    [undefined] nor [null]; [elapsed] is [Math.round(report.timeElapsed)]
    when [report.timeElapsed] is truthy; [text] is [report.text], empty
    when absent. *)
Record Report := mkReport {
  percent : option Z;
  elapsed : option Z;
  text : string
}.

(** What the browser and the library answer during one [initializeModel]. *)
Record LoadEnv := mkLoadEnv {
  unload_throws : bool;
  isIOS : bool;
  isMobile : bool;
  gpu_in_navigator : bool;
  requestAdapter : adapter_answer;
  engine_ctor_throws : option exn;
  reports : list Report;
  reload_throws : option exn
}.

Definition status_for (hasWebGPU mobile : bool) (progressPercent : Z) : string :=
  let gpuType :=
    if hasWebGPU then "WebGPU (RTX GPU)" else if mobile then "GPU" else "WebGPU" in
  if (progressPercent <? 5)%Z then "Initializing " +:+ gpuType +:+ "..."
  else if (progressPercent <? 15)%Z then "Checking model cache..."
  else if (progressPercent <? 25)%Z then "Downloading model metadata..."
  else if (progressPercent <? 40)%Z then "Downloading model weights..."
  else if (progressPercent <? 55)%Z then "Loading model into memory..."
  else if (progressPercent <? 70)%Z then "Compiling " +:+ gpuType +:+ " shaders..."
  else if (progressPercent <? 85)%Z then "Optimizing for your device..."
  else if (progressPercent <? 95)%Z then "Finalizing model initialization..."
  else "Almost ready...".

Definition initProgressCallback (hasWebGPU mobile : bool)
    (onProgress : option (Z -> string -> eff World unit)) (report : Report)
    : eff World unit :=
  match percent report with
  | None => ret tt
  | Some progressPercent =>
      assign (with_loadingProgress progressPercent) ;;
      assign (with_loadingStatus (status_for hasWebGPU mobile progressPercent)) ;;
      match elapsed report with
      | Some seconds =>
          assign (fun st =>
            with_loadingStatus (loadingStatus st +:+ " (" +:+ pretty seconds +:+ "s)") st)
      | None => ret tt
      end ;;
      when (negb (String.eqb (text report) ""))
           (assign (with_loadingStatus (text report))) ;;
      let! this := gets service in
      call_onProgress onProgress (loadingProgress this) (loadingStatus this)
  end.

(** [await this.engine.reload(modelConfig.id)] *)
Definition engine_reload (env : LoadEnv) (hasWebGPU : bool)
    (onProgress : option (Z -> string -> eff World unit)) (model : string)
    : eff World unit :=
  let! this := gets service in
  match engine this with
  | None => throw (TypeError "Cannot read properties of null (reading 'reload')")
  | Some e =>
      emit (EngineReload e model) ;;
      forEach (initProgressCallback hasWebGPU (isMobile env) onProgress) (reports env) ;;
      match reload_throws env with
      | Some err => throw err
      | None => ret tt
      end
  end.

Definition lower_includes (message : string) (words : list string) : bool :=
  Js.some (fun word => Js.includes (Js.toLowerCase message) word) words.

Definition userFriendlyMessage (mobile : bool) (errorMessage : string) : string :=
  if lower_includes errorMessage ["webgpu"; "gpu"] then
    if mobile then
      "GPU initialization failed on your mobile device. This usually means:"
      +:+ Js.nl +:+ Js.nl
      +:+ "1. Your browser needs WebGL enabled (check browser settings)" +:+ Js.nl
      +:+ "2. Your device might be low on memory (close other apps)" +:+ Js.nl
      +:+ "3. Try a smaller model (Qwen2 0.5B or Llama 3.2 1B work best on mobile)"
      +:+ Js.nl +:+ Js.nl
      +:+ "Check browser console for more details."
    else "GPU acceleration not available. Your browser or device may not support it. Try Chrome/Edge on desktop, or select a smaller model."
  else if lower_includes errorMessage ["network"; "fetch"; "download"] then
    "Network error while downloading model. Check your internet connection and try again."
  else if lower_includes errorMessage ["memory"; "oom"; "out of memory"] then
    if mobile then
      "Out of memory on your mobile device. Try:" +:+ Js.nl +:+ Js.nl
      +:+ "1. Close other apps and browser tabs" +:+ Js.nl
      +:+ "2. Restart your browser" +:+ Js.nl
      +:+ "3. Use a smaller model (Qwen2 0.5B only needs 2GB RAM)"
    else "Out of memory. This model is too large for your device. Please select a smaller model from the Tiny category."
  else if lower_includes errorMessage ["abort"; "cancel"] then
    "Model loading was cancelled."
  else errorMessage.

(** [initializeModel] from [this.isLoading = true] to its end.  The name of
    the GPU, which only the development log shows, is left out. *)
Definition load (env : LoadEnv) (modelConfig : ModelConfig.t)
    (onProgress : option (Z -> string -> eff World unit)) : eff World unit :=
  assign (with_isLoading true) ;;
  assign (with_loadingProgress 0) ;;
  assign (with_loadingStatus "Initializing model...") ;;
  call_onProgress onProgress 0 "Initializing model..." ;;
  let hasWebGPU :=
    negb (isIOS env) && gpu_in_navigator env &&
    match requestAdapter env with AdapterFound => true | _ => false end in
  try_finally
    (try_catch
       (let status :=
          if hasWebGPU then "Initializing WebGPU engine..."
          else if isIOS env then "Initializing WebGL engine..."
          else "Creating ML engine..." in
        assign (with_loadingStatus status) ;;
        call_onProgress onProgress 5 status ;;
        let! e := new_MLCEngine (engine_ctor_throws env) in
        assign (with_engine (Some e)) ;;
        let status :=
          if hasWebGPU then "Starting GPU-accelerated download..."
          else "Starting model download..." in
        assign (with_loadingStatus status) ;;
        call_onProgress onProgress 10 status ;;
        engine_reload env hasWebGPU onProgress (ModelConfig.id modelConfig) ;;
        assign (with_loadingProgress 100) ;;
        assign (with_loadingStatus "Model loaded successfully") ;;
        call_onProgress onProgress 100 "Model loaded successfully" ;;
        assign (with_currentModel (Some (ModelConfig.id modelConfig))))
       (fun error =>
          let errorMessage := message_or "Unknown error" error in
          let status := "Error loading model: " +:+ errorMessage in
          assign (with_loadingStatus status) ;;
          call_onProgress onProgress 0 status ;;
          throw (new_Error (userFriendlyMessage (isMobile env) errorMessage))))
    (assign (with_isLoading false)).

(** [async initializeModel(modelConfig, onProgress)] *)
Definition initializeModel (env : LoadEnv) (modelConfig : ModelConfig.t)
    (onProgress : option (Z -> string -> eff World unit)) : eff World unit :=
  let! this := gets service in
  if isLoading this then throw (new_Error "Model is already loading")
  else
    when (Js.present (engine this)
          && negb (Js.is_text (currentModel this) (ModelConfig.id modelConfig)))
         (cleanup (unload_throws env)) ;;
    let! this := gets service in
    if Js.present (engine this)
       && Js.is_text (currentModel this) (ModelConfig.id modelConfig)
    then ret tt
    else load env modelConfig onProgress.

(** What reaches a [generateResponse] in flight while it awaits: a chunk
    of the completion, with its [choices[0]?.delta?.content]; a failure of
    the stream; or another task of the event loop, such as the handler of
    the stop button. *)
Inductive incoming : Type :=
| Chunk (delta : option string)
| StreamThrows (e : exn)
| Task (run : eff World unit).

Record GenEnv := mkGenEnv {
  create_throws : option exn;
  stream : list incoming
}.

(** The message of the [TypeError] for [null.signal]; this is the text of
    V8. *)
Definition null_signal_message : string :=
  "Cannot read properties of null (reading 'signal')".

(** [for await (const chunk of completion) { ... }] *)
Fixpoint for_await (onToken : option (string -> eff World unit))
    (incomings : list incoming) (fullResponse : string) : eff World string :=
  match incomings with
  | [] => ret fullResponse
  | Task run :: rest =>
      ignore (settle run) ;;
      for_await onToken rest fullResponse
  | StreamThrows e :: _ => throw e
  | Chunk delta :: rest =>
      let! this := gets service in
      match abortController this with
      | None => throw (TypeError null_signal_message)
      | Some true => ret fullResponse
      | Some false =>
          match delta with
          | Some (String c d) =>
              call_onToken onToken (String c d) ;;
              for_await onToken rest (fullResponse +:+ String c d)
          | _ => for_await onToken rest fullResponse
          end
      end
  end.

Definition isGPULost (errorMessage : string) : bool :=
  Js.includes errorMessage "Instance reference no longer exists" ||
  Js.includes errorMessage "Device was lost" ||
  Js.includes errorMessage "GPUDeviceLostInfo" ||
  Js.includes errorMessage "OperationError".

Section Generate.
Context `{DOMPurify}.

(** The loop that fills [chatMessages]. *)
Fixpoint convert (messages : list ChatMessage.t) : result (list (string * string)) :=
  match messages with
  | [] => Ok []
  | msg :: rest =>
      match (if ChatMessage.is_user (ChatMessage.role msg)
             then Security.sanitizeInput (ChatMessage.content msg)
             else Ok (ChatMessage.content msg)) with
      | Throw e => Throw e
      | Ok text =>
          match convert rest with
          | Throw e => Throw e
          | Ok converted =>
              Ok ((ChatMessage.role_text (ChatMessage.role msg), text) :: converted)
          end
      end
  end.

(** [async generateResponse(messages, onToken, maxTokens = 1024, systemInstruction)] *)
Definition generateResponse (env : GenEnv) (messages : list ChatMessage.t)
    (onToken : option (string -> eff World unit)) (maxTokens : option Z)
    (systemInstruction : option string) : eff World string :=
  let! this := gets service in
  match engine this with
  | None => throw (new_Error "Model not initialized")
  | Some e =>
      try_finally
        (try_catch
           (let instruction :=
              match systemInstruction with
              | Some text =>
                  if String.eqb (Js.trim text) "" then []
                  else [("system", Js.trim text)]
              | None => []
              end in
            let! converted := lift (convert messages) in
            let chatMessages := instruction ++ converted in
            assign (with_abortController (Some false)) ;;
            emit (CompletionCreate e chatMessages (Z.min (default 1024%Z maxTokens) 1024)) ;;
            match create_throws env with
            | Some err => throw err
            | None => for_await onToken (stream env) ""
            end)
           (fun error =>
              match error with
              | ErrorObj "AbortError" _ => throw (new_Error "Generation cancelled")
              | _ =>
                  let errorMessage := message_or_text error in
                  if isGPULost errorMessage then
                    assign (with_engine None) ;;
                    assign (with_currentModel None) ;;
                    throw (new_Error "GPU_DEVICE_LOST: GPU ran out of memory. Please reload the model or try a smaller one.")
                  else
                    throw (new_Error ("Failed to generate response: " +:+ errorMessage))
              end))
        (assign (with_abortController None))
  end.

End Generate.

Definition isModelLoaded : eff World bool :=
  gets (fun w => Js.present (engine (service w))).

Definition getCurrentModel : eff World (option string) :=
  gets (fun w => currentModel (service w)).

Definition cancelGeneration : eff World unit :=
  let! this := gets service in
  match abortController this with
  | Some _ =>
      assign (with_abortController (Some true)) ;;
      assign (with_abortController None)
  | None => ret tt
  end.

Definition dispose (unload_throws : bool) : eff World unit :=
  cleanup unload_throws ;;
  cancelGeneration.

Definition getLoadingStatus : eff World bool :=
  gets (fun w => isLoading (service w)).

End WebLLMService.

(** ** Engines loaded over time *)

(** [App.tsx] hands [setModelLoadingProgress] to [initializeModel]. *)
Definition progressCallback (progress : Z) (status : string) : eff World unit :=
  ChatStore.setModelLoadingProgress progress status.

(** The engines created and not unloaded, oldest first, after one more event. *)
Definition step_live (live : list nat) (ev : event) : list nat :=
  match ev with
  | EngineCreated e => live ++ [e]
  | EngineUnload e => List.filter (fun x => negb (x =? e)%nat) live
  | _ => live
  end.

Definition live_engines (evs : list event) : list nat := fold_left step_live evs [].

(** The largest number of engines loaded at one time while [evs] happen,
    starting with [live]. *)
Fixpoint max_live (live : list nat) (evs : list event) : nat :=
  match evs with
  | [] => length live
  | ev :: rest => Nat.max (length live) (max_live (step_live live ev) rest)
  end.

(** At no time are two engines loaded. *)
Definition one_at_a_time (evs : list event) : Prop := max_live [] evs <= 1.

Definition option_engine (o : option nat) : list nat :=
  match o with Some e => [e] | None => [] end.

(** The service holds the engine [held] and no other engine is loaded, nor
    were two loaded at any time so far. *)
Definition holds (held : option nat) (w : World) : Prop :=
  Service.engine (service w) = held
  /\ live_engines (trace w) = option_engine held
  /\ one_at_a_time (trace w).

(** Since the events [before]: the service holds the engine [held], no
    other engine created since then is loaded, nor were two of them loaded
    at any time. *)
Definition holds_since (before : list event) (held : option nat) (w : World) : Prop :=
  Service.engine (service w) = held
  /\ exists evs,
       trace w = before ++ evs
       /\ live_engines evs = option_engine held
       /\ one_at_a_time evs.

(** Between two calls: no load in progress, and [holds]. *)
Definition settled (w : World) : Prop :=
  Service.isLoading (service w) = false
  /\ exists held, holds held w.

(** An event that neither loads nor unloads an engine. *)
Definition is_neutral (ev : event) : Prop :=
  match ev with
  | EngineCreated _ | EngineUnload _ => False
  | _ => True
  end.

(** From [w] to [w']: the engine held is the same, and no engine was created
    or unloaded. *)
Definition calm (w w' : World) : Prop :=
  Service.engine (service w') = Service.engine (service w)
  /\ exists evs, trace w' = trace w ++ evs /\ Forall is_neutral evs.

(** From [w] to [w']: events were added, none was removed. *)
Definition extends (w w' : World) : Prop :=
  exists evs, trace w' = trace w ++ evs.

(** A history of calls of [initializeModel], each with the answers it got. *)
Definition loads (history : list (WebLLMService.LoadEnv * ModelConfig.t)) (w : World)
    : World :=
  fold_left
    (fun w call =>
       snd (WebLLMService.initializeModel (fst call) (snd call) (Some progressCallback) w))
    history w.

(** ** [ChatInterface.tsx]: the send path *)

Module ChatInterface.
Import ChatState.

Section Handlers.
Context `{DOMPurify}.
Variable Date_now : nat -> Z.

Definition MAX_MESSAGE_LENGTH : nat := 4000.

(** The text of the source, without its two symbols above U+00FF (a
    warning sign before the title, an arrow between the brackets). *)
Definition GPU_MEMORY_ERROR : string :=
  " **GPU Memory Error**" +:+ Js.nl +:+ Js.nl
  +:+ "The GPU ran out of memory. This can happen with larger models or long conversations."
  +:+ Js.nl +:+ Js.nl
  +:+ "**To fix:**" +:+ Js.nl
  +:+ "1. Click the back arrow () to return to model selection" +:+ Js.nl
  +:+ "2. Try a smaller model, or" +:+ Js.nl
  +:+ "3. Clear your chat history and reload the same model".

(** The callback handed to [generateResponse]:
    [assistantContent += token], then the last message of the store is
    replaced. *)
Definition onToken (assistantMessage : ChatMessage.t) (token : string)
    : eff World unit :=
  modify (set_assistantContent (fun text => text +:+ token)) ;;
  let! text := gets assistantContent in
  ChatStore.set (fun state =>
    ChatStore.with_messages_only
      (Js.slice_but_last (messages state) ++
       [ChatMessage.mk (ChatMessage.role assistantMessage) text
                       (ChatMessage.timestamp assistantMessage)])
      state).

(** [handleSendMessage(content)].  The values the component rendered
    with ([messages], [selectedModel], [contextTokenCount],
    [systemInstruction]) are those of the store when the call starts. *)
Definition handleSendMessage (env : WebLLMService.GenEnv) (content : string)
    : eff World unit :=
  let! rendered := ChatStore.get in
  let! loaded := WebLLMService.isModelLoaded in
  if negb (Js.present (selectedModel rendered)) || negb loaded
  then ret tt
  else
    let! sanitized := WebLLMService.lift (Security.sanitizeInput content) in
    let cleaned := Js.slice0 MAX_MESSAGE_LENGTH sanitized in
    let! sent := ChatStore.new_Date Date_now in
    let userMessage := ChatMessage.mk ChatMessage.user cleaned sent in
    ChatStore.addMessage Date_now userMessage ;;
    ChatStore.setGenerating true ;;
    try_finally
      (try_catch
         (let maxContextMessages :=
            if (2048 <? contextTokenCount rendered)%Z then 6 else 10 in
          let contextMessages := Js.slice_last maxContextMessages (messages rendered) in
          let allMessages := contextMessages ++ [userMessage] in
          modify (set_assistantContent (fun _ => "")) ;;
          let! started := ChatStore.new_Date Date_now in
          let assistantMessage := ChatMessage.mk ChatMessage.assistant "" started in
          ChatStore.addMessage Date_now assistantMessage ;;
          ignore (WebLLMService.generateResponse env allMessages
                    (Some (onToken assistantMessage)) None
                    (Some (systemInstruction rendered))))
         (fun error =>
            let errorMsg := message_or "Failed to generate response" error in
            let! failed := ChatStore.new_Date Date_now in
            if Js.includes errorMsg "GPU_DEVICE_LOST"
            then ChatStore.addMessage Date_now
                   (ChatMessage.mk ChatMessage.assistant GPU_MEMORY_ERROR failed)
            else ChatStore.addMessage Date_now
                   (ChatMessage.mk ChatMessage.assistant ("Error: " +:+ errorMsg) failed)))
      (ChatStore.setGenerating false).

Definition handleStopGeneration : eff World unit :=
  WebLLMService.cancelGeneration ;;
  ChatStore.setGenerating false.

End Handlers.

End ChatInterface.

(** ** Notions for the properties of the store, the stream and the scrub *)

(** The warning of the context shows only above the threshold. *)
Definition warning_justified (st : ChatState.t) : Prop :=
  ChatState.showContextWarning st = true ->
  (ChatStore.WARNING_TOKENS < ChatState.contextTokenCount st)%Z.

Definition stays_justified (w w' : World) : Prop :=
  warning_justified (chat w) -> warning_justified (chat w').

(** The text that a chunk of a completion carries, if any. *)
Definition delta_text (i : WebLLMService.incoming) : option string :=
  match i with
  | WebLLMService.Chunk (Some (String c d)) => Some (String c d)
  | _ => None
  end.

(** The texts of a stream, in order. *)
Definition delta_texts (incomings : list WebLLMService.incoming) : list string :=
  omap delta_text incomings.

Definition is_chunk (i : WebLLMService.incoming) : Prop :=
  match i with WebLLMService.Chunk _ => True | _ => False end.

(** A token callback that ends normally and leaves the service and the
    trace alone. *)
Definition quiet (callback : string -> eff World unit) : Prop :=
  forall token w,
    fst (callback token w) = Ok tt
    /\ service (snd (callback token w)) = service w
    /\ trace (snd (callback token w)) = trace w.

(** The world after [callback?.(token)]. *)
Definition deliver (callback : string -> eff World unit) (w : World) (token : string)
    : World :=
  snd (callback token (snd (emit (OnToken token) w))).

(** The world when the first chunk of a completion arrives: the controller
    is in place and the request was made. *)
Definition requested (e : nat) (prompt : list (string * string)) (max_tokens : Z)
    (w : World) : World :=
  snd (emit (CompletionCreate e prompt max_tokens)
         (set_service (WebLLMService.with_abortController (Some false)) w)).

(** A message that [generateResponse] can convert: the text of a user is
    not longer than [sanitizeInput] accepts. *)
Definition sendable (msg : ChatMessage.t) : Prop :=
  ChatMessage.is_user (ChatMessage.role msg) = true ->
  (Js.length (ChatMessage.content msg) <= Security.MAX_INPUT_LENGTH)%Z.

(** From [w] to [w']: the engine, the model and the loading flag of the
    service are the same. *)
Definition same_model (w w' : World) : Prop :=
  Service.engine (service w') = Service.engine (service w)
  /\ Service.currentModel (service w') = Service.currentModel (service w)
  /\ Service.isLoading (service w') = Service.isLoading (service w).

(** A progress callback that ends normally and leaves the service alone. *)
Definition quiet_progress (callback : Z -> string -> eff World unit) : Prop :=
  forall progress status w,
    fst (callback progress status w) = Ok tt
    /\ same_model w (snd (callback progress status w)).

(** A statement that ends normally and leaves the engine, the model and the
    loading flag alone. *)
Definition settles_calmly (m : eff World unit) : Prop :=
  forall w, exists w', m w = (Ok tt, w') /\ same_model w w'.

(** The local storage is empty. *)
Definition emptied (st : Browser.Storage) : Prop := Browser.localStorage st = ∅.

(** A browser that answers every storage call. *)
Definition answers_all (policy : Browser.Policy) : Prop :=
  Browser.localStorage_denied policy = false
  /\ Browser.sessionStorage_denied policy = false
  /\ Browser.indexedDB_in_window policy = true
  /\ Browser.indexedDB_defined policy = true
  /\ Browser.indexedDB_has_databases policy = true
  /\ Browser.databases_rejects policy = false
  /\ (forall name, Browser.deleteDatabase_throws policy name = false)
  /\ Browser.caches_in_window policy = true
  /\ Browser.caches_keys policy = Browser.KeysResolves
  /\ (forall name, Browser.caches_delete_throws policy name = false).

(** The names left when every name of [names] that is [doomed] is deleted. *)
Definition purge (doomed : string -> bool) (names remaining : list string) : list string :=
  fold_left
    (fun remaining name =>
       if doomed name
       then List.filter (fun n => negb (String.eqb n name)) remaining
       else remaining)
    names remaining.

(** The world with another storage. *)
Definition with_storage (st : Browser.Storage) (w : World) : World :=
  mkWorld (chat w) st (service w) (trace w) (engines_created w) (clock_reads w)
          (assistantContent w).


(** ** A page to run the examples on *)

Module Example.

(** DOMPurify on a text that holds no markup: the text comes back as it is.
    The examples below sanitise only such texts. *)
Definition text_only : DOMPurify := fun s => s.

(** A browser that denies nothing. *)
Definition permissive : Browser.Policy :=
  Browser.mkPolicy false false true true true false (fun _ => false)
                   true Browser.KeysResolves (fun _ => false) true (fun _ => []).

(** A browser that denies every storage call and has no Cache API. *)
Definition locked_down : Browser.Policy :=
  Browser.mkPolicy true true true false false true (fun _ => true)
                   false Browser.KeysThrows (fun _ => true) true (fun _ => []).

Definition empty_storage : Browser.Storage := Browser.mkStorage ∅ ∅ [] [].

(** Two entries of the model catalogue. *)
Definition smollm2_360m : ModelConfig.t :=
  ModelConfig.mk "SmolLM2-360M-Instruct-q4f16_1-MLC" "SmolLM2 360M" "350MB" 2
                 ModelConfig.optional "Extremely lightweight model for very old devices"
                 ModelConfig.tiny.

Definition qwen2_0_5b : ModelConfig.t :=
  ModelConfig.mk "Qwen2.5-0.5B-Instruct-q4f16_1-MLC" "Qwen2.5 0.5B" "500MB" 4
                 ModelConfig.optional
                 "Ultra-fast, works on all devices including old phones"
                 ModelConfig.tiny.

(** A desktop with WebGPU, on which every call succeeds. *)
Definition desktop : WebLLMService.LoadEnv :=
  WebLLMService.mkLoadEnv false false false true WebLLMService.AdapterFound None
    [WebLLMService.mkReport (Some 50%Z) (Some 3%Z) ""] None.

(** The page after the first model was chosen and loaded. *)
Definition ready (dark : bool) (st : Browser.Storage) : World :=
  snd (WebLLMService.initializeModel desktop smollm2_360m (Some progressCallback)
         (snd (ChatStore.setSelectedModel smollm2_360m (initial_world dark st)))).

(** A completion of two chunks; the stop button is pressed between them. *)
Definition stopped_after_first_chunk : WebLLMService.GenEnv :=
  WebLLMService.mkGenEnv None
    [WebLLMService.Chunk (Some "Hel");
     WebLLMService.Task ChatInterface.handleStopGeneration;
     WebLLMService.Chunk (Some "lo")].

(** A text of 10001 characters. *)
Definition too_long : string := Js.repeat_char "a" (Z.to_nat 10001).

(** A text of 65537 characters. *)
Definition over_quota : string := Js.repeat_char "a" (Z.to_nat 65537).

(** The roles and texts of the messages of the store. *)
Definition transcript (w : World) : list (ChatMessage.Role * string) :=
  map (fun msg => (ChatMessage.role msg, ChatMessage.content msg))
      (ChatState.messages (chat w)).

(** The tokens handed to [onToken], in order. *)
Definition tokens (w : World) : list string :=
  omap (fun ev => match ev with OnToken token => Some token | _ => None end) (trace w).

(** A completion of three chunks, the second without text. *)
Definition two_words : WebLLMService.GenEnv :=
  WebLLMService.mkGenEnv None
    [WebLLMService.Chunk (Some "Hel"); WebLLMService.Chunk None;
     WebLLMService.Chunk (Some "lo")].

(** A desktop on which the download of the model fails. *)
Definition offline : WebLLMService.LoadEnv :=
  WebLLMService.mkLoadEnv false false false true WebLLMService.AdapterFound None
    [WebLLMService.mkReport (Some 20%Z) None ""] (Some (new_Error "network down")).

(** A laptop with 8 GB and WebGPU. *)
Definition laptop : HardwareInfo.t :=
  HardwareInfo.mk 8%Q HardwareInfo.webgpu HardwareInfo.small HardwareInfo.desktop.

(** What a browser may hold for the page: a model cache and data of the
    user. *)
Definition used_storage : Browser.Storage :=
  Browser.mkStorage {["oblivai-theme" := "light"]} ∅
                    ["webllm-cache"; "notes"] ["mlc-models"; "pages"].


End Example.

(** * Properties *)

(** ** The effect combinators *)

(** A [catch] block that does nothing makes the statement end normally. *)
Lemma try_catch_swallow {S} (m : eff S unit) (s : S) :
  fst (try_catch m (fun _ => ret tt) s) = Ok tt.
Proof.
  unfold try_catch. destruct (m s) as [[[]|e] s']; reflexivity.
Qed.

(** ** The audit log (C3) *)

Section AuditLog.
Import NetworkAudit.

Lemma apply_call_unfold (requests : log) (c : call) :
  apply_call requests c =
  if (MAX_ENTRIES <? length (requests ++ [entry_of c]))%nat
  then tail (requests ++ [entry_of c]) else requests ++ [entry_of c].
Proof. reflexivity. Qed.

Lemma run_snoc (calls : list call) (c : call) (requests : log) :
  run (calls ++ [c]) requests = apply_call (run calls requests) c.
Proof. unfold run. by rewrite fold_left_app. Qed.

Lemma tail_drop {A} (l : list A) : tail l = drop 1 l.
Proof. by destruct l. Qed.

(** The log holds exactly the last [MAX_ENTRIES] entries that were logged. *)
Lemma run_is_window (calls : list call) :
  run calls empty = drop (length calls - MAX_ENTRIES) (map entry_of calls).
Proof.
  induction calls as [|c calls IH] using rev_ind; [done|].
  rewrite run_snoc, apply_call_unfold, IH, map_app, length_app. simpl.
  assert (Hlen : length (map entry_of calls) = length calls) by apply length_map.
  rewrite length_app, length_drop, Hlen. simpl.
  unfold MAX_ENTRIES in *.
  destruct (Nat.ltb_spec 100 (length calls - (length calls - 100) + 1)) as [Hgt|Hle].
  - rewrite tail_drop.
    rewrite <- (drop_app_le _ [entry_of c]) by lia.
    rewrite drop_drop. f_equal. lia.
  - rewrite <- (drop_app_le _ [entry_of c]) by lia.
    f_equal. lia.
Qed.

Lemma run_length_le (calls : list call) :
  length (run calls empty) <= MAX_ENTRIES.
Proof.
  rewrite run_is_window, length_drop, length_map. unfold MAX_ENTRIES. lia.
Qed.

(** C3.  Whatever calls of [logRequest] were made on the audit log since it
    was created, the log holds at most 100 entries; it holds the entries of
    the last calls, in the order of the calls; and the next call appends its
    entry, dropping the oldest entry exactly when the log already holds 100. *)
Theorem audit_log_bounded_fifo (calls : list call) (next : call) :
  let requests := run calls empty in
  length requests <= 100
  /\ requests = drop (length calls - 100) (map entry_of calls)
  /\ apply_call requests next =
     (if (length requests =? 100)%nat then tail requests else requests)
     ++ [entry_of next].
Proof.
  pose proof (run_length_le calls) as Hle. unfold MAX_ENTRIES in Hle.
  cbv zeta. split; [exact Hle|]. split; [apply run_is_window|].
  rewrite apply_call_unfold, length_app. simpl. unfold MAX_ENTRIES.
  destruct (Nat.eqb_spec (length (run calls empty)) 100) as [Heq|Hne].
  - rewrite Heq. simpl.
    destruct (run calls empty) as [|r requests]; [discriminate|reflexivity].
  - destruct (Nat.ltb_spec 100 (length (run calls empty) + 1)); [lia|reflexivity].
Qed.

End AuditLog.

(** ** The fetch gate (C1, C4) *)

Section FetchGate.
Import NetworkSecurity.

Variable location_hostname : string.
Variable URL_hostname : string -> option string.
Variable Date_now : nat -> Z.

(** A URL whose host matches the allow-list is logged as allowed and handed
    to the original [fetch]. *)
Lemma fetch_matching_host_proceeds (url hostname : string) (init_method : option string)
    (st : Net) :
  URL_hostname url = Some hostname ->
  host_matches location_hostname hostname = true ->
  fetch location_hostname URL_hostname Date_now url init_method st =
  (Ok tt,
   mkNet (NetworkAudit.logRequest (Date_now (reads st)) url true
            (Some (if isLocalRequest location_hostname hostname
                   then "Local request" else "Whitelisted domain"))
            (method_or_GET init_method) (requests st))
         (S (reads st)) (issued st ++ [url])).
Proof.
  intros Hhost Hmatch. unfold host_matches in Hmatch.
  unfold fetch, try_catch, bind, check. rewrite Hhost.
  destruct (isAllowed hostname) eqn:Ha, (isLocalRequest location_hostname hostname) eqn:Hl;
    try discriminate; reflexivity.
Qed.

(** A URL whose host does not match and whose text starts neither with a
    slash nor with a dot and a slash is rejected; the log receives two
    blocked entries, one from the [try] block and one from the [catch]
    block. *)
Lemma fetch_other_host_rejected (url hostname : string) (init_method : option string)
    (st : Net) :
  URL_hostname url = Some hostname ->
  host_matches location_hostname hostname = false ->
  Js.startsWith url "/" || Js.startsWith url "./" = false ->
  fetch location_hostname URL_hostname Date_now url init_method st =
  (Throw (new_Error "Network request blocked"),
   mkNet (NetworkAudit.logRequest (Date_now (S (reads st))) url false
            (Some "Invalid or blocked URL") (method_or_GET init_method)
            (NetworkAudit.logRequest (Date_now (reads st)) url false
               (Some "Domain not in whitelist") (method_or_GET init_method)
               (requests st)))
         (S (S (reads st))) (issued st)).
Proof.
  intros Hhost Hmatch Hrel. unfold host_matches in Hmatch.
  apply orb_false_iff in Hmatch as [Ha Hl].
  unfold fetch, try_catch, bind, check, recover. rewrite Hhost, Ha, Hl, Hrel.
  reflexivity.
Qed.

(** A URL whose host does not match but whose text starts with a slash or
    with a dot and a slash is logged as blocked, then as allowed, and handed
    to the original [fetch]. *)
Lemma fetch_other_host_slash_proceeds (url hostname : string)
    (init_method : option string) (st : Net) :
  URL_hostname url = Some hostname ->
  host_matches location_hostname hostname = false ->
  Js.startsWith url "/" || Js.startsWith url "./" = true ->
  fetch location_hostname URL_hostname Date_now url init_method st =
  (Ok tt,
   mkNet (NetworkAudit.logRequest (Date_now (S (reads st))) url true
            (Some "Local resource") (method_or_GET init_method)
            (NetworkAudit.logRequest (Date_now (reads st)) url false
               (Some "Domain not in whitelist") (method_or_GET init_method)
               (requests st)))
         (S (S (reads st))) (issued st ++ [url])).
Proof.
  intros Hhost Hmatch Hrel. unfold host_matches in Hmatch.
  apply orb_false_iff in Hmatch as [Ha Hl].
  unfold fetch, try_catch, bind, check, recover. rewrite Hhost, Ha, Hl, Hrel.
  reflexivity.
Qed.

End FetchGate.

(** C1.  On a page served from [oblivai.app], the request
    [//evil.example.com/x] names the host [evil.example.com], which matches
    no entry of the allow-list; the wrapped [fetch] logs it as blocked, then
    logs it as allowed and hands it to the original [fetch]. *)
Theorem fetch_gate_scheme_relative_url_proceeds (Date_now : nat -> Z) :
  let url := "//evil.example.com/x" in
  Url.hostname "oblivai.app" url = Some "evil.example.com"
  /\ NetworkSecurity.host_matches "oblivai.app" "evil.example.com" = false
  /\ NetworkSecurity.fetch "oblivai.app" (Url.hostname "oblivai.app") Date_now
       url None NetworkSecurity.initial =
     (Ok tt,
      NetworkSecurity.mkNet
        [NetworkAudit.mkRequest url (Date_now 0%nat) true
           (Some "Domain not in whitelist") "GET";
         NetworkAudit.mkRequest url (Date_now 1%nat) false
           (Some "Local resource") "GET"]
        2 [url]).
Proof. repeat split. Qed.

(** C4.  On a page served from [oblivai.app], the request
    [https://evil.example.com/x] is rejected with the error "Network request
    blocked", and the audit log receives two blocked entries: one with the
    reason "Domain not in whitelist", one with the reason "Invalid or blocked
    URL". *)
Theorem fetch_gate_blocked_request_logged_twice (Date_now : nat -> Z) :
  let url := "https://evil.example.com/x" in
  NetworkSecurity.fetch "oblivai.app" (Url.hostname "oblivai.app") Date_now
    url None NetworkSecurity.initial =
  (Throw (new_Error "Network request blocked"),
   NetworkSecurity.mkNet
     [NetworkAudit.mkRequest url (Date_now 0%nat) true
        (Some "Domain not in whitelist") "GET";
      NetworkAudit.mkRequest url (Date_now 1%nat) true
        (Some "Invalid or blocked URL") "GET"]
     2 []).
Proof. reflexivity. Qed.

(** ** The storage scrub (C9) *)

Section StorageScrub.
Import Browser SecurityManager.

Variable policy : Policy.

Lemma overwrite_memory_within_quota (n : nat) (size : Z) (st : Storage) :
  crypto_defined policy = true ->
  (size <= ENTROPY_QUOTA)%Z ->
  overwrite_memory policy n size st = (Ok tt, st).
Proof.
  intros Hcrypto Hsize. induction n as [|n IH]; [reflexivity|].
  simpl. unfold ignore, bind, getRandomValues. rewrite Hcrypto.
  destruct (Z.ltb_spec ENTROPY_QUOTA size); [lia|]. simpl. exact IH.
Qed.

Lemma clearUserDataFromIndexedDB_fulfilled (st : Storage) :
  fst (clearUserDataFromIndexedDB policy st) = Ok (Ok tt).
Proof.
  unfold clearUserDataFromIndexedDB, settle.
  match goal with |- context [try_catch ?m ?h st] =>
    pose proof (try_catch_swallow m st) as Hok;
    destruct (try_catch m h st) as [r st'] end.
  simpl in *. by rewrite Hok.
Qed.

Lemma secureMemoryWipe_returns (st : Storage) :
  fst (secureMemoryWipe policy st) = Ok tt.
Proof. apply try_catch_swallow. Qed.

(** C9.  Whatever the browser answers (storage denied, IndexedDB missing
    or failing, the Cache API missing or failing, a quota on random bytes),
    [secureMemoryWipe] and [totalMemoryWipe] end normally, the promise of
    [clearUserDataFromIndexedDB] is fulfilled, and the [beforeunload]
    listener that clears the storage ends normally.  In a browser that
    denies every storage call, [secureMemoryWipe] changes nothing. *)
Theorem storage_scrub_never_throws (st : Storage) :
  fst (secureMemoryWipe policy st) = Ok tt
  /\ fst (clearUserDataFromIndexedDB policy st) = Ok (Ok tt)
  /\ fst (on_beforeunload policy st) = Ok tt
  /\ fst (totalMemoryWipe policy st) = Ok tt
  /\ secureMemoryWipe Example.locked_down st = (Ok tt, st).
Proof.
  split; [apply secureMemoryWipe_returns|].
  split; [apply clearUserDataFromIndexedDB_fulfilled|].
  split; [apply try_catch_swallow|].
  split; [|reflexivity].
  unfold totalMemoryWipe, bind.
  pose proof (secureMemoryWipe_returns st) as Hwipe.
  destruct (secureMemoryWipe policy st) as [r st']. simpl in Hwipe. subst r.
  unfold when. destruct (crypto_defined policy) eqn:Hcrypto; [|reflexivity].
  rewrite overwrite_memory_within_quota; [reflexivity|exact Hcrypto|].
  unfold ENTROPY_QUOTA. lia.
Qed.

End StorageScrub.

(** ** Input sanitisation (C10) *)

Section Sanitize.
Import Regex Security.

Lemma all_chars_append (p : ascii -> bool) (s t : string) :
  Js.all_chars p (s +:+ t) = Js.all_chars p s && Js.all_chars p t.
Proof.
  induction s as [|c s IH]; [reflexivity|].
  simpl. rewrite IH. by rewrite andb_assoc.
Qed.

Lemma all_chars_filter (p : ascii -> bool) (s : string) :
  Js.all_chars p (Js.filter_chars p s) = true.
Proof.
  induction s as [|c s IH]; [reflexivity|].
  simpl. destruct (p c) eqn:Hp; [|exact IH]. simpl. by rewrite Hp, IH.
Qed.

Lemma all_chars_replace_from (p : ascii -> bool) (r : regex) (by_ : string)
    (pending : nat) (s : string) :
  Js.all_chars p by_ = true ->
  Js.all_chars p s = true ->
  Js.all_chars p (replace_from r by_ pending s) = true.
Proof.
  intros Hby. revert pending.
  induction s as [|c s IH]; intros pending Hs; [reflexivity|].
  simpl in Hs. apply andb_true_iff in Hs as [Hc Hs].
  simpl. destruct pending as [|k]; [|by apply IH].
  destruct (match_here r (String c s)) as [[|m]|].
  - simpl. by rewrite Hc, IH.
  - rewrite all_chars_append, Hby. by apply IH.
  - simpl. by rewrite Hc, IH.
Qed.

Lemma all_chars_trimStart (p : ascii -> bool) (s : string) :
  Js.all_chars p s = true -> Js.all_chars p (Js.trimStart s) = true.
Proof.
  induction s as [|c s IH]; [done|].
  intros Hs. simpl. destruct (Js.is_space c); [|exact Hs].
  simpl in Hs. apply andb_true_iff in Hs as [_ Hs]. by apply IH.
Qed.

Lemma all_chars_trimEnd (p : ascii -> bool) (s : string) :
  Js.all_chars p s = true -> Js.all_chars p (Js.trimEnd s) = true.
Proof.
  induction s as [|c s IH]; [done|].
  intros Hs. simpl in Hs. apply andb_true_iff in Hs as [Hc Hs].
  specialize (IH Hs). simpl.
  destruct (Js.trimEnd s) as [|d t].
  - destruct (Js.is_space c); [reflexivity|]. simpl. by rewrite Hc.
  - change (p c && Js.all_chars p (String d t) = true). by rewrite Hc, IH.
Qed.

Lemma collapse_space_printable (s : string) :
  Js.all_chars printable s = true ->
  Js.all_chars printable (collapse_space s) = true.
Proof.
  intros Hs. unfold collapse_space, Js.trim, replaceAll.
  apply all_chars_trimEnd, all_chars_trimStart.
  by apply all_chars_replace_from.
Qed.

Context `{DOMPurify}.

Lemma sanitizeInput_too_long (input : string) :
  (10000 < Js.length input)%Z ->
  sanitizeInput input = Throw (new_Error "Input too long").
Proof.
  intros Hlen. unfold sanitizeInput, MAX_INPUT_LENGTH.
  destruct (Z.ltb_spec 10000 (Js.length input)); [reflexivity|lia].
Qed.

Lemma sanitizeInput_printable (input : string) :
  (Js.length input <= 10000)%Z ->
  exists output,
    sanitizeInput input = Ok output /\ Js.all_chars printable output = true.
Proof.
  intros Hlen. unfold sanitizeInput, MAX_INPUT_LENGTH.
  destruct (Z.ltb_spec 10000 (Js.length input)); [lia|].
  eexists. split; [reflexivity|].
  apply collapse_space_printable. apply all_chars_filter.
Qed.

End Sanitize.

(** ** What a computation keeps *)

Section Keeps.
Context {S : Type} (R : S -> S -> Prop) `{!PreOrder R}.

Lemma keeps_ret {A} (a : A) : keeps R (ret a : eff S A).
Proof. intros s. simpl. reflexivity. Qed.

Lemma keeps_throw {A} (e : exn) : keeps R (throw e : eff S A).
Proof. intros s. simpl. reflexivity. Qed.

Lemma keeps_gets {A} (f : S -> A) : keeps R (gets f).
Proof. intros s. simpl. reflexivity. Qed.

Lemma keeps_modify (f : S -> S) : (forall s, R s (f s)) -> keeps R (modify f).
Proof. intros Hf s. apply Hf. Qed.

Lemma keeps_bind {A B} (m : eff S A) (k : A -> eff S B) :
  keeps R m -> (forall a, keeps R (k a)) -> keeps R (bind m k).
Proof.
  intros Hm Hk s. unfold bind. specialize (Hm s).
  destruct (m s) as [[a|e] s']; simpl in *; [|exact Hm].
  etransitivity; [exact Hm|apply Hk].
Qed.

Lemma keeps_try_catch {A} (m : eff S A) (h : exn -> eff S A) :
  keeps R m -> (forall e, keeps R (h e)) -> keeps R (try_catch m h).
Proof.
  intros Hm Hh s. unfold try_catch. specialize (Hm s).
  destruct (m s) as [[a|e] s']; simpl in *; [exact Hm|].
  etransitivity; [exact Hm|apply Hh].
Qed.

Lemma keeps_try_finally {A} (m : eff S A) (fin : eff S unit) :
  keeps R m -> keeps R fin -> keeps R (try_finally m fin).
Proof.
  intros Hm Hfin s. unfold try_finally. specialize (Hm s).
  destruct (m s) as [r s']. specialize (Hfin s').
  destruct (fin s') as [[[]|e] s'']; simpl in *; etransitivity; eauto.
Qed.

Lemma keeps_when (c : bool) (m : eff S unit) : keeps R m -> keeps R (when c m).
Proof. intros Hm. destruct c; [exact Hm|apply keeps_ret]. Qed.

Lemma keeps_forEach {A} (f : A -> eff S unit) (l : list A) :
  (forall a, keeps R (f a)) -> keeps R (forEach f l).
Proof.
  intros Hf. induction l as [|a l IH]; [apply keeps_ret|].
  simpl. apply keeps_bind; [apply Hf|intros _; exact IH].
Qed.

Lemma keeps_settle {A} (m : eff S A) : keeps R m -> keeps R (settle m).
Proof.
  intros Hm s. unfold settle. specialize (Hm s). by destruct (m s).
Qed.

Lemma keeps_then {A B} (p : promise A) (f : A -> eff S B) :
  (forall a, keeps R (f a)) -> keeps R (then_ p f).
Proof.
  intros Hf. destruct p; [apply keeps_settle, Hf|apply keeps_ret].
Qed.

Lemma keeps_catch {A} (p : promise A) (h : exn -> eff S A) :
  (forall e, keeps R (h e)) -> keeps R (catch_ p h).
Proof.
  intros Hh. destruct p; [apply keeps_ret|apply keeps_settle, Hh].
Qed.

Lemma keeps_await {A} (p : promise A) : keeps R (await p : eff S A).
Proof. destruct p; [apply keeps_ret|apply keeps_throw]. Qed.

Lemma keeps_ignore {A} (m : eff S A) : keeps R m -> keeps R (ignore m).
Proof. intros Hm. apply keeps_bind; [exact Hm|intros; apply keeps_ret]. Qed.

End Keeps.

Lemma keeps_zoom {S T A} (R : S -> S -> Prop) (Q : T -> T -> Prop)
    (get : S -> T) (set : T -> S -> S) (m : eff T A) :
  (forall s t, Q (get s) t -> R s (set t s)) ->
  keeps Q m -> keeps R (zoom get set m).
Proof.
  intros Hset Hm s. unfold zoom. specialize (Hm (get s)).
  destruct (m (get s)) as [r t]. simpl in *. by apply Hset.
Qed.

(** Splits a goal [keeps R m] along the structure of [m]. *)
Ltac keeps_step :=
  first
    [ match goal with
      | |- keeps _ (if ?c then _ else _) => destruct c
      | |- keeps _ (match ?x with _ => _ end) => destruct x
      end
    | apply keeps_ret | apply keeps_throw | apply keeps_gets | apply keeps_await
    | apply keeps_bind | apply keeps_try_catch | apply keeps_try_finally
    | apply keeps_when | apply keeps_forEach | apply keeps_settle
    | apply keeps_then | apply keeps_catch | apply keeps_ignore ].

Ltac keeps_auto :=
  repeat (intros; keeps_step; try solve [apply _]); intros.

(** ** The send path (C8, C10) *)

Section SendPath.
Import ChatState ChatInterface.
Context `{DOMPurify}.
Variable Date_now : nat -> Z.

(** C8.  Whatever the text, when no model is selected or no engine is
    held, [handleSendMessage] ends normally and leaves everything as it
    was: the messages, the rest of the store, the service, and the list of
    calls to the inference library, so that no generation is started. *)
Theorem handleSendMessage_without_model_is_noop
    (env : WebLLMService.GenEnv) (content : string) (w : World) :
  selectedModel (chat w) = None \/ Service.engine (service w) = None ->
  handleSendMessage Date_now env content w = (Ok tt, w).
Proof.
  intros Hnone. unfold handleSendMessage, bind, ChatStore.get,
    WebLLMService.isModelLoaded, gets.
  destruct Hnone as [Hmodel|Hengine].
  - by rewrite Hmodel.
  - rewrite Hengine. simpl. by rewrite orb_true_r.
Qed.

Lemma handleSendMessage_too_long (env : WebLLMService.GenEnv) (content : string)
    (w : World) :
  Js.present (selectedModel (chat w)) = true ->
  Js.present (Service.engine (service w)) = true ->
  (10000 < Js.length content)%Z ->
  handleSendMessage Date_now env content w =
  (Throw (new_Error "Input too long"), w).
Proof.
  intros Hmodel Hengine Hlen.
  unfold handleSendMessage, bind, ChatStore.get, WebLLMService.isModelLoaded,
    gets, WebLLMService.lift.
  rewrite Hmodel, Hengine. simpl.
  by rewrite (sanitizeInput_too_long content Hlen).
Qed.

(** C10.  [sanitizeInput] throws on every input of more than 10000
    characters; on every other input it returns a string without any
    control character (U+0000 to U+001F, U+007F to U+009F); and the send
    path, with a model selected and loaded, throws on a text of more than
    10000 characters and appends no message. *)
Theorem sanitizeInput_length_and_control (input : string) :
  ((10000 < Js.length input)%Z ->
     Security.sanitizeInput input = Throw (new_Error "Input too long"))
  /\ ((Js.length input <= 10000)%Z ->
       exists output,
         Security.sanitizeInput input = Ok output
         /\ Js.all_chars Security.printable output = true)
  /\ (forall env w,
        Js.present (selectedModel (chat w)) = true ->
        Js.present (Service.engine (service w)) = true ->
        (10000 < Js.length input)%Z ->
        handleSendMessage Date_now env input w =
        (Throw (new_Error "Input too long"), w)).
Proof.
  split; [apply sanitizeInput_too_long|].
  split; [apply sanitizeInput_printable|].
  intros env w. apply handleSendMessage_too_long.
Qed.

End SendPath.

(** ** The chat store (C2, C7) *)

#[local] Instance unchanged_preorder {S X} (f : S -> X) : PreOrder (unchanged f).
Proof.
  split; [intros s; reflexivity|].
  intros s1 s2 s3 H12 H23. unfold unchanged in *. congruence.
Qed.

#[local] Instance only_theme_written_preorder : PreOrder only_theme_written.
Proof.
  split.
  - intros st. unfold only_theme_written. naive_solver.
  - intros st1 st2 st3 (Hl12 & Hs12 & Hd12 & Hc12) (Hl23 & Hs23 & Hd23 & Hc23).
    repeat split; [|naive_solver..].
    intros k v Hkv. destruct (Hl23 k v Hkv) as [Hkv2|?]; [|by right].
    apply Hl12, Hkv2.
Qed.

#[local] Instance no_leak_preorder : PreOrder no_leak.
Proof.
  split.
  - intros w. split; [reflexivity|done].
  - intros w1 w2 w3 [Hs12 He12] [Hs23 He23]. split; [by etransitivity|auto].
Qed.

Section BrowserCalls.
Import Browser.
Variable policy : Policy.

Lemma localStorage_clear_keeps : keeps only_theme_written (localStorage_clear policy).
Proof.
  intros st. unfold localStorage_clear.
  destruct (localStorage_denied policy); [reflexivity|].
  simpl. repeat split; done.
Qed.

Lemma sessionStorage_clear_keeps : keeps only_theme_written (sessionStorage_clear policy).
Proof.
  intros st. unfold sessionStorage_clear.
  destruct (sessionStorage_denied policy); [reflexivity|].
  simpl. repeat split; try done. by left.
Qed.

Lemma localStorage_setItem_theme_keeps (v : string) :
  theme_value v ->
  keeps only_theme_written (localStorage_setItem policy ChatStore.THEME_KEY v).
Proof.
  intros Hv st. unfold localStorage_setItem.
  destruct (localStorage_denied policy); [reflexivity|].
  simpl. repeat split; try done. intros k v' Hkv.
  simpl in Hkv. rewrite lookup_insert in Hkv. case_decide; simplify_eq; [by right|by left].
Qed.

Lemma databases_in_indexedDB_keeps : keeps only_theme_written (databases_in_indexedDB policy).
Proof.
  intros st. unfold databases_in_indexedDB.
  destruct (indexedDB_defined policy); reflexivity.
Qed.

Lemma indexedDB_databases_keeps : keeps only_theme_written (indexedDB_databases policy).
Proof.
  intros st. unfold indexedDB_databases.
  destruct (databases_rejects policy); reflexivity.
Qed.

Lemma indexedDB_deleteDatabase_keeps (name : string) :
  keeps only_theme_written (indexedDB_deleteDatabase policy name).
Proof.
  intros st. unfold indexedDB_deleteDatabase.
  destruct (deleteDatabase_throws policy name); [reflexivity|].
  simpl. repeat split; try done; [by left|]. intros n Hn. simpl in Hn.
  apply list_elem_of_In, filter_In in Hn as [Hn _]. by apply list_elem_of_In.
Qed.

Lemma caches_keys_call_keeps : keeps only_theme_written (caches_keys_call policy).
Proof.
  intros st. unfold caches_keys_call.
  destruct (caches_keys policy); reflexivity.
Qed.

Lemma caches_delete_keeps (name : string) :
  keeps only_theme_written (caches_delete policy name).
Proof.
  intros st. unfold caches_delete.
  destruct (caches_delete_throws policy name); [reflexivity|].
  simpl. repeat split; try done; [by left|]. intros n Hn. simpl in Hn.
  apply list_elem_of_In, filter_In in Hn as [Hn _]. by apply list_elem_of_In.
Qed.

Lemma getRandomValues_keeps {S} (R : S -> S -> Prop) `{!PreOrder R} (len : Z) :
  keeps R (getRandomValues policy len).
Proof.
  unfold getRandomValues.
  destruct (negb (crypto_defined policy)); [by apply keeps_throw|].
  destruct (ENTROPY_QUOTA <? len)%Z; [apply keeps_throw|apply keeps_ret]; done.
Qed.

End BrowserCalls.

Lemma on_storage_no_leak {A} (m : eff Browser.Storage A) :
  keeps only_theme_written m -> keeps no_leak (on_storage m).
Proof.
  intros Hm. unfold on_storage.
  apply (keeps_zoom no_leak only_theme_written); [|exact Hm].
  intros w st Hst. split; [exact Hst|done].
Qed.

Lemma set_no_leak (f : ChatState.t -> ChatState.t) :
  (forall st, ChatState.storageEnabled (f st) = ChatState.storageEnabled st
              \/ ChatState.storageEnabled (f st) = false) ->
  keeps no_leak (ChatStore.set f).
Proof.
  intros Hf w. split; [reflexivity|].
  simpl. intros Hoff. destruct (Hf (chat w)) as [Heq|Heq]; congruence.
Qed.

Lemma on_storage_same_chat {A} (m : eff Browser.Storage A) :
  keeps (unchanged chat) (on_storage m).
Proof. intros w. unfold on_storage, zoom. by destruct (m (storage w)). Qed.

Section ChatStoreProperties.
Import ChatState ChatStore.

Variable policy : Browser.Policy.
Variable Date_now : nat -> Z.
Variable toISOString : Z -> string.

Lemma new_Date_no_leak : keeps no_leak (new_Date Date_now).
Proof. intros w. split; [reflexivity|done]. Qed.

(** Splits along the structure of an action, down to the calls of the
    browser and the updates of the store. *)
Ltac no_leak_auto :=
  keeps_auto;
  first
    [ apply new_Date_no_leak
    | apply set_no_leak; intros; simpl; auto
    | apply on_storage_no_leak
    | apply getRandomValues_keeps; apply _
    | idtac ];
  try solve [apply _].

Lemma overwrite_from_no_leak (i : nat) (msgs : list ChatMessage.t) :
  keeps no_leak (overwrite_from policy i msgs).
Proof.
  revert i. induction msgs as [|msg msgs IH]; intros i; simpl.
  - apply keeps_ret, _.
  - no_leak_auto. apply IH.
Qed.

Lemma clearAllHistory_no_leak : keeps no_leak (clearAllHistory policy).
Proof.
  unfold clearAllHistory. no_leak_auto.
  - apply overwrite_from_no_leak.
  - apply localStorage_clear_keeps.
  - apply sessionStorage_clear_keeps.
  - apply caches_keys_call_keeps.
  - apply caches_delete_keeps.
  - apply databases_in_indexedDB_keeps.
  - apply indexedDB_databases_keeps.
  - apply indexedDB_deleteDatabase_keeps.
Qed.

Lemma toggleDarkMode_no_leak : keeps no_leak (toggleDarkMode policy).
Proof.
  unfold toggleDarkMode. no_leak_auto.
  apply localStorage_setItem_theme_keeps.
  unfold theme_value. destruct (negb _); auto.
Qed.

(** No entry point of the store lets anything but the theme preference
    reach the storage, nor switches persistence on. *)
Lemma perform_no_leak (a : action) :
  keeps no_leak (perform policy Date_now toISOString a).
Proof.
  destruct a; simpl;
    [ unfold addMessage | unfold clearMessages | apply clearAllHistory_no_leak
    | unfold setSelectedModel | unfold setGenerating | unfold setModelLoadingProgress
    | apply toggleDarkMode_no_leak | unfold setAutoDeleteChats
    | unfold setSystemInstruction | unfold enableStorage | unfold disableStorage
    | unfold exportChat | unfold updateContextTokenCount
    | unfold dismissContextWarning ];
    no_leak_auto.
Qed.

Lemma run_no_leak (actions : list action) (w : World) :
  no_leak w (run policy Date_now toISOString actions w).
Proof.
  revert w. induction actions as [|a actions IH]; intros w; [reflexivity|].
  simpl. etransitivity; [apply perform_no_leak|apply IH].
Qed.

(** C2.  [enableStorage] leaves [storageEnabled] false from any state.  For
    every sequence of calls of the entry points of the store ([addMessage],
    [clearMessages], [clearAllHistory] and all the others), from any state
    and whatever the browser answers, the storage of the browser (local and
    session storage, IndexedDB, caches) holds afterwards nothing that it did
    not hold before, but for the value "dark" or "light" under the key of
    the theme: no message text is written.  From the initial state of the
    store, [storageEnabled] is false after every such sequence. *)
Theorem chat_store_keeps_messages_in_memory
    (actions : list action) (w : World) (dark : bool) (st : Browser.Storage) :
  storageEnabled (chat (snd (enableStorage w))) = false
  /\ only_theme_written (storage w)
       (storage (run policy Date_now toISOString actions w))
  /\ storageEnabled
       (chat (run policy Date_now toISOString actions (initial_world dark st))) = false.
Proof.
  split; [reflexivity|]. split.
  - apply run_no_leak.
  - by apply (run_no_leak actions (initial_world dark st)).
Qed.

End ChatStoreProperties.

Section ClearHistory.
Import ChatState ChatStore.

Variable policy : Browser.Policy.

Lemma clearMessages_clears (w : World) : cleared (chat (snd (clearMessages w))).
Proof. by repeat split. Qed.

Hypothesis crypto_is_defined : Browser.crypto_defined policy = true.

Lemma overwrite_from_within_quota (i : nat) (msgs : list ChatMessage.t) (w : World) :
  Forall within_quota msgs ->
  fst (overwrite_from policy i msgs w) = Ok tt.
Proof.
  intros Hmsgs. revert i w.
  induction Hmsgs as [|msg msgs Hmsg _ IH]; intros i w; [reflexivity|].
  simpl. unfold bind at 1. unfold Browser.getRandomValues.
  rewrite crypto_is_defined. cbn [negb].
  unfold within_quota in Hmsg.
  destruct (Z.ltb_spec Browser.ENTROPY_QUOTA (Js.length (ChatMessage.content msg)));
    [lia|].
  simpl. unfold bind. simpl. apply IH.
Qed.

(** When every message fits the quota of the random generator, which the
    browser has, [clearAllHistory] clears the history, whatever the browser
    answers to the storage calls that follow. *)
Lemma clearAllHistory_clears_within_quota (w : World) :
  Forall within_quota (messages (chat w)) ->
  cleared (chat (snd (clearAllHistory policy w))).
Proof.
  intros Hmsgs. unfold clearAllHistory.
  unfold bind at 1. unfold get, gets.
  pose proof (overwrite_from_within_quota 0 _ w Hmsgs) as Hok.
  unfold bind at 1.
  destruct (overwrite_from policy 0 (messages (chat w)) w) as [r w1].
  simpl in Hok. subst r.
  unfold bind at 1. unfold set at 1, modify.
  match goal with |- cleared (chat (snd (?rest ?w2))) =>
    assert (Hkeep : keeps (unchanged chat) rest);
    [|rewrite (Hkeep w2); by repeat split]
  end.
  keeps_auto; apply on_storage_same_chat.
Qed.

End ClearHistory.

(** C7.  In a browser that denies nothing, after [addMessage] put one
    message of 65537 characters in the store, [clearAllHistory] ends by the
    [QuotaExceededError] of [crypto.getRandomValues] and leaves the store as
    it was: the message is still there, the history is not cleared. *)
Theorem clearAllHistory_over_quota_keeps_messages
    (Date_now : nat -> Z) (dark : bool) (st : Browser.Storage) :
  let long := ChatMessage.mk ChatMessage.user Example.over_quota 0 in
  let w := snd (ChatStore.addMessage Date_now long (initial_world dark st)) in
  ChatStore.clearAllHistory Example.permissive w =
  (Throw (QuotaExceededError "The requested length exceeds 65536 bytes"), w)
  /\ ChatState.messages (chat w) =
     [ChatMessage.mk ChatMessage.user Example.over_quota (Date_now 0%nat)]
  /\ ~ cleared (chat (snd (ChatStore.clearAllHistory Example.permissive w))).
Proof.
  cbv zeta.
  assert (Hthrow :
    ChatStore.clearAllHistory Example.permissive
      (snd (ChatStore.addMessage Date_now
              (ChatMessage.mk ChatMessage.user Example.over_quota 0)
              (initial_world dark st))) =
    (Throw (QuotaExceededError "The requested length exceeds 65536 bytes"),
     snd (ChatStore.addMessage Date_now
            (ChatMessage.mk ChatMessage.user Example.over_quota 0)
            (initial_world dark st)))).
  { unfold ChatStore.clearAllHistory, bind, ChatStore.get, gets.
    cbn [fst snd chat set_chat initial_world ChatStore.addMessage ChatStore.new_Date
         ChatStore.set modify ChatStore.with_messages ChatState.messages
         ChatState.initial app ChatStore.overwrite_from ChatMessage.content
         ChatMessage.role].
    unfold bind, Browser.getRandomValues.
    cbn [Browser.crypto_defined Example.permissive negb].
    replace (Browser.ENTROPY_QUOTA <? Js.length Example.over_quota)%Z
      with true by (vm_compute; reflexivity).
    reflexivity. }
  split; [exact Hthrow|]. split; [reflexivity|].
  rewrite Hthrow. intros (Hempty & _). discriminate Hempty.
Qed.


(** ** Pre- and postconditions *)

Section Hoare.
Context {S : Type}.

Lemma hoare_conseq {A} (P P' : S -> Prop) (Q Q' : result A -> S -> Prop) (m : eff S A) :
  hoare P' m Q' ->
  (forall s, P s -> P' s) ->
  (forall r s, Q' r s -> Q r s) ->
  hoare P m Q.
Proof. intros Hm HP HQ s Hs. apply HQ, Hm, HP, Hs. Qed.

Lemma hoare_ret {A} (P : S -> Prop) (a : A) :
  hoare P (ret a) (fun r s => r = Ok a /\ P s).
Proof. intros s Hs. by split. Qed.

Lemma hoare_bind {A B} (P : S -> Prop) (Q1 : result A -> S -> Prop)
    (Q : result B -> S -> Prop) (m : eff S A) (k : A -> eff S B) :
  hoare P m Q1 ->
  (forall a, hoare (Q1 (Ok a)) (k a) Q) ->
  (forall e s, Q1 (Throw e) s -> Q (Throw e) s) ->
  hoare P (bind m k) Q.
Proof.
  intros Hm Hk Hthrow s Hs. specialize (Hm s Hs). unfold bind.
  destruct (m s) as [[a|e] s']; simpl in *.
  - by apply Hk.
  - by apply Hthrow.
Qed.

Lemma hoare_try_catch {A} (P : S -> Prop) (Q1 Q : result A -> S -> Prop)
    (m : eff S A) (h : exn -> eff S A) :
  hoare P m Q1 ->
  (forall e, hoare (Q1 (Throw e)) (h e) Q) ->
  (forall a s, Q1 (Ok a) s -> Q (Ok a) s) ->
  hoare P (try_catch m h) Q.
Proof.
  intros Hm Hh Hok s Hs. specialize (Hm s Hs). unfold try_catch.
  destruct (m s) as [[a|e] s']; simpl in *.
  - by apply Hok.
  - by apply Hh.
Qed.

(** When [P] withstands [R], a computation that keeps [R] ends in [P]. *)
Lemma hoare_keeps {A} (R : S -> S -> Prop) (P : S -> Prop) (m : eff S A) :
  keeps R m ->
  (forall s s', P s -> R s s' -> P s') ->
  hoare P m (fun _ s => P s).
Proof. intros Hm Hstable s Hs. by apply (Hstable s), Hm. Qed.

End Hoare.

Lemma hoare_try_finally {S A} (P : S -> Prop) (Q1 : result A -> S -> Prop)
    (Q : S -> Prop) (m : eff S A) (fin : eff S unit) :
  hoare P m Q1 ->
  (forall r, hoare (Q1 r) fin (fun _ s => Q s)) ->
  hoare P (try_finally m fin) (fun _ s => Q s).
Proof.
  intros Hm Hfin s Hs. specialize (Hm s Hs). unfold try_finally.
  destruct (m s) as [r s']. simpl in Hm. specialize (Hfin r s' Hm).
  by destruct (fin s') as [[[]|e] s''].
Qed.

(** ** Loading a model (C5) *)

#[local] Instance calm_preorder : PreOrder calm.
Proof.
  split.
  - intros w. split; [done|]. exists []. by rewrite app_nil_r.
  - intros w1 w2 w3 [He12 (evs12 & Ht12 & Hn12)] [He23 (evs23 & Ht23 & Hn23)].
    split; [congruence|]. exists (evs12 ++ evs23).
    rewrite Ht23, Ht12, <- app_assoc. split; [done|]. by apply Forall_app.
Qed.

#[local] Instance extends_preorder : PreOrder extends.
Proof.
  split.
  - intros w. exists []. by rewrite app_nil_r.
  - intros w1 w2 w3 [evs12 Ht12] [evs23 Ht23]. exists (evs12 ++ evs23).
    by rewrite Ht23, Ht12, <- app_assoc.
Qed.

Lemma calm_extends (w w' : World) : calm w w' -> extends w w'.
Proof. intros [_ (evs & Ht & _)]. by exists evs. Qed.

Section Engines.

Lemma fold_step_live_neutral (evs : list event) (live : list nat) :
  Forall is_neutral evs -> fold_left step_live evs live = live.
Proof.
  intros Hevs. revert live.
  induction Hevs as [|ev evs Hev _ IH]; intros live; [done|].
  simpl. rewrite IH. by destruct ev.
Qed.

Lemma max_live_app (live : list nat) (evs1 evs2 : list event) :
  max_live live (evs1 ++ evs2) =
  Nat.max (max_live live evs1) (max_live (fold_left step_live evs1 live) evs2).
Proof.
  revert live. induction evs1 as [|ev evs1 IH]; intros live; simpl.
  - destruct evs2; simpl; lia.
  - rewrite IH. lia.
Qed.

Lemma max_live_neutral (evs : list event) (live : list nat) :
  Forall is_neutral evs -> max_live live evs = length live.
Proof.
  intros Hevs. revert live.
  induction Hevs as [|ev evs Hev _ IH]; intros live; [done|].
  simpl. rewrite IH. destruct ev; simpl in *; try done; lia.
Qed.

Lemma max_live_ge (evs : list event) (live : list nat) :
  length live <= max_live live evs.
Proof. destruct evs; simpl; lia. Qed.

Lemma live_engines_app (evs1 evs2 : list event) :
  live_engines (evs1 ++ evs2) = fold_left step_live evs2 (live_engines evs1).
Proof. unfold live_engines. by rewrite fold_left_app. Qed.

(** [holds] is [holds_since] the start of the page. *)
Lemma holds_since_start (held : option nat) (w : World) :
  holds held w <-> holds_since [] held w.
Proof.
  split.
  - intros (Hengine & Hlive & Hone). split; [done|]. by exists (trace w).
  - intros (Hengine & evs & Htrace & Hlive & Hone). simpl in Htrace. subst evs.
    by repeat split.
Qed.

(** [holds_since] withstands what is [calm]. *)
Lemma holds_since_calm (before : list event) (held : option nat) (w w' : World) :
  holds_since before held w -> calm w w' -> holds_since before held w'.
Proof.
  intros (Hengine & evs0 & Hbefore & Hlive & Hone) [Heq (evs & Htrace & Hneutral)].
  split; [congruence|]. exists (evs0 ++ evs). split.
  - by rewrite Htrace, Hbefore, app_assoc.
  - unfold one_at_a_time in *. split.
    + by rewrite live_engines_app, fold_step_live_neutral.
    + rewrite max_live_app. fold (live_engines evs0).
      rewrite (max_live_neutral evs _ Hneutral), Hlive.
      destruct held; simpl; lia.
Qed.

End Engines.

Section LoadModel.
Import Service WebLLMService.

Lemma assign_calm (f : Service.t -> Service.t) :
  (forall st, engine (f st) = engine st) -> keeps calm (assign f).
Proof.
  intros Hf w. split; [apply Hf|]. exists []. simpl. by rewrite app_nil_r.
Qed.

Lemma emit_calm (ev : event) : is_neutral ev -> keeps calm (emit ev).
Proof.
  intros Hev w. split; [done|]. exists [ev]. split; [done|]. by constructor.
Qed.

Lemma progressCallback_calm (progress : Z) (status : string) :
  keeps calm (progressCallback progress status).
Proof. intros w. split; [done|]. exists []. simpl. by rewrite app_nil_r. Qed.

Lemma call_onProgress_calm (progress : Z) (status : string) :
  keeps calm (call_onProgress (Some progressCallback) progress status).
Proof.
  unfold call_onProgress. keeps_auto;
    [by apply emit_calm|apply progressCallback_calm].
Qed.

(** Splits along the structure of a computation, down to assignments that
    leave the engine alone, neutral events and the progress callback. *)
Ltac calm_auto :=
  keeps_auto;
  first
    [ apply call_onProgress_calm
    | apply progressCallback_calm
    | apply assign_calm; intros; reflexivity
    | apply emit_calm; exact I
    | idtac ].

Lemma initProgressCallback_calm (hasWebGPU mobile : bool) (report : Report) :
  keeps calm (initProgressCallback hasWebGPU mobile (Some progressCallback) report).
Proof. unfold initProgressCallback. calm_auto. Qed.

Lemma engine_reload_calm (env : LoadEnv) (hasWebGPU : bool) (model : string) :
  keeps calm (engine_reload env hasWebGPU (Some progressCallback) model).
Proof.
  unfold engine_reload. calm_auto. apply initProgressCallback_calm.
Qed.

Section Since.

(** The events before the ones that count. *)
Variable before : list event.

(** Creating an engine while none is held: from then on it is the one
    engine loaded, once the service holds it. *)
Lemma create_and_hold_since (throws : option exn) (k : eff World unit) :
  (forall e, hoare (holds_since before (Some e)) k
               (fun _ w => exists held, holds_since before held w)) ->
  hoare (holds_since before None)
    (let! e := new_MLCEngine throws in assign (with_engine (Some e)) ;; k)
    (fun _ w => exists held, holds_since before held w).
Proof.
  intros Hk w (Hengine & evs & Hbefore & Hlive & Hone).
  unfold bind at 1, new_MLCEngine. destruct throws as [err|].
  - simpl. exists None. split; [done|]. by exists evs.
  - unfold bind at 1, assign, modify. cbn [fst snd].
    apply (Hk (engines_created w)).
    split; [done|]. exists (evs ++ [EngineCreated (engines_created w)]). simpl. split.
    + by rewrite Hbefore, app_assoc.
    + unfold one_at_a_time in *. split.
      * by rewrite live_engines_app, Hlive.
      * rewrite max_live_app. fold (live_engines evs). rewrite Hlive. simpl. lia.
Qed.

Lemma hoare_calm_since {A} (held : option nat) (m : eff World A) :
  keeps calm m ->
  hoare (holds_since before held) m (fun _ w => holds_since before held w).
Proof. intros Hm. apply (hoare_keeps calm); [done|]. apply holds_since_calm. Qed.

Lemma hoare_calm_some_since {A} (m : eff World A) :
  keeps calm m ->
  hoare (fun w => exists held, holds_since before held w) m
        (fun _ w => exists held, holds_since before held w).
Proof.
  intros Hm. apply (hoare_keeps calm); [done|].
  intros w w' [held Hheld] Hcalm. exists held. by eapply holds_since_calm.
Qed.

Lemma hoare_calm_then_since {A B} (held : option nat) (m : eff World A)
    (k : A -> eff World B) :
  keeps calm m ->
  (forall a, hoare (holds_since before held) (k a)
               (fun _ w => exists h, holds_since before h w)) ->
  hoare (holds_since before held) (bind m k) (fun _ w => exists h, holds_since before h w).
Proof.
  intros Hm Hk. eapply hoare_bind; [by apply hoare_calm_since|exact Hk|].
  intros e w Hw. by exists held.
Qed.

Lemma hoare_calm_total_then_since {B} (held : option nat) (m : eff World unit)
    (k : unit -> eff World B) (Q : result B -> World -> Prop) :
  keeps calm m ->
  (forall w, fst (m w) = Ok tt) ->
  hoare (holds_since before held) (k tt) Q ->
  hoare (holds_since before held) (bind m k) Q.
Proof.
  intros Hm Hok Hk w Hw. unfold bind.
  pose proof (Hm w) as Hcalm. pose proof (Hok w) as Hr.
  destruct (m w) as [r w']. simpl in Hcalm, Hr. rewrite Hr.
  apply Hk. by eapply holds_since_calm.
Qed.

Lemma call_onProgress_returns (progress : Z) (status : string) (w : World) :
  fst (call_onProgress (Some progressCallback) progress status w) = Ok tt.
Proof. reflexivity. Qed.

(** [load], started when the service holds no engine: of the engines
    created since, at most one is loaded at any time, and at the end the
    service holds the one that is; [isLoading] is false. *)
Lemma load_since (env : LoadEnv) (modelConfig : ModelConfig.t) :
  hoare (holds_since before None) (load env modelConfig (Some progressCallback))
        (fun _ w => isLoading (service w) = false
                    /\ exists held, holds_since before held w).
Proof.
  unfold load.
  do 3 (apply hoare_calm_total_then_since; [calm_auto|done|]).
  apply hoare_calm_total_then_since;
    [apply call_onProgress_calm|apply call_onProgress_returns|].
  cbv zeta.
  apply (hoare_try_finally _ (fun _ w => exists h, holds_since before h w)).
  - eapply hoare_try_catch with (Q1 := fun _ w => exists h, holds_since before h w).
    + do 2 (apply hoare_calm_then_since; [calm_auto|intros _]).
      apply create_and_hold_since. intros e.
      do 6 (apply hoare_calm_then_since;
            [first [apply engine_reload_calm|calm_auto]|intros _]).
      eapply hoare_conseq; [apply hoare_calm_some_since| |]; [calm_auto|..].
      * intros w Hw. by exists (Some e).
      * done.
    + intros error. apply hoare_calm_some_since. calm_auto.
    + done.
  - intros _ w [held Hheld]. split; [done|].
    exists held. eapply holds_since_calm; [exact Hheld|].
    apply (assign_calm (with_isLoading false)). done.
Qed.

End Since.

(** [load], started when no engine is held, ends with at most one engine
    loaded, which the service holds, and with [isLoading] false. *)
Lemma load_settles (env : LoadEnv) (modelConfig : ModelConfig.t) :
  hoare (holds None) (load env modelConfig (Some progressCallback))
        (fun _ w => settled w).
Proof.
  intros w Hw%holds_since_start.
  destruct (load_since [] env modelConfig w Hw) as (Hidle & held & Hheld).
  split; [done|]. exists held. by apply holds_since_start.
Qed.

End LoadModel.

Section SwitchModel.
Import Service WebLLMService.

(** The world after [cleanup] unloaded the engine [e]. *)
Lemma cleanup_unloads (unload_throws : bool) (w : World) (e : nat) :
  engine (service w) = Some e ->
  exists w',
    cleanup unload_throws w = (Ok tt, w')
    /\ engine (service w') = None
    /\ currentModel (service w') = None
    /\ isLoading (service w') = isLoading (service w)
    /\ trace w' = trace w ++ [EngineUnload e].
Proof.
  intros Hengine. unfold cleanup. unfold bind at 1. unfold gets.
  cbn [fst snd]. rewrite Hengine.
  destruct unload_throws; eexists; (split; [reflexivity|]); by repeat split.
Qed.

Lemma holds_after_unload (w w' : World) (e : nat) :
  holds (Some e) w ->
  engine (service w') = None ->
  trace w' = trace w ++ [EngineUnload e] ->
  holds None w'.
Proof.
  intros (_ & Hlive & Hone) Hengine Htrace.
  unfold holds, one_at_a_time in *. rewrite Htrace.
  split; [done|]. split.
  - rewrite live_engines_app, Hlive. simpl. by rewrite Nat.eqb_refl.
  - rewrite max_live_app. fold (live_engines (trace w)). rewrite Hlive.
    simpl. rewrite Nat.eqb_refl. simpl. lia.
Qed.

Lemma initializeModel_idle (env : LoadEnv) (modelConfig : ModelConfig.t)
    (onProgress : option (Z -> string -> eff World unit)) (w : World) :
  isLoading (service w) = false ->
  initializeModel env modelConfig onProgress w =
  (when (Js.present (engine (service w))
         && negb (Js.is_text (currentModel (service w)) (ModelConfig.id modelConfig)))
        (cleanup (unload_throws env)) ;;
   let! this := gets service in
   if Js.present (engine this)
      && Js.is_text (currentModel this) (ModelConfig.id modelConfig)
   then ret tt
   else load env modelConfig onProgress) w.
Proof.
  intros Hidle. unfold initializeModel. unfold bind at 1. unfold gets at 1.
  cbn beta iota. by rewrite Hidle.
Qed.

(** With another model loaded, [initializeModel] is [cleanup] followed by
    [load]. *)
Lemma initializeModel_switch (env : LoadEnv) (modelConfig : ModelConfig.t)
    (onProgress : option (Z -> string -> eff World unit)) (w : World) (e : nat) :
  isLoading (service w) = false ->
  engine (service w) = Some e ->
  Js.is_text (currentModel (service w)) (ModelConfig.id modelConfig) = false ->
  initializeModel env modelConfig onProgress w =
  load env modelConfig onProgress (snd (cleanup (unload_throws env) w)).
Proof.
  intros Hidle Hengine Hother.
  rewrite initializeModel_idle by done. rewrite Hengine, Hother. simpl.
  destruct (cleanup_unloads (unload_throws env) w e Hengine)
    as (w' & Hcleanup & Hnone & _).
  unfold bind at 1. rewrite Hcleanup. unfold bind at 1. unfold gets at 1.
  cbn [fst snd]. by rewrite Hnone.
Qed.

(** With no engine held, [initializeModel] is [load]. *)
Lemma initializeModel_first (env : LoadEnv) (modelConfig : ModelConfig.t)
    (onProgress : option (Z -> string -> eff World unit)) (w : World) :
  isLoading (service w) = false ->
  engine (service w) = None ->
  initializeModel env modelConfig onProgress w = load env modelConfig onProgress w.
Proof.
  intros Hidle Hengine.
  rewrite initializeModel_idle by done. rewrite Hengine. simpl.
  unfold bind at 1. simpl. unfold bind at 1. unfold gets at 1.
  cbn [fst snd]. by rewrite Hengine.
Qed.

(** With the same model loaded, [initializeModel] does nothing. *)
Lemma initializeModel_same (env : LoadEnv) (modelConfig : ModelConfig.t)
    (onProgress : option (Z -> string -> eff World unit)) (w : World) (e : nat) :
  isLoading (service w) = false ->
  engine (service w) = Some e ->
  Js.is_text (currentModel (service w)) (ModelConfig.id modelConfig) = true ->
  initializeModel env modelConfig onProgress w = (Ok tt, w).
Proof.
  intros Hidle Hengine Hsame.
  rewrite initializeModel_idle by done. rewrite Hengine, Hsame. simpl.
  unfold bind at 1. simpl. unfold bind at 1. unfold gets at 1.
  cbn [fst snd]. by rewrite Hengine, Hsame.
Qed.

(** Between two calls, [initializeModel] finds the service settled and
    leaves it settled. *)
Lemma initializeModel_settles (env : LoadEnv) (modelConfig : ModelConfig.t) (w : World) :
  settled w ->
  settled (snd (initializeModel env modelConfig (Some progressCallback) w)).
Proof.
  intros [Hidle [held Hheld]].
  pose proof Hheld as (Hengine & _). destruct held as [e|].
  - destruct (Js.is_text (currentModel (service w)) (ModelConfig.id modelConfig))
      eqn:Hmodel.
    + rewrite (initializeModel_same env modelConfig _ w e) by done.
      split; [done|]. by exists (Some e).
    + rewrite (initializeModel_switch env modelConfig _ w e) by done.
      destruct (cleanup_unloads (unload_throws env) w e Hengine)
        as (w' & Hcleanup & Hnone & _ & _ & Htrace).
      rewrite Hcleanup. cbn [snd]. apply load_settles.
      by apply (holds_after_unload w w' e).
  - rewrite initializeModel_first by done. by apply load_settles.
Qed.

Lemma initial_world_settled (dark : bool) (st : Browser.Storage) :
  settled (initial_world dark st).
Proof.
  split; [done|]. exists None. unfold holds, one_at_a_time. simpl.
  repeat split; lia.
Qed.

Lemma loads_settled (history : list (LoadEnv * ModelConfig.t)) (w : World) :
  settled w -> settled (loads history w).
Proof.
  revert w. induction history as [|[env modelConfig] history IH]; intros w Hw; [done|].
  simpl. apply IH. by apply initializeModel_settles.
Qed.

End SwitchModel.

Section UnloadBeforeLoad.
Import Service WebLLMService.

Lemma assign_extends (f : Service.t -> Service.t) : keeps extends (assign f).
Proof. intros w. exists []. simpl. by rewrite app_nil_r. Qed.

Lemma emit_extends (ev : event) : keeps extends (emit ev).
Proof. intros w. by exists [ev]. Qed.

Lemma progressCallback_extends (progress : Z) (status : string) :
  keeps extends (progressCallback progress status).
Proof. intros w. exists []. simpl. by rewrite app_nil_r. Qed.

Lemma new_MLCEngine_extends (throws : option exn) : keeps extends (new_MLCEngine throws).
Proof.
  intros w. unfold new_MLCEngine. destruct throws; [reflexivity|].
  by exists [EngineCreated (engines_created w)].
Qed.

Ltac extends_auto :=
  keeps_auto;
  first
    [ apply assign_extends | apply emit_extends | apply progressCallback_extends
    | apply new_MLCEngine_extends | idtac ].

(** [load] adds events to the trace and removes none. *)
Lemma load_extends (env : LoadEnv) (modelConfig : ModelConfig.t) :
  keeps extends (load env modelConfig (Some progressCallback)).
Proof.
  unfold load, engine_reload, call_onProgress. extends_auto.
  unfold initProgressCallback, call_onProgress. extends_auto.
Qed.



End UnloadBeforeLoad.

(** ** Cancelling a generation (C6) *)

Section Cancel.
Import Service WebLLMService.

(** [cancelGeneration] leaves the controller field [null]. *)
Lemma cancelGeneration_clears_controller (w : World) :
  abortController (service (snd (cancelGeneration w))) = None.
Proof.
  unfold cancelGeneration, bind, gets. simpl.
  by destruct (abortController (service w)) eqn:Hc.
Qed.

(** With the controller field [null], the next chunk makes the loop throw a
    [TypeError] before it reads the chunk: [onToken] is not called. *)
Lemma for_await_after_cancel_throws
    (onToken : option (string -> eff World unit)) (delta : option string)
    (rest : list incoming) (fullResponse : string) (w : World) :
  abortController (service w) = None ->
  for_await onToken (Chunk delta :: rest) fullResponse w =
  (Throw (TypeError null_signal_message), w).
Proof.
  intros Hnone. simpl. unfold bind, gets. simpl. by rewrite Hnone.
Qed.

(** C6.  A model is loaded and "hello" is sent; the completion delivers the
    chunk "Hel", the stop button is pressed, the chunk "lo" arrives.
    [onToken] was called once, with "Hel", and is not called for "lo"; the
    send path ends normally; the store holds the user message, the assistant
    message with the partial text "Hel", and after it a new assistant message
    with the text of an error, which is the last one. *)
Theorem cancel_then_chunk_appends_error_message
    (Date_now : nat -> Z) (dark : bool) (st : Browser.Storage) :
  let done :=
    ChatInterface.handleSendMessage (H := Example.text_only) Date_now
      Example.stopped_after_first_chunk "hello" (Example.ready dark st) in
  fst done = Ok tt
  /\ Example.tokens (snd done) = ["Hel"]
  /\ Example.transcript (snd done) =
     [(ChatMessage.user, "hello");
      (ChatMessage.assistant, "Hel");
      (ChatMessage.assistant,
       "Error: Failed to generate response: Cannot read properties of null (reading 'signal')")]
  /\ ChatState.isGenerating (chat (snd done)) = false.
Proof. vm_compute. repeat split. Qed.

End Cancel.

(** ** The theorems with hypotheses, applied *)


(** C8 at work: "hello" is sent on a page where no model was chosen. *)
Lemma handleSendMessage_without_model_is_noop_witness :
  let w := initial_world true Example.empty_storage in
  ChatState.selectedModel (chat w) = None
  /\ ChatInterface.handleSendMessage (H := Example.text_only) Z.of_nat
       (WebLLMService.mkGenEnv None [WebLLMService.Chunk (Some "Hi")]) "hello" w =
     (Ok tt, w).
Proof.
  cbv zeta. split; [reflexivity|].
  apply (handleSendMessage_without_model_is_noop (H := Example.text_only)).
  left. reflexivity.
Defined.

(** C10 at work: a text of 10001 characters, and a text with a bell
    character in it. *)
Lemma sanitizeInput_length_and_control_witness :
  let w := Example.ready true Example.empty_storage in
  let bell := String "007" EmptyString in
  (10000 < Js.length Example.too_long)%Z
  /\ Security.sanitizeInput (H := Example.text_only) Example.too_long =
     Throw (new_Error "Input too long")
  /\ ChatInterface.handleSendMessage (H := Example.text_only) Z.of_nat
       (WebLLMService.mkGenEnv None []) Example.too_long w =
     (Throw (new_Error "Input too long"), w)
  /\ (Js.length ("ring" +:+ bell +:+ "ring") <= 10000)%Z
  /\ exists output,
       Security.sanitizeInput (H := Example.text_only) ("ring" +:+ bell +:+ "ring")
       = Ok output
       /\ Js.all_chars Security.printable output = true.
Proof.
  cbv zeta.
  assert (Hlong : (10000 < Js.length Example.too_long)%Z) by (vm_compute; reflexivity).
  assert (Hshort : (Js.length ("ring" +:+ String "007" EmptyString +:+ "ring") <= 10000)%Z)
    by (vm_compute; discriminate).
  destruct (sanitizeInput_length_and_control (H := Example.text_only) Z.of_nat
              Example.too_long) as (Hthrow & _ & Hsend).
  destruct (sanitizeInput_length_and_control (H := Example.text_only) Z.of_nat
              ("ring" +:+ String "007" EmptyString +:+ "ring")) as (_ & Hclean & _).
  split; [exact Hlong|]. split; [exact (Hthrow Hlong)|]. split.
  - apply Hsend; [reflexivity|reflexivity|exact Hlong].
  - split; [exact Hshort|exact (Hclean Hshort)].
Defined.

(** * Further properties of the code *)

(** ** Texts *)

Section Texts.

Lemma append_nil_l (s : string) : "" +:+ s = s.
Proof. reflexivity. Qed.

Lemma append_cons (c : ascii) (s t : string) : String c s +:+ t = String c (s +:+ t).
Proof. reflexivity. Qed.

Lemma append_nil_r (s : string) : s +:+ "" = s.
Proof. induction s as [|c s IH]; [done|]. by rewrite append_cons, IH. Qed.

Lemma append_assoc (s t u : string) : (s +:+ t) +:+ u = s +:+ t +:+ u.
Proof. induction s as [|c s IH]; [done|]. by rewrite !append_cons, IH. Qed.

Lemma concat_cons (x : string) (xs : list string) :
  String.concat "" (x :: xs) = x +:+ String.concat "" xs.
Proof. destruct xs; simpl; [by rewrite append_nil_r|done]. Qed.

Lemma substring_all (s : string) : String.substring 0 (String.length s) s = s.
Proof. induction s as [|c s IH]; simpl; [done|]. by rewrite IH. Qed.

Lemma substring_length_le (s : string) (m : nat) :
  (String.length (String.substring 0 m s) <= m)%nat.
Proof.
  revert m. induction s as [|c s IH]; intros [|m]; simpl; try lia.
  specialize (IH m). lia.
Qed.

Lemma substring_split (s : string) (k : nat) :
  (k <= String.length s)%nat ->
  s = String.substring 0 k s +:+ String.substring k (String.length s - k) s.
Proof.
  revert k. induction s as [|c s IH]; intros k Hk; simpl in *.
  - by destruct k.
  - destruct k as [|k]; simpl.
    + by rewrite append_nil_l, substring_all.
    + rewrite append_cons. f_equal. apply IH. lia.
Qed.

Lemma prefix_app (d post : string) : String.prefix d (d +:+ post) = true.
Proof.
  induction d as [|c d IH]; [by destruct post|].
  rewrite append_cons. simpl. destruct (ascii_dec c c); [exact IH|done].
Qed.

Lemma includes_here (s sub : string) :
  String.prefix sub s = true -> Js.includes s sub = true.
Proof. intros Hprefix. destruct s; cbn [Js.includes]; rewrite Hprefix; done. Qed.

(** A text includes each of its parts. *)
Lemma includes_app (before sub after : string) :
  Js.includes (before +:+ sub +:+ after) sub = true.
Proof.
  induction before as [|c before IH].
  - rewrite append_nil_l. apply includes_here, prefix_app.
  - rewrite append_cons. cbn [Js.includes]. rewrite IH. apply orb_true_r.
Qed.

Lemma includes_self (s : string) : Js.includes s s = true.
Proof.
  apply includes_here. induction s as [|c s IH]; simpl; [done|].
  destruct (ascii_dec c c); [exact IH|done].
Qed.

Lemma includes_empty (s : string) : Js.includes s "" = true.
Proof. apply includes_here. by destruct s. Qed.

Lemma endsWith_split (s suf : string) :
  Js.endsWith s suf = true -> exists before, s = before +:+ suf.
Proof.
  unfold Js.endsWith. intros [Hlen Heq]%andb_true_iff.
  apply Nat.leb_le in Hlen. apply String.eqb_eq in Heq.
  exists (String.substring 0 (String.length s - String.length suf) s).
  rewrite (substring_split s (String.length s - String.length suf)) at 1 by lia.
  f_equal. rewrite <- Heq at 3. f_equal. lia.
Qed.

Lemma all_chars_filter_keeps (p q : ascii -> bool) (s : string) :
  Js.all_chars p s = true -> Js.all_chars p (Js.filter_chars q s) = true.
Proof.
  induction s as [|c s IH]; simpl; [done|].
  intros [Hc Hs]%andb_true_iff. destruct (q c); simpl; rewrite ?Hc; auto.
Qed.

Lemma all_chars_substring (p : ascii -> bool) (s : string) (n m : nat) :
  Js.all_chars p s = true -> Js.all_chars p (String.substring n m s) = true.
Proof.
  revert n m. induction s as [|c s IH]; intros n m; simpl.
  - by destruct n, m.
  - intros [Hc Hs]%andb_true_iff. destruct n, m; simpl; rewrite ?Hc; simpl; auto.
Qed.

Lemma all_chars_and (p q : ascii -> bool) (s : string) :
  Js.all_chars (fun c => p c && q c) s = Js.all_chars p s && Js.all_chars q s.
Proof.
  induction s as [|c s IH]; simpl; [done|]. rewrite IH.
  destruct (p c), (q c), (Js.all_chars p s), (Js.all_chars q s); done.
Qed.

Lemma filter_chars_all (p : ascii -> bool) (s : string) :
  Js.all_chars p s = true -> Js.filter_chars p s = s.
Proof.
  induction s as [|c s IH]; simpl; [done|].
  intros [Hc Hs]%andb_true_iff. rewrite Hc. by rewrite IH.
Qed.

End Texts.

(** ** The rate limiter of [security.ts] *)

Section RateLimit.
Import Security.RateLimiter.

Lemma canProceed_limits (now : Z) (this : t) :
  maxRequests (snd (canProceed now this)) = maxRequests this
  /\ windowMs (snd (canProceed now this)) = windowMs this.
Proof. unfold canProceed. destruct (_ <=? _)%Z; done. Qed.

Lemma run_limits (nows : list Z) (this : t) :
  maxRequests (snd (run nows this)) = maxRequests this
  /\ windowMs (snd (run nows this)) = windowMs this.
Proof.
  revert this. induction nows as [|now rest IH]; intros this; [done|].
  simpl. destruct (canProceed now this) as [answer this'] eqn:E.
  specialize (IH this'). destruct (run rest this') as [answers final].
  simpl in *. pose proof (canProceed_limits now this) as Hstep.
  rewrite E in Hstep. simpl in Hstep.
  destruct IH, Hstep. split; congruence.
Qed.

Lemma run_app (pre post : list Z) (this : t) :
  run (pre ++ post) this =
  (fst (run pre this) ++ fst (run post (snd (run pre this))),
   snd (run post (snd (run pre this)))).
Proof.
  revert this. induction pre as [|now rest IH]; intros this; simpl.
  - by destruct (run post this).
  - destruct (canProceed now this) as [answer this']. rewrite IH.
    destruct (run rest this') as [answers final]. simpl. done.
Qed.

Lemma run_readings (nows : list Z) (this : t) :
  map fst (fst (run nows this)) = nows.
Proof.
  revert this. induction nows as [|now rest IH]; intros this; [done|].
  simpl. destruct (canProceed now this) as [answer this'].
  specialize (IH this'). destruct (run rest this') as [answers final].
  simpl in *. by rewrite IH.
Qed.

(** The limiter never holds more time stamps than it grants requests. *)
Lemma canProceed_bounded (now : Z) (this : t) :
  (Z.of_nat (length (timestamps this)) <= Z.max 0 (maxRequests this))%Z ->
  (Z.of_nat (length (timestamps (snd (canProceed now this))))
   <= Z.max 0 (maxRequests this))%Z.
Proof.
  intros Hlen. unfold canProceed.
  pose proof (filter_length_le (fun t => (now - t <? windowMs this)%Z) (timestamps this)).
  destruct (_ <=? _)%Z eqn:E; simpl.
  - lia.
  - apply Z.leb_gt in E. rewrite length_app. simpl. lia.
Qed.

Lemma run_bounded (nows : list Z) (this : t) :
  (Z.of_nat (length (timestamps this)) <= Z.max 0 (maxRequests this))%Z ->
  (Z.of_nat (length (timestamps (snd (run nows this))))
   <= Z.max 0 (maxRequests this))%Z.
Proof.
  revert this. induction nows as [|now rest IH]; intros this Hlen; [done|].
  simpl. pose proof (canProceed_bounded now this Hlen) as Hstep.
  pose proof (canProceed_limits now this) as [Hmax _].
  destruct (canProceed now this) as [answer this']. simpl in *.
  specialize (IH this'). rewrite Hmax in IH. specialize (IH Hstep).
  by destruct (run rest this').
Qed.

(** A time stamp too old for [n] is too old for every later [now]. *)
Lemma filter_later (W n now : Z) (l : list Z) :
  (n <= now)%Z ->
  List.filter (fun t => (now - t <? W)%Z) (List.filter (fun t => (n - t <? W)%Z) l) =
  List.filter (fun t => (now - t <? W)%Z) l.
Proof.
  intros Hle. induction l as [|t l IH]; [done|]. simpl.
  destruct (n - t <? W)%Z eqn:En; simpl; rewrite IH.
  - done.
  - apply Z.ltb_ge in En.
    destruct (now - t <? W)%Z eqn:Enow; [|done]. apply Z.ltb_lt in Enow. lia.
Qed.

Lemma filter_recent_grant (W now : Z) (answers : list (Z * bool)) :
  length (List.filter (recent_grant W now) answers) =
  length (List.filter (fun t => (now - t <? W)%Z)
                      (map fst (List.filter snd answers))).
Proof.
  induction answers as [|[t ok] answers IH]; [done|].
  unfold recent_grant in *. simpl. destruct ok; simpl; [|done].
  destruct (now - t <? W)%Z; simpl; by rewrite IH.
Qed.

(** Under a clock that does not go back, the time stamps that count at [now]
    are those of the calls granted less than [windowMs] ago. *)
Lemma run_keeps_recent_grants (m W now : Z) (pre : list Z) :
  Forall (fun t => (t <= now)%Z) pre ->
  List.filter (fun t => (now - t <? W)%Z) (timestamps (snd (run pre (create m W)))) =
  List.filter (fun t => (now - t <? W)%Z)
              (map fst (List.filter snd (fst (run pre (create m W))))).
Proof.
  induction pre as [|n pre IH] using rev_ind; intros Hpre; [done|].
  apply Forall_app in Hpre as [Hpre Hn]. apply Forall_cons in Hn as [Hn _].
  specialize (IH Hpre). rewrite run_app. simpl.
  pose proof (run_limits pre (create m W)) as [_ HW]. simpl in HW.
  set (this := snd (run pre (create m W))) in *.
  unfold canProceed. rewrite HW.
  destruct (_ <=? _)%Z; simpl.
  - rewrite filter_later by done. rewrite IH.
    rewrite (List.filter_app snd). simpl. by rewrite app_nil_r.
  - rewrite (List.filter_app snd). simpl. rewrite map_app. simpl.
    rewrite !List.filter_app. rewrite filter_later by done. by rewrite IH.
Qed.

Lemma sorted_before (pre post : list Z) (now : Z) :
  Sorted Z.le (pre ++ now :: post) -> Forall (fun t => (t <= now)%Z) pre.
Proof.
  intros Hsorted. apply Sorted_StronglySorted in Hsorted; [|intros x y z; lia].
  induction pre as [|t pre IH]; [done|].
  simpl in Hsorted. apply StronglySorted_inv in Hsorted as [Hrest Ht].
  constructor; [|by apply IH].
  rewrite Forall_forall in Ht. apply Ht. apply elem_of_app. right. left.
Qed.

(** X1.  Under a clock that does not go back, whenever [canProceed] grants a
    call, fewer than [maxRequests] earlier calls were granted within the
    [windowMs] milliseconds before it: no window of that length holds more
    than [maxRequests] granted calls. *)
Theorem rate_limiter_sliding_window
    (maxRequests windowMs : Z) (nows : list Z)
    (before after : list (Z * bool)) (now : Z) :
  Sorted Z.le nows ->
  fst (run nows (create maxRequests windowMs)) = before ++ (now, true) :: after ->
  (Z.of_nat (length (List.filter (recent_grant windowMs now) before)) < maxRequests)%Z.
Proof.
  intros Hsorted Hrun.
  pose proof (run_readings nows (create maxRequests windowMs)) as Hnows.
  rewrite Hrun, map_app in Hnows. simpl in Hnows.
  set (pre := map fst before) in *. set (post := map fst after) in *.
  subst nows. apply sorted_before in Hsorted.
  rewrite run_app in Hrun. simpl in Hrun.
  pose proof (run_readings pre (create maxRequests windowMs)) as Hpre.
  assert (length (fst (run pre (create maxRequests windowMs))) = length before) as Hlen.
  { rewrite <- (length_map fst), Hpre. unfold pre. by rewrite length_map. }
  apply app_inj_1 in Hrun as [Hbefore Hcall]; [|done].
  pose proof (run_keeps_recent_grants maxRequests windowMs now pre Hsorted) as Hkept.
  pose proof (run_limits pre (create maxRequests windowMs)) as [Hmax HW]. simpl in Hmax, HW.
  rewrite Hbefore in Hkept.
  rewrite filter_recent_grant, <- Hkept.
  set (this := snd (run pre (create maxRequests windowMs))) in *.
  unfold canProceed in Hcall. rewrite Hmax, HW in Hcall.
  destruct (_ <=? _)%Z eqn:E.
  - destruct (run post _). simpl in Hcall. congruence.
  - by apply Z.leb_gt in E.
Qed.

Lemma minimum_elem (t : Z) (rest : list Z) : fold_left Z.min rest t ∈ t :: rest.
Proof.
  revert t. induction rest as [|a rest IH]; intros t; simpl; [left|].
  specialize (IH (Z.min t a)). apply elem_of_cons in IH as [->|IH].
  - destruct (Z.min_spec t a) as [[_ ->]|[_ ->]]; [left|right; left].
  - right. by right.
Qed.

Lemma filter_drops (f : Z -> bool) (x : Z) (l : list Z) :
  x ∈ l -> f x = false -> (length (List.filter f l) < length l)%nat.
Proof.
  intros Hin Hf. induction l as [|a l IH]; [by apply elem_of_nil in Hin|].
  pose proof (filter_length_le f l). simpl.
  apply elem_of_cons in Hin as [<-|Hin].
  - rewrite Hf. lia.
  - specialize (IH Hin). destruct (f a); simpl; lia.
Qed.

(** X2.  A limiter made by [new RateLimiter(maxRequests, windowMs)] with
    [maxRequests] at least 1, after any calls: when [canProceed] refuses,
    [getRemainingTime] is positive, and a call made that much later is
    granted. *)
Theorem rate_limiter_wait_then_granted
    (maxRequests windowMs : Z) (nows : list Z) (now : Z) :
  (1 <= maxRequests)%Z ->
  let this := snd (run nows (create maxRequests windowMs)) in
  fst (canProceed now this) = false ->
  let refused := snd (canProceed now this) in
  (0 < getRemainingTime now refused)%Z
  /\ fst (canProceed (now + getRemainingTime now refused) refused) = true.
Proof.
  intros Hmax this Hrefused refused.
  pose proof (run_bounded nows (create maxRequests windowMs)) as Hbound.
  pose proof (run_limits nows (create maxRequests windowMs)) as [Hm HW].
  simpl in Hbound, Hm, HW. fold this in Hbound, Hm, HW.
  specialize (Hbound ltac:(lia)).
  subst refused. unfold canProceed in *. rewrite Hm, HW in *.
  set (kept := List.filter (fun t => (now - t <? windowMs)%Z) (timestamps this)) in *.
  pose proof (filter_length_le (fun t => (now - t <? windowMs)%Z) (timestamps this)) as Hkept.
  fold kept in Hkept.
  destruct (maxRequests <=? Z.of_nat (length kept))%Z eqn:E; [|done].
  apply Z.leb_le in E. simpl. unfold getRemainingTime. simpl.
  destruct kept as [|t rest] eqn:Ekept; [simpl in E; lia|].
  pose proof (minimum_elem t rest) as Hin.
  set (oldest := fold_left Z.min rest t) in *.
  assert ((now - oldest <? windowMs)%Z = true) as Hrecent.
  { rewrite <- Ekept in Hin. apply list_elem_of_In in Hin. unfold kept in Hin.
    by apply List.filter_In in Hin as [_ Hin]. }
  apply Z.ltb_lt in Hrecent.
  split; [lia|].
  rewrite Z.max_r by lia.
  pose proof (filter_drops
    (fun t0 => (now + (windowMs - (now - oldest)) - t0 <? windowMs)%Z) oldest (t :: rest)
    Hin) as Hdrop.
  destruct (_ <=? _)%Z eqn:E'; [|done].
  apply Z.leb_le in E'.
  assert ((now + (windowMs - (now - oldest)) - oldest <? windowMs)%Z = false) as Hold.
  { apply Z.ltb_ge. lia. }
  specialize (Hdrop Hold). simpl length in *. lia.
Qed.

End RateLimit.

(** ** [secureCompare] and [sanitizeFileName] *)

Section Compare.
Import Security.

(** The accumulator of [secureCompare] stays 0 exactly when the strings
    carry the same code at every index visited. *)
Lemma xor_fold_zero (a b : string) (indices : list nat) (result : Z) :
  fold_left (fun result i => Z.lor result (Z.lxor (Js.charCodeAt a i) (Js.charCodeAt b i)))
            indices result = 0%Z
  <-> result = 0%Z /\ Forall (fun i => Js.charCodeAt a i = Js.charCodeAt b i) indices.
Proof.
  revert result. induction indices as [|i indices IH]; intros result; simpl.
  - split; [intros ->; by split|by intros [-> _]].
  - rewrite IH, Z.lor_eq_0_iff, Forall_cons. split.
    + intros [[-> Hxor] Hrest]. apply Z.lxor_eq in Hxor. done.
    + intros (-> & Heq & Hrest). rewrite Heq, Z.lxor_nilpotent. done.
Qed.

Lemma same_codes_same_text (a b : string) :
  String.length a = String.length b ->
  Forall (fun i => Js.charCodeAt a i = Js.charCodeAt b i) (seq 0 (String.length a)) ->
  a = b.
Proof.
  revert b. induction a as [|x a IH]; intros [|y b] Hlen Hcodes; simpl in *; try done.
  apply Forall_cons in Hcodes as [Hhead Htail].
  change (Z.of_nat (Js.code x) = Z.of_nat (Js.code y)) in Hhead.
  apply Nat2Z.inj in Hhead. unfold Js.code in Hhead.
  assert (x = y) as ->.
  { rewrite <- (ascii_nat_embedding x), <- (ascii_nat_embedding y). by rewrite Hhead. }
  f_equal. apply IH; [lia|].
  rewrite <- seq_shift in Htail. rewrite Forall_map in Htail.
  eapply Forall_impl; [exact Htail|]. intros i Hi. exact Hi.
Qed.

(** X3.  [secureCompare(a, b)] is [true] exactly when [a] and [b] are the
    same string. *)
Theorem secureCompare_true_iff_equal (a b : string) :
  secureCompare a b = true <-> a = b.
Proof.
  unfold secureCompare, Js.length. split.
  - destruct (Z.of_nat _ =? Z.of_nat _)%Z eqn:Hlen; simpl; [|done].
    apply Z.eqb_eq, Nat2Z.inj in Hlen.
    intros Hzero. apply Z.eqb_eq, xor_fold_zero in Hzero as [_ Hcodes].
    by apply same_codes_same_text.
  - intros <-. rewrite Z.eqb_refl. simpl.
    apply Z.eqb_eq, xor_fold_zero. split; [done|].
    apply Forall_forall. done.
Qed.

End Compare.

Section FileName.
Import Regex Security.

(** X4.  The name that [sanitizeFileName] returns holds no slash, no back
    slash and no control character, and has at most 255 characters. *)
Theorem sanitizeFileName_no_separator_no_control (filename : string) :
  let name := sanitizeFileName filename in
  Js.all_chars (fun c => negb (is_separator c) && negb (is_file_control c)) name = true
  /\ (Js.length name <= 255)%Z.
Proof.
  simpl. unfold sanitizeFileName, Js.slice0, Js.length. split.
  - apply all_chars_substring. rewrite all_chars_and. apply andb_true_iff. split.
    + do 2 apply all_chars_filter_keeps.
      apply (all_chars_filter (fun c => negb (is_separator c))).
    + apply (all_chars_filter (fun c => negb (is_file_control c))).
  - pose proof (substring_length_le
      (Js.filter_chars (fun c => negb (is_file_control c))
         (Js.filter_chars (fun c => negb (Js.code c =? 0)%nat)
            (Js.filter_chars (fun c => negb (is_separator c))
               (replaceAll [Lit ".."] "" filename)))) 255).
    lia.
Qed.

Lemma same_letter_dot (c : ascii) : same_letter "." c = true -> c = "."%char.
Proof.
  unfold same_letter. intros E%Ascii.eqb_eq. revert E.
  destruct c as [[] [] [] [] [] [] [] []]; vm_compute; congruence.
Qed.

(** A text without a dot holds no [..]. *)
Lemma replace_dots_none (s : string) :
  Js.all_chars (fun c => negb (Ascii.eqb c ".")) s = true ->
  replace_from [Lit ".."] "" 0 s = s.
Proof.
  induction s as [|c s IH]; simpl; [done|].
  intros [Hc Hs]%andb_true_iff. rewrite (IH Hs).
  destruct (same_letter "." c) eqn:E; [|done].
  apply same_letter_dot in E as ->. done.
Qed.

Lemma plain_parts (s : string) :
  Js.all_chars plain s = true ->
  Js.all_chars (fun c => negb (Ascii.eqb c ".")) s = true
  /\ Js.all_chars (fun c => negb (is_separator c)) s = true
  /\ Js.all_chars (fun c => negb (is_file_control c)) s = true.
Proof.
  unfold plain. rewrite !all_chars_and, !andb_true_iff. tauto.
Qed.

Lemma no_control_no_null (s : string) :
  Js.all_chars (fun c => negb (is_file_control c)) s = true ->
  Js.all_chars (fun c => negb (Js.code c =? 0)%nat) s = true.
Proof.
  induction s as [|c s IH]; simpl; [done|].
  intros [Hc Hs]%andb_true_iff. rewrite (IH Hs), andb_true_r.
  unfold is_file_control, Js.in_range in Hc.
  destruct (Js.code c =? 0)%nat eqn:E; [|done].
  apply Nat.eqb_eq in E. rewrite E in Hc. done.
Qed.

(** X5.  [sanitizeFileName] removes [..] before it removes the separators:
    two dots that a slash keeps apart come out side by side.  For every
    text [rest] of characters that no step removes, the name [./.rest]
    becomes [..rest], cut to 255 characters. *)
Theorem sanitizeFileName_rejoins_dots (rest : string) :
  Js.all_chars plain rest = true ->
  sanitizeFileName ("./." +:+ rest) = Js.slice0 255 (".." +:+ rest).
Proof.
  intros (Hdot & Hsep & Hctl)%plain_parts. unfold sanitizeFileName. f_equal.
  assert (replaceAll [Lit ".."] "" ("./." +:+ rest) = "./." +:+ rest) as ->.
  { unfold replaceAll.
    change (replace_from [Lit ".."] "" 0 ("./." +:+ rest))
      with (String "." (String "/" (replace_from [Lit ".."] "" 0 (String "." rest)))).
    do 2 f_equal.
    assert (prefix_ci ".." (String "." rest) = false) as Hnone.
    { destruct rest as [|c rest]; [done|]. simpl.
      destruct (same_letter "." c) eqn:E; [|done].
      apply same_letter_dot in E as ->. done. }
    change (replace_from [Lit ".."] "" 0 (String "." rest))
      with (match (if prefix_ci ".." (String "." rest)
                   then option_map (Nat.add 2) (match_here [] (Js.skip 2 (String "." rest)))
                   else None) with
            | Some (S m) => "" +:+ replace_from [Lit ".."] "" m rest
            | _ => String "." (replace_from [Lit ".."] "" 0 rest)
            end).
    rewrite Hnone. by rewrite replace_dots_none. }
  change (Js.filter_chars (fun c => negb (is_separator c)) ("./." +:+ rest))
    with (".." +:+ Js.filter_chars (fun c => negb (is_separator c)) rest).
  rewrite (filter_chars_all _ rest Hsep).
  assert (Js.all_chars (fun c => negb (is_file_control c)) (".." +:+ rest) = true) as Hall.
  { exact Hctl. }
  rewrite (filter_chars_all _ _ (no_control_no_null _ Hall)).
  by rewrite (filter_chars_all _ _ Hall).
Qed.

End FileName.

(** ** The fetch gate and [validateOrigin] *)

Section Origin.
Import NetworkSecurity.

Lemma origin_matches_isAllowed (hostname : string) :
  SecurityManager.origin_matches hostname = true -> isAllowed hostname = true.
Proof.
  unfold SecurityManager.origin_matches, isAllowed, Js.some,
    SecurityManager.allowedDomains, allowedDomains.
  intros Hmatches. apply existsb_exists in Hmatches as (domain & Hin & Hmatch).
  apply existsb_exists. exists domain. split.
  - simpl in *. tauto.
  - apply orb_true_iff in Hmatch as [->%String.eqb_eq|[before ->]%endsWith_split].
    + apply includes_self.
    + pose proof (includes_app (before +:+ ".") domain "") as Hinc.
      by rewrite append_nil_r, append_assoc in Hinc.
Qed.

(** X6.  A URL that [validateOrigin] accepts names a host that the fetch
    gate allows: the wrapped [fetch] hands such a request to the original
    [fetch].  [URL_hostname] stands for the host name of the URL, which is
    the same with and without a base since the URL is absolute. *)
Theorem validateOrigin_hosts_pass_the_gate
    (location_hostname : string) (URL_hostname : string -> option string)
    (Date_now : nat -> Z) (url : string) (init_method : option string) (st : Net) :
  SecurityManager.validateOrigin URL_hostname url = true ->
  exists hostname,
    URL_hostname url = Some hostname
    /\ isAllowed hostname = true
    /\ fst (fetch location_hostname URL_hostname Date_now url init_method st) = Ok tt
    /\ issued (snd (fetch location_hostname URL_hostname Date_now url init_method st)) =
       issued st ++ [url].
Proof.
  unfold SecurityManager.validateOrigin.
  destruct (URL_hostname url) as [hostname|] eqn:Hhost; [|done].
  intros Hallowed%origin_matches_isAllowed. exists hostname.
  rewrite (fetch_matching_host_proceeds location_hostname URL_hostname Date_now
             url hostname init_method st Hhost).
  - done.
  - unfold host_matches. by rewrite Hallowed.
Qed.

Lemma logRequest_last (now : Z) (u : string) (allowed : bool) (why : option string)
    (m : string) (requests : NetworkAudit.log) :
  last (NetworkAudit.logRequest now u allowed why m requests) =
  Some (NetworkAudit.mkRequest u now (negb allowed) why m).
Proof.
  unfold NetworkAudit.logRequest. destruct (_ <? _)%nat eqn:E.
  - destruct requests as [|r requests]; [done|]. simpl. apply last_snoc.
  - apply last_snoc.
Qed.

(** X7.  After every call of the wrapped [fetch], on a string, a [URL]
    object or a [Request] object, the newest entry of the audit log holds
    the text that the gate made of the input (the string itself, the
    [href], or [[object Request]] for a [Request] object, whose URL the
    gate never reads) and [init?.method || 'GET'] (not the method of a
    [Request] object); and it tells how the call ended: it is a blocked
    entry exactly when the call threw "Network request blocked", and the
    original [fetch] received the input exactly when it is an allowed
    entry. *)
Theorem fetch_gate_last_entry_is_the_verdict
    (location_hostname : string) (URL_hostname : string -> option string)
    (Date_now : nat -> Z) (input : RequestInfo) (init_method : option string) (st : Net) :
  let out := fetch_input location_hostname URL_hostname Date_now input init_method st in
  exists entry,
    last (requests (snd out)) = Some entry
    /\ NetworkAudit.url entry = input_text input
    /\ NetworkAudit.method entry = method_or_GET init_method
    /\ fst out = (if NetworkAudit.blocked entry
                  then Throw (new_Error "Network request blocked") else Ok tt)
    /\ issued (snd out) =
       (if NetworkAudit.blocked entry then issued st
        else issued st ++ [request_url input]).
Proof.
  simpl. unfold fetch_input, try_catch, bind, check, recover.
  destruct (URL_hostname (input_text input)) as [hostname|];
    [destruct (isAllowed hostname), (isLocalRequest location_hostname hostname)|];
    simpl;
    destruct (Js.startsWith (input_text input) "/" || Js.startsWith (input_text input) "./");
    simpl; rewrite logRequest_last; eexists; (split; [reflexivity|]); simpl; done.
Qed.

(** X29.  The gate reads a [Request] object as the text [[object Request]],
    which [new URL] resolves against the page: on every page where that
    gives the host of the page, a [Request] object passes the gate whatever
    URL and method it holds.  It is logged as a local request under the URL
    [[object Request]], and the original [fetch] requests its URL. *)
Theorem fetch_gate_passes_every_request_object
    (location_hostname : string) (URL_hostname : string -> option string)
    (Date_now : nat -> Z) (url method : string) (init_method : option string) (st : Net) :
  URL_hostname "[object Request]" = Some location_hostname ->
  fetch_input location_hostname URL_hostname Date_now (InputRequest url method)
              init_method st =
  (Ok tt,
   mkNet (NetworkAudit.logRequest (Date_now (reads st)) "[object Request]" true
            (Some "Local request") (method_or_GET init_method) (requests st))
         (S (reads st)) (issued st ++ [url])).
Proof.
  intros Hhost.
  assert (isLocalRequest location_hostname location_hostname = true) as Hlocal.
  { unfold isLocalRequest. by rewrite includes_self. }
  unfold fetch_input, try_catch, bind, check. cbn [input_text request_url].
  rewrite Hhost, Hlocal.
  by destruct (isAllowed location_hostname).
Qed.

(** X8.  The gate looks for an allowed domain anywhere in the host name:
    a host whose name holds an allowed domain between any two texts is
    allowed, and a request to it reaches the original [fetch]. *)
Theorem fetch_gate_accepts_host_containing_allowed_domain
    (location_hostname : string) (URL_hostname : string -> option string)
    (Date_now : nat -> Z) (url before domain after : string)
    (init_method : option string) (st : Net) :
  In domain allowedDomains ->
  URL_hostname url = Some (before +:+ domain +:+ after) ->
  isAllowed (before +:+ domain +:+ after) = true
  /\ fst (fetch location_hostname URL_hostname Date_now url init_method st) = Ok tt
  /\ issued (snd (fetch location_hostname URL_hostname Date_now url init_method st)) =
     issued st ++ [url].
Proof.
  intros Hin Hhost.
  assert (isAllowed (before +:+ domain +:+ after) = true) as Hallowed.
  { apply existsb_exists. exists domain. split; [done|]. apply includes_app. }
  rewrite (fetch_matching_host_proceeds location_hostname URL_hostname Date_now
             url _ init_method st Hhost).
  - done.
  - unfold host_matches. by rewrite Hallowed.
Qed.

(** X9.  A request to the host of the page itself is never blocked: it is
    logged once, as a local request, and handed to the original [fetch]. *)
Theorem fetch_gate_same_origin_proceeds
    (location_hostname : string) (URL_hostname : string -> option string)
    (Date_now : nat -> Z) (url : string) (init_method : option string) (st : Net) :
  URL_hostname url = Some location_hostname ->
  fetch location_hostname URL_hostname Date_now url init_method st =
  (Ok tt,
   mkNet (NetworkAudit.logRequest (Date_now (reads st)) url true (Some "Local request")
            (method_or_GET init_method) (requests st))
         (S (reads st)) (issued st ++ [url])).
Proof.
  intros Hhost.
  assert (isLocalRequest location_hostname location_hostname = true) as Hlocal.
  { unfold isLocalRequest. by rewrite includes_self. }
  rewrite (fetch_matching_host_proceeds location_hostname URL_hostname Date_now
             url _ init_method st Hhost).
  - by rewrite Hlocal.
  - unfold host_matches. rewrite Hlocal. apply orb_true_r.
Qed.

(** X10.  On a page whose [window.location.hostname] is the empty string,
    every host name includes it: the gate takes every URL that names a host
    for a local request and hands it to the original [fetch]. *)
Theorem fetch_gate_open_on_page_without_host
    (URL_hostname : string -> option string) (Date_now : nat -> Z)
    (url hostname : string) (init_method : option string) (st : Net) :
  URL_hostname url = Some hostname ->
  fetch "" URL_hostname Date_now url init_method st =
  (Ok tt,
   mkNet (NetworkAudit.logRequest (Date_now (reads st)) url true (Some "Local request")
            (method_or_GET init_method) (requests st))
         (S (reads st)) (issued st ++ [url])).
Proof.
  intros Hhost.
  assert (isLocalRequest "" hostname = true) as Hlocal.
  { unfold isLocalRequest. by rewrite includes_empty. }
  rewrite (fetch_matching_host_proceeds "" URL_hostname Date_now
             url _ init_method st Hhost).
  - by rewrite Hlocal.
  - unfold host_matches. rewrite Hlocal. apply orb_true_r.
Qed.

End Origin.

(** ** The statistics of the audit log *)

Section Statistics.
Import NetworkAudit.

Variable URL_hostname : string -> option string.

Lemma filter_partition_length {A} (f : A -> bool) (l : list A) :
  length l = (length (List.filter f l) + length (List.filter (fun x => negb (f x)) l))%nat.
Proof.
  induction l as [|x l IH]; simpl; [done|]. destruct (f x); simpl; lia.
Qed.

(** Counting a request to another host leaves the entry of [domain]. *)
Lemma count_up_other (domain other : string) (own : gmap string Count) :
  other <> domain -> count_up other own !! domain = own !! domain.
Proof.
  intros Hne. unfold count_up.
  destruct (own !! other) as [[n|member ones]|];
    [by rewrite lookup_insert_ne..|].
  destruct (inherits other); [destruct (String.eqb other "__proto__")|];
    by rewrite ?lookup_insert_ne.
Qed.

(** One more request to [domain], after [n] of them. *)
Lemma count_up_counted (domain : string) (own : gmap string Count) (n : nat) :
  own !! domain = counted domain n ->
  count_up domain own !! domain = counted domain (S n).
Proof.
  intros Hown. unfold count_up. unfold counted in *.
  destruct (inherits domain) eqn:Hinherits;
    [destruct (String.eqb domain "__proto__") eqn:Hproto|];
    destruct n as [|n]; rewrite Hown, ?Hinherits, ?Hproto, ?lookup_insert_eq; try done.
  f_equal. f_equal. destruct (Z.eqb_spec (Z.of_nat (S n)) 0); lia.
Qed.

(** The entry of [domain] after the [forEach], from a start that holds what
    [n] requests to that host leave. *)
Lemma count_domain_fold (requests : log) (domainCounts : gmap string Count)
    (domain : string) (n : nat) :
  domainCounts !! domain = counted domain n ->
  fold_left (count_domain URL_hostname) requests domainCounts !! domain =
  counted domain (n + length (requests_to URL_hostname domain requests)).
Proof.
  revert domainCounts n.
  induction requests as [|req requests IH]; intros domainCounts n Hstart.
  - simpl. by rewrite Nat.add_0_r.
  - simpl. unfold requests_to. simpl. unfold count_domain at 2.
    destruct (URL_hostname (url req)) as [d|] eqn:Hd.
    + destruct (decide (d = domain)) as [->|Hne].
      * rewrite bool_decide_eq_true_2 by done. simpl.
        rewrite (IH _ (S n)); [f_equal; unfold requests_to; lia|].
        by apply count_up_counted.
      * rewrite bool_decide_eq_false_2 by congruence.
        apply IH. by rewrite count_up_other.
    + rewrite bool_decide_eq_false_2 by congruence. by apply IH.
Qed.

(** X11.  After any calls of [logRequest], the numbers of [getStatistics]
    agree with the log: the total is at most 100, [blocked] and [allowed]
    are the lengths of [getBlockedRequests] and of [getAllowedRequests].
    For a domain that is no property of [Object.prototype], the count is the
    number of entries whose URL names that host, with no entry for a domain
    that has none.  For a host named like a property of [Object.prototype]
    ([constructor], [toString], [valueOf], ...), the entry is never a
    number: [domainCounts] is a plain object, the first request finds the
    inherited property, and [+ 1] makes a text of it that grows by one
    digit with every request; under [__proto__] nothing is stored. *)
Theorem getStatistics_counts_the_log (calls : list call) (domain : string) :
  let requests := run calls empty in
  let stats := getStatistics URL_hostname requests in
  let found := length (requests_to URL_hostname domain requests) in
  (Statistics.total stats <= 100)%Z
  /\ Statistics.blocked stats = Z.of_nat (length (getBlockedRequests requests))
  /\ Statistics.allowed stats = Z.of_nat (length (getAllowedRequests requests))
  /\ (inherits domain = false ->
      Statistics.domains stats !! domain =
      if (found =? 0)%nat then None else Some (Number (Z.of_nat found)))
  /\ (inherits domain = true ->
      Statistics.domains stats !! domain =
      if (found =? 0)%nat || String.eqb domain "__proto__" then None
      else Some (Text domain found)).
Proof.
  cbv zeta. pose proof (run_length_le calls) as Hlen. unfold MAX_ENTRIES in Hlen.
  assert (Statistics.domains (getStatistics URL_hostname (run calls empty)) !! domain =
          counted domain (length (requests_to URL_hostname domain (run calls empty))))
    as Hcounted.
  { unfold getStatistics. cbn [Statistics.domains].
    by rewrite (count_domain_fold _ ∅ domain 0). }
  unfold getStatistics in *.
  cbn [Statistics.total Statistics.blocked Statistics.allowed Statistics.domains] in *.
  split; [lia|]. split; [reflexivity|]. split.
  { unfold getAllowedRequests.
    rewrite (filter_partition_length blocked (run calls empty)) at 1. lia. }
  rewrite Hcounted. unfold counted. split.
  - intros ->. by destruct (length (requests_to _ _ _)).
  - intros ->. destruct (length (requests_to _ _ _)); [done|].
    by destruct (String.eqb domain "__proto__").
Qed.

End Statistics.

(** ** The theme across a reload *)

Section Theme.

(** What the script leaves: the class [dark] unless the saved theme could
    be read and is [light]. *)
Lemma load_reads_saved_theme (policy : Browser.Policy) (st : Browser.Storage)
    (classes : gset string) :
  SetTheme.load policy st classes =
  Ok (if Browser.localStorage_denied policy then true
      else negb (Js.is_text (Browser.localStorage st !! SetTheme.THEME_KEY) "light")).
Proof.
  unfold SetTheme.load, SetTheme.script, SetTheme.getInitialDarkMode, SetTheme.on_storage,
    Browser.localStorage_getItem, SetTheme.classList_add, SetTheme.classList_remove,
    try_catch, bind, zoom, modify, gets, ret, throw.
  assert (forall light : bool,
    bool_decide ("dark" ∈ (if light
                           then ({["light"]} ∪ classes) ∖ {["dark"]}
                           else ({["dark"]} ∪ classes) ∖ {["light"]})) = negb light)
    as Hclass.
  { intros [|].
    - apply bool_decide_eq_false_2.
      intros [_ Hnot]%elem_of_difference. apply Hnot. by apply elem_of_singleton.
    - apply bool_decide_eq_true_2. apply elem_of_difference. split.
      + apply elem_of_union. left. by apply elem_of_singleton.
      + intros Heq%elem_of_singleton. discriminate. }
  destruct (Browser.localStorage_denied policy); cbv beta iota.
  - cbn [Js.is_text negb fst snd SetTheme.classList SetTheme.storage].
    by rewrite (Hclass false).
  - cbn [fst snd SetTheme.classList SetTheme.storage].
    destruct (Js.is_text _ _); cbv beta iota;
      cbn [negb fst snd SetTheme.classList SetTheme.storage].
    + by rewrite (Hclass true).
    + by rewrite (Hclass false).
Qed.

Section Unload.
Import Browser SecurityManager.

Variable policy : Policy.

(** The calls of the scrub, but for [localStorage.clear()], leave the local
    storage alone. *)
Lemma sessionStorage_clear_spares_local :
  keeps (unchanged localStorage) (sessionStorage_clear policy).
Proof.
  intros st. unfold sessionStorage_clear.
  by destruct (sessionStorage_denied policy).
Qed.

Lemma databases_in_indexedDB_spares_local :
  keeps (unchanged localStorage) (databases_in_indexedDB policy).
Proof. intros st. unfold databases_in_indexedDB. by destruct (indexedDB_defined policy). Qed.

Lemma indexedDB_databases_spares_local :
  keeps (unchanged localStorage) (indexedDB_databases policy).
Proof. intros st. unfold indexedDB_databases. by destruct (databases_rejects policy). Qed.

Lemma indexedDB_deleteDatabase_spares_local (name : string) :
  keeps (unchanged localStorage) (indexedDB_deleteDatabase policy name).
Proof.
  intros st. unfold indexedDB_deleteDatabase.
  by destruct (deleteDatabase_throws policy name).
Qed.

Lemma caches_keys_call_spares_local :
  keeps (unchanged localStorage) (caches_keys_call policy).
Proof. intros st. unfold caches_keys_call. by destruct (caches_keys policy). Qed.

Lemma caches_delete_spares_local (name : string) :
  keeps (unchanged localStorage) (caches_delete policy name).
Proof.
  intros st. unfold caches_delete. by destruct (caches_delete_throws policy name).
Qed.

(** Splits along the structure of a scrub, down to the calls of the
    browser that leave the local storage alone. *)
Ltac spares_local :=
  keeps_auto;
  first
    [ apply sessionStorage_clear_spares_local
    | apply databases_in_indexedDB_spares_local
    | apply indexedDB_databases_spares_local
    | apply indexedDB_deleteDatabase_spares_local
    | apply caches_keys_call_spares_local
    | apply caches_delete_spares_local
    | apply getRandomValues_keeps; apply _
    | idtac ].

Lemma overwrite_memory_spares_local (n : nat) (size : Z) :
  keeps (unchanged localStorage) (overwrite_memory policy n size).
Proof. induction n as [|n IH]; simpl; spares_local. exact IH. Qed.

Lemma hoare_emptied {A} (m : eff Storage A) :
  keeps (unchanged localStorage) m -> hoare emptied m (fun _ st => emptied st).
Proof.
  intros Hm. apply (hoare_keeps (unchanged localStorage)); [done|].
  unfold emptied, unchanged. congruence.
Qed.

Lemma localStorage_clear_empties :
  localStorage_denied policy = false ->
  hoare (fun _ => True) (localStorage_clear policy) (fun _ st => emptied st).
Proof. intros Hallowed st _. unfold localStorage_clear. by rewrite Hallowed. Qed.

(** The local storage after the [beforeunload] listener, after
    [secureMemoryWipe] and after [totalMemoryWipe], in a browser that lets
    the page use it. *)
Lemma scrubs_empty_localStorage (st : Storage) :
  localStorage_denied policy = false ->
  localStorage (snd (on_beforeunload policy st)) = ∅
  /\ localStorage (snd (secureMemoryWipe policy st)) = ∅
  /\ localStorage (snd (totalMemoryWipe policy st)) = ∅.
Proof.
  intros Hallowed.
  assert (hoare (fun _ => True) (secureMemoryWipe policy) (fun _ st => emptied st))
    as Hwipe.
  { unfold secureMemoryWipe.
    eapply hoare_try_catch with (Q1 := fun _ st => emptied st);
      [|intros e; apply hoare_emptied, keeps_ret, _|done].
    eapply hoare_bind with (Q1 := fun _ st => emptied st); [| |done].
    - eapply hoare_try_catch with (Q1 := fun _ st => emptied st);
        [|intros e; apply hoare_emptied, keeps_ret, _|done].
      eapply hoare_bind with (Q1 := fun _ st => emptied st);
        [by apply localStorage_clear_empties| |done].
      intros _. apply hoare_emptied, sessionStorage_clear_spares_local.
    - intros _. apply hoare_emptied. unfold clearUserDataFromIndexedDB.
      spares_local; try apply overwrite_memory_spares_local. }
  assert (hoare (fun _ => True) (on_beforeunload policy) (fun _ st => emptied st))
    as Hunload.
  { unfold on_beforeunload.
    eapply hoare_try_catch with (Q1 := fun _ st => emptied st);
      [|intros e; apply hoare_emptied, keeps_ret, _|done].
    eapply hoare_bind with (Q1 := fun _ st => emptied st);
      [by apply localStorage_clear_empties| |done].
    intros _. apply hoare_emptied. unfold clearUserDataFromIndexedDB. spares_local. }
  assert (hoare (fun _ => True) (totalMemoryWipe policy) (fun _ st => emptied st))
    as Htotal.
  { unfold totalMemoryWipe.
    eapply hoare_bind with (Q1 := fun _ st => emptied st); [exact Hwipe| |done].
    intros _. apply hoare_emptied. spares_local; try apply overwrite_memory_spares_local. }
  split; [exact (Hunload st I)|]. split; [exact (Hwipe st I)|exact (Htotal st I)].
Qed.

(** X12.  The theme that [toggleDarkMode] saves does not outlive the page.
    In a browser that lets the page use [localStorage], right after the
    toggle the storage holds the theme chosen, and a load of the page from
    that storage would show it; but once the [beforeunload] listener of the
    security manager has run, or [secureMemoryWipe], or [totalMemoryWipe],
    the storage holds no theme: whatever the browser answers, the next load
    of the page is dark, also for a user who chose the light theme. *)
Theorem toggled_theme_is_lost_on_unload (w : World) (classes : gset string) :
  let w' := snd (ChatStore.toggleDarkMode policy w) in
  (localStorage_denied policy = false ->
   SetTheme.load policy (storage w') classes = Ok (ChatState.isDarkMode (chat w')))
  /\ SetTheme.load policy (snd (on_beforeunload policy (storage w'))) classes = Ok true
  /\ SetTheme.load policy (snd (secureMemoryWipe policy (storage w'))) classes = Ok true
  /\ SetTheme.load policy (snd (totalMemoryWipe policy (storage w'))) classes = Ok true.
Proof.
  intros w'. split.
  - intros Hallowed. subst w'. rewrite load_reads_saved_theme, Hallowed.
    unfold ChatStore.toggleDarkMode, ChatStore.get, ChatStore.set, on_storage,
      Browser.localStorage_setItem, try_catch, bind, zoom, modify, gets, ret.
    rewrite Hallowed. simpl. unfold SetTheme.THEME_KEY, ChatStore.THEME_KEY.
    rewrite lookup_insert_eq. by destruct (ChatState.isDarkMode (chat w)).
  - rewrite !load_reads_saved_theme.
    destruct (localStorage_denied policy) eqn:Hdenied; [done|].
    destruct (scrubs_empty_localStorage (storage w') Hdenied) as (-> & -> & ->).
    by rewrite lookup_empty.
Qed.

End Unload.

End Theme.

(** ** The warning of the context *)

#[local] Instance stays_justified_preorder : PreOrder stays_justified.
Proof. split; unfold stays_justified; [intros w; tauto|intros w1 w2 w3; tauto]. Qed.

Section Warning.
Import ChatState ChatStore.

Variable policy : Browser.Policy.
Variable Date_now : nat -> Z.
Variable toISOString : Z -> string.

Lemma same_chat_stays_justified {A} (m : eff World A) :
  keeps (unchanged chat) m -> keeps stays_justified m.
Proof. intros Hm w. unfold stays_justified. by rewrite (Hm w). Qed.

Lemma set_stays_justified (f : ChatState.t -> ChatState.t) :
  (forall st, warning_justified st -> warning_justified (f st)) ->
  keeps stays_justified (set f).
Proof. intros Hf w Hw. exact (Hf (chat w) Hw). Qed.

Ltac justified_auto :=
  keeps_auto;
  first
    [ apply same_chat_stays_justified; first [apply on_storage_same_chat | by intros ?]
    | apply set_stays_justified; unfold warning_justified; simpl; intros;
      first [done | by apply Z.ltb_lt | auto]
    | apply getRandomValues_keeps; apply _
    | idtac ];
  try solve [apply _].

Lemma overwrite_from_stays_justified (i : nat) (msgs : list ChatMessage.t) :
  keeps stays_justified (overwrite_from policy i msgs).
Proof.
  revert i. induction msgs as [|msg msgs IH]; intros i; simpl.
  - apply keeps_ret, _.
  - justified_auto. apply IH.
Qed.

Lemma perform_stays_justified (a : action) :
  keeps stays_justified (perform policy Date_now toISOString a).
Proof.
  destruct a; simpl;
    [ unfold addMessage | unfold clearMessages | unfold clearAllHistory
    | unfold setSelectedModel | unfold setGenerating | unfold setModelLoadingProgress
    | unfold toggleDarkMode | unfold setAutoDeleteChats
    | unfold setSystemInstruction | unfold enableStorage | unfold disableStorage
    | unfold exportChat | unfold updateContextTokenCount
    | unfold dismissContextWarning ];
    justified_auto; try apply overwrite_from_stays_justified.
Qed.

(** X13.  After any sequence of calls of the entry points of the store,
    from its initial state and whatever the browser answers, the warning
    about a long conversation shows only while the stored estimate is above
    2048 tokens. *)
Theorem context_warning_only_above_threshold
    (actions : list action) (dark : bool) (st : Browser.Storage) :
  let w := run policy Date_now toISOString actions (initial_world dark st) in
  showContextWarning (chat w) = true -> (2048 < contextTokenCount (chat w))%Z.
Proof.
  simpl.
  assert (forall w, stays_justified w (run policy Date_now toISOString actions w)) as Hrun.
  { induction actions as [|a rest IH]; intros w; [reflexivity|].
    simpl. etransitivity; [apply perform_stays_justified|apply IH]. }
  apply (Hrun (initial_world dark st)). intros Hshown. done.
Qed.

End Warning.

(** ** The catalogue of models and the selector *)

Section Catalogue.
Import ModelConfig Models.

Lemma le_trans (a b c : Js.number) :
  Js.le a b = true -> (b <= c)%Q -> Js.le a c = true.
Proof.
  unfold Js.le. rewrite !Qle_bool_iff. apply Qle_trans.
Qed.

Lemma le_false_later (a b : Js.number) (n : Js.number) :
  Js.le a n = false -> (a <= b)%Q -> Js.le b n = false.
Proof.
  intros Ha Hab. destruct (Js.le b n) eqn:Hb; [|done].
  unfold Js.le in *. apply Qle_bool_iff in Hb.
  assert (Qle_bool a n = true) as Han by (apply Qle_bool_iff; by apply Qle_trans with b).
  congruence.
Qed.

(** X14.  More memory never takes a model away: a model that
    [isModelCompatible] accepts for a device is accepted for every device of
    the same kind with at least as much memory. *)
Theorem more_memory_keeps_models_compatible
    (model : t) (deviceMemory more : Js.number) (isMobile : bool) :
  (deviceMemory <= more)%Q ->
  isModelCompatible model deviceMemory isMobile = true ->
  isModelCompatible model more isMobile = true.
Proof.
  intros Hmore. unfold isModelCompatible, ram_le. destruct isMobile.
  - destruct (Js.le deviceMemory 4%Q) eqn:H4.
    + intros ->. by repeat destruct (Js.le more _).
    + rewrite (le_false_later _ _ _ H4 Hmore).
      destruct (Js.le deviceMemory 8%Q) eqn:H8.
      * intros ->. by destruct (Js.le more 8%Q).
      * by rewrite (le_false_later _ _ _ H8 Hmore).
  - intros Hram. by apply le_trans with deviceMemory.
Qed.

(** X15.  On a phone or a tablet, whatever its memory, [getModelsForDevice]
    lists only models of the catalogue that [isModelCompatible] accepts, and
    each of them is a tiny or a small one: every medium model of the
    catalogue asks for more than the 6 GB that the code allows on mobile. *)
Theorem mobile_devices_get_tiny_and_small_models
    (model : t) (deviceMemory : Js.number) :
  In model (getModelsForDevice deviceMemory true) ->
  In model values
  /\ isModelCompatible model deviceMemory true = true
  /\ (category model = tiny \/ category model = small).
Proof.
  unfold getModelsForDevice. intros [Hin Hcompatible]%List.filter_In.
  split; [exact Hin|]. split; [exact Hcompatible|].
  revert Hcompatible. unfold ram_le.
  destruct (Js.le deviceMemory 4%Q), (Js.le deviceMemory 8%Q);
    unfold values, MODELS in Hin; simpl in Hin;
    repeat (destruct Hin as [<-|Hin]; [vm_compute; intros; first [discriminate|auto]|]);
    done.
Qed.

End Catalogue.

Section Selector.
Import ModelSelector.

(** X16.  A card of the selector that can be clicked shows a model that
    fits: it asks for no more memory than the hardware detection found,
    [isModelCompatible] accepts it, and on the WASM back end its GPU
    requirement is [optional]. *)
Theorem selectable_model_fits_the_device (hardware : HardwareInfo.t) (model : ModelConfig.t) :
  isDisabled (Some hardware) model false = false ->
  (inject_Z (ModelConfig.ram model) <= HardwareInfo.memory hardware)%Q
  /\ Models.isModelCompatible model (HardwareInfo.memory hardware) (isMobile hardware) = true
  /\ (HardwareInfo.backend hardware = HardwareInfo.wasm ->
      ModelConfig.gpu model = ModelConfig.optional).
Proof.
  unfold isDisabled, getModelStatus, Js.lt.
  destruct (Models.isModelCompatible _ _ _); simpl; [|done].
  destruct (Qle_bool _ _) eqn:Hram; simpl; [|done].
  apply Qle_bool_iff in Hram.
  destruct (HardwareInfo.backend hardware), (ModelConfig.gpu model); simpl; try done.
Qed.

End Selector.

(** ** A completion that is not interrupted *)

Section Stream.
Import Service WebLLMService.

Lemma deliver_service (callback : string -> eff World unit) (w : World) (token : string) :
  quiet callback -> service (deliver callback w token) = service w.
Proof.
  intros Hq. unfold deliver.
  by destruct (Hq token (snd (emit (OnToken token) w))) as (_ & -> & _).
Qed.

Lemma deliver_trace (callback : string -> eff World unit) (w : World) (token : string) :
  quiet callback -> trace (deliver callback w token) = trace w ++ [OnToken token].
Proof.
  intros Hq. unfold deliver.
  by destruct (Hq token (snd (emit (OnToken token) w))) as (_ & _ & ->).
Qed.

Lemma delivered_service (callback : string -> eff World unit) (tokens : list string)
    (w : World) :
  quiet callback -> service (fold_left (deliver callback) tokens w) = service w.
Proof.
  intros Hq. revert w. induction tokens as [|token tokens IH]; intros w; [done|].
  simpl. by rewrite IH, deliver_service.
Qed.

Lemma delivered_trace (callback : string -> eff World unit) (tokens : list string)
    (w : World) :
  quiet callback ->
  trace (fold_left (deliver callback) tokens w) = trace w ++ map OnToken tokens.
Proof.
  intros Hq. revert w. induction tokens as [|token tokens IH]; intros w; simpl.
  - by rewrite app_nil_r.
  - rewrite IH, deliver_trace by done. by rewrite <- app_assoc.
Qed.

(** While the controller is there and not aborted, the loop hands every
    text to the callback and appends it to the response. *)
Lemma for_await_chunks (callback : string -> eff World unit)
    (incomings : list incoming) (fullResponse : string) (w : World) :
  Forall is_chunk incomings ->
  quiet callback ->
  abortController (service w) = Some false ->
  for_await (Some callback) incomings fullResponse w =
  (Ok (fullResponse +:+ String.concat "" (delta_texts incomings)),
   fold_left (deliver callback) (delta_texts incomings) w).
Proof.
  intros Hchunks Hq. revert fullResponse w.
  induction Hchunks as [|i incomings Hi _ IH]; intros fullResponse w Hctl.
  - simpl. by rewrite append_nil_r.
  - destruct i as [delta| |]; try done.
    cbn [for_await]. unfold bind at 1, gets at 1. rewrite Hctl.
    destruct delta as [[|c d]|].
    + by rewrite IH.
    + change (delta_texts (Chunk (Some (String c d)) :: incomings))
        with (String c d :: delta_texts incomings).
      rewrite concat_cons. cbn [fold_left].
      unfold bind at 1. unfold call_onToken.
      unfold bind at 1.
      pose proof (Hq (String c d) (snd (emit (OnToken (String c d)) w))) as (Hok & Hsvc & _).
      change (emit (OnToken (String c d)) w)
        with (Ok tt, snd (emit (OnToken (String c d)) w)).
      cbv iota beta.
      destruct (callback (String c d) (snd (emit (OnToken (String c d)) w)))
        as [r w'] eqn:Hcb.
      simpl in Hok, Hsvc. subst r.
      rewrite IH.
      * rewrite append_assoc. unfold deliver. by rewrite Hcb.
      * rewrite Hsvc. exact Hctl.
    + by rewrite IH.
Qed.

Section Reply.
Context `{DOMPurify}.

Lemma generateResponse_chunks
    (env : GenEnv) (messages : list ChatMessage.t) (callback : string -> eff World unit)
    (maxTokens : option Z) (systemInstruction : option string) (w : World)
    (e : nat) (converted : list (string * string)) :
  engine (service w) = Some e ->
  convert messages = Ok converted ->
  create_throws env = None ->
  Forall is_chunk (stream env) ->
  quiet callback ->
  exists instruction,
    generateResponse env messages (Some callback) maxTokens systemInstruction w =
    (Ok (String.concat "" (delta_texts (stream env))),
     set_service (with_abortController None)
       (fold_left (deliver callback) (delta_texts (stream env))
          (requested e (instruction ++ converted)
                     (Z.min (default 1024%Z maxTokens) 1024) w))).
Proof.
  intros Hengine Hconvert Hcreate Hchunks Hquiet. eexists.
  unfold generateResponse, try_finally, try_catch, lift, bind, gets.
  rewrite Hengine, Hconvert, Hcreate.
  cbn [assign modify emit fst snd].
  rewrite for_await_chunks by done.
  rewrite append_nil_l. reflexivity.
Qed.

(** X17.  With an engine held, messages that convert, and a stream that
    delivers all its chunks (no failure, no other task in between),
    [generateResponse] makes one completion request, for at most 1024
    tokens, hands the text of every chunk that has one to the callback in
    the order of arrival, resolves with these texts joined, and leaves no
    abort controller behind; the engine is still held. *)
Theorem generateResponse_streams_every_chunk
    (env : GenEnv) (messages : list ChatMessage.t) (callback : string -> eff World unit)
    (maxTokens : option Z) (systemInstruction : option string) (w : World)
    (e : nat) (converted : list (string * string)) :
  engine (service w) = Some e ->
  convert messages = Ok converted ->
  create_throws env = None ->
  Forall is_chunk (stream env) ->
  quiet callback ->
  let out := generateResponse env messages (Some callback) maxTokens systemInstruction w in
  let texts := delta_texts (stream env) in
  fst out = Ok (String.concat "" texts)
  /\ (exists instruction max_tokens,
        trace (snd out) =
        trace w ++ CompletionCreate e (instruction ++ converted) max_tokens
                :: map OnToken texts
        /\ (max_tokens <= 1024)%Z)
  /\ abortController (service (snd out)) = None
  /\ engine (service (snd out)) = Some e.
Proof.
  intros Hengine Hconvert Hcreate Hchunks Hquiet.
  destruct (generateResponse_chunks env messages callback maxTokens systemInstruction
              w e converted Hengine Hconvert Hcreate Hchunks Hquiet) as [instruction ->].
  cbn zeta. cbn [fst snd]. split; [done|]. split; [|split].
  - exists instruction, (Z.min (default 1024%Z maxTokens) 1024). split; [|lia].
    cbn [trace set_service]. rewrite delivered_trace by done.
    unfold requested. cbn. by rewrite <- app_assoc.
  - done.
  - cbn [service set_service]. rewrite delivered_service by done.
    unfold requested. cbn. done.
Qed.

End Reply.

End Stream.

(** ** The send path, from the question to the answer *)

Section SendReply.
Import ChatState ChatInterface.
Context `{DOMPurify}.
Variable Date_now : nat -> Z.



Lemma convert_sendable (msgs : list ChatMessage.t) :
  Forall sendable msgs -> exists converted, WebLLMService.convert msgs = Ok converted.
Proof.
  induction 1 as [|msg msgs Hmsg _ [converted IH]]; [by eexists|].
  simpl. rewrite IH. unfold sendable in Hmsg.
  destruct (ChatMessage.is_user (ChatMessage.role msg)); [|by eexists].
  destruct (sanitizeInput_printable (ChatMessage.content msg) (Hmsg eq_refl))
    as (text & -> & _).
  by eexists.
Qed.

Lemma onToken_quiet (assistantMessage : ChatMessage.t) : quiet (onToken assistantMessage).
Proof. intros token w. done. Qed.

(** While the tokens arrive, the last message of the store holds the text
    received so far. *)
Lemma delivered_transcript (assistantMessage : ChatMessage.t) (texts : list string)
    (w : World) (base : list (ChatMessage.Role * string)) :
  Example.transcript w =
    base ++ [(ChatMessage.role assistantMessage, assistantContent w)] ->
  Example.transcript (fold_left (deliver (onToken assistantMessage)) texts w) =
    base ++ [(ChatMessage.role assistantMessage,
              assistantContent w +:+ String.concat "" texts)].
Proof.
  revert w. induction texts as [|token texts IH]; intros w Hw.
  - simpl. by rewrite append_nil_r.
  - cbn [fold_left]. rewrite IH.
    + rewrite concat_cons. unfold deliver. simpl. by rewrite append_assoc.
    + unfold deliver, Example.transcript in *. simpl.
      rewrite map_app. simpl. f_equal.
      unfold Js.slice_but_last. rewrite <- firstn_map, Hw.
      assert (length (messages (chat w)) = length base + 1)%nat as ->.
      { rewrite <- (length_map (fun msg => (ChatMessage.role msg, ChatMessage.content msg))), Hw.
        rewrite length_app. done. }
      replace (length base + 1 - 1)%nat with (length base) by lia.
      apply take_app_length.
Qed.

(** X19.  With a model selected and loaded, a text of at most 10000
    characters, a store whose user messages are all short enough to be
    converted, and a completion that delivers all its chunks,
    [handleSendMessage] ends normally and adds two messages to the chat: the
    sanitised text of the user cut to 4000 characters, and the answer of
    the assistant, made of the texts of the chunks in order. *)
Theorem handleSendMessage_appends_question_and_answer
    (env : WebLLMService.GenEnv) (content : string) (w : World)
    (model : ModelConfig.t) (e : nat) :
  selectedModel (chat w) = Some model ->
  Service.engine (service w) = Some e ->
  (Js.length content <= 10000)%Z ->
  Forall sendable (messages (chat w)) ->
  WebLLMService.create_throws env = None ->
  Forall is_chunk (WebLLMService.stream env) ->
  exists sanitized,
    Security.sanitizeInput content = Ok sanitized
    /\ fst (handleSendMessage Date_now env content w) = Ok tt
    /\ Example.transcript (snd (handleSendMessage Date_now env content w)) =
       Example.transcript w ++
       [(ChatMessage.user, Js.slice0 4000 sanitized);
        (ChatMessage.assistant,
         String.concat "" (delta_texts (WebLLMService.stream env)))].
Proof.
  intros Hmodel Hengine Hshort Hsendable Hcreate Hchunks.
  destruct (sanitizeInput_printable content Hshort) as (sanitized & Hsanitized & _).
  exists sanitized. split; [done|].
  set (out := handleSendMessage Date_now env content w).
  assert (out = handleSendMessage Date_now env content w) as Hout by reflexivity.
  clearbody out. unfold handleSendMessage in Hout.
  unfold bind at 1, ChatStore.get at 1, gets at 1 in Hout.
  unfold bind at 1, WebLLMService.isModelLoaded at 1, gets at 1 in Hout.
  rewrite Hmodel, Hengine in Hout. cbn [Js.present negb orb] in Hout.
  unfold bind at 1, WebLLMService.lift at 1 in Hout. rewrite Hsanitized in Hout.
  unfold ChatStore.addMessage, ChatStore.setGenerating, ChatStore.set, ignore in Hout.
  unfold try_finally, try_catch, bind, ChatStore.new_Date, modify, ret in Hout.
  cbv beta iota zeta in Hout.
  match type of Hout with
  | context [WebLLMService.generateResponse ?env' ?msgs (Some ?cb) ?mt ?si ?w3] =>
      assert (exists converted, WebLLMService.convert msgs = Ok converted)
        as [converted Hconv];
        [|destruct (generateResponse_chunks env' msgs cb mt si w3 e converted
                      Hengine Hconv Hcreate Hchunks (onToken_quiet _))
            as [instruction Hgen]]
  end.
  { apply convert_sendable. apply Forall_app. split.
    - unfold Js.slice_last. by apply Forall_drop.
    - constructor; [|done]. intros _. simpl. unfold Js.slice0, Js.length.
      pose proof (substring_length_le sanitized MAX_MESSAGE_LENGTH).
      unfold MAX_MESSAGE_LENGTH in *. unfold Security.MAX_INPUT_LENGTH. lia. }
  rewrite Hgen in Hout. cbv beta iota in Hout.
  rewrite Hout. split; [done|].
  cbn [snd].
  match goal with
  | |- context [fold_left (deliver (onToken ?am)) ?texts ?w3] =>
      pose proof (delivered_transcript am texts w3
                    (Example.transcript w ++
                     [(ChatMessage.user, Js.slice0 4000 sanitized)])) as Hfold
  end.
  etransitivity; [apply Hfold|].
  - unfold Example.transcript, requested. simpl. rewrite !map_app. simpl.
    reflexivity.
  - unfold requested. simpl. by rewrite <- app_assoc.
Qed.

End SendReply.

(** ** How a load ends *)

#[local] Instance same_model_preorder : PreOrder same_model.
Proof.
  split.
  - intros w. by repeat split.
  - intros w1 w2 w3 (H1 & H2 & H3) (H4 & H5 & H6). repeat split; congruence.
Qed.

Section LoadOutcome.
Import Service WebLLMService.

Lemma forEach_returns {S A} (f : A -> eff S unit) (l : list A) (s : S) :
  (forall a s', fst (f a s') = Ok tt) -> fst (forEach f l s) = Ok tt.
Proof.
  intros Hf. revert s. induction l as [|a l IH]; intros s; [done|].
  simpl. unfold bind. specialize (Hf a s). destruct (f a s) as [r s']. simpl in Hf.
  subst r. apply IH.
Qed.

Lemma progressCallback_quiet : quiet_progress progressCallback.
Proof. intros progress status w. by repeat split. Qed.

Lemma initProgressCallback_returns (hasWebGPU mobile : bool)
    (callback : Z -> string -> eff World unit) (report : Report) (w : World) :
  quiet_progress callback ->
  fst (initProgressCallback hasWebGPU mobile (Some callback) report w) = Ok tt
  /\ same_model w (snd (initProgressCallback hasWebGPU mobile (Some callback) report w)).
Proof.
  intros Hquiet. unfold initProgressCallback.
  destruct (percent report) as [progressPercent|]; [|by repeat split].
  unfold call_onProgress, assign, emit, when. unfold bind, gets, modify, ret.
  destruct (elapsed report), (String.eqb (text report) ""); cbn [negb]; cbv beta iota;
    match goal with
    | |- context [callback ?p ?s ?w0] =>
        destruct (Hquiet p s w0) as (Hok & Heng & Hmodel & Hloading);
        destruct (callback p s w0) as [r w1]
    end; simpl in *; subst r; (split; [done|]); repeat split; congruence.
Qed.

(** The answer of [reload] is that of the library; the reports in between
    change neither the engine nor the model. *)
Lemma engine_reload_outcome (env : LoadEnv) (hasWebGPU : bool)
    (callback : Z -> string -> eff World unit) (model : string) (w : World) (e : nat) :
  quiet_progress callback ->
  engine (service w) = Some e ->
  exists w',
    engine_reload env hasWebGPU (Some callback) model w =
      (match reload_throws env with Some err => Throw err | None => Ok tt end, w')
    /\ same_model w w'.
Proof.
  intros Hquiet Hengine. unfold engine_reload. unfold bind at 1, gets at 1. rewrite Hengine.
  unfold bind at 1, emit at 1, modify at 1. unfold bind at 1.
  pose proof (forEach_returns
    (initProgressCallback hasWebGPU (isMobile env) (Some callback)) (reports env)) as Hret.
  pose proof (keeps_forEach same_model
    (initProgressCallback hasWebGPU (isMobile env) (Some callback)) (reports env)) as Hkeeps.
  match goal with
  | |- context [forEach ?f ?l ?w0] =>
      specialize (Hret w0);
      specialize (Hkeeps ltac:(intros a w'; by apply initProgressCallback_returns) w0);
      destruct (forEach f l w0) as [r w1]
  end.
  simpl in Hret, Hkeeps. rewrite Hret; [|intros a w'; by apply initProgressCallback_returns].
  exists w1.
  destruct (reload_throws env); simpl; (split; [done|exact Hkeeps]).
Qed.

Lemma assign_settles (f : Service.t -> Service.t) :
  (forall st, engine (f st) = engine st
              /\ currentModel (f st) = currentModel st
              /\ isLoading (f st) = isLoading st) ->
  settles_calmly (assign f).
Proof. intros Hf w. eexists. split; [reflexivity|]. apply Hf. Qed.

Lemma call_onProgress_settles (progress : Z) (status : string) :
  settles_calmly (call_onProgress (Some progressCallback) progress status).
Proof. intros w. eexists. split; [reflexivity|]. by repeat split. Qed.

(** One statement that settles calmly, then the rest. *)
Lemma settles_step {B} (m : eff World unit) (k : unit -> eff World B) (w : World) :
  settles_calmly m -> exists w', bind m k w = k tt w' /\ same_model w w'.
Proof.
  intros Hm. destruct (Hm w) as (w' & Heq & Hsame). exists w'.
  unfold bind. by rewrite Heq.
Qed.

Ltac settles_auto :=
  first [ apply call_onProgress_settles
        | apply assign_settles; intros; by repeat split ].

Ltac calm_step Hout :=
  match type of Hout with
  | context [bind ?m ?k ?w] =>
      let w' := fresh "w" in
      let Heq := fresh "Heq" in
      let Hs := fresh "Hsame" in
      destruct (settles_step m k w ltac:(settles_auto)) as (w' & Heq & Hs);
      rewrite Heq in Hout; clear Heq; cbv beta in Hout
  end.

(** What [load] leaves, by the answers of the library. *)
Lemma load_outcome (env : LoadEnv) (modelConfig : ModelConfig.t) (w : World) :
  exists w',
    snd (load env modelConfig (Some progressCallback) w) = w'
    /\ isLoading (service w') = false
    /\ match engine_ctor_throws env, reload_throws env with
       | Some _, _ =>
           (exists err, fst (load env modelConfig (Some progressCallback) w) = Throw err)
           /\ engine (service w') = engine (service w)
           /\ currentModel (service w') = currentModel (service w)
       | None, Some _ =>
           (exists err, fst (load env modelConfig (Some progressCallback) w) = Throw err)
           /\ (exists e, engine (service w') = Some e)
           /\ currentModel (service w') = currentModel (service w)
       | None, None =>
           fst (load env modelConfig (Some progressCallback) w) = Ok tt
           /\ (exists e, engine (service w') = Some e)
           /\ currentModel (service w') = Some (ModelConfig.id modelConfig)
       end.
Proof.
  set (out := load env modelConfig (Some progressCallback) w).
  assert (out = load env modelConfig (Some progressCallback) w) as Hout by reflexivity.
  clearbody out. unfold load in Hout.
  unfold bind at 1, assign at 1, modify at 1 in Hout. cbv beta iota in Hout.
  remember (set_service (with_isLoading true) w) as w0 eqn:Hw0.
  assert (engine (service w0) = engine (service w)
          /\ currentModel (service w0) = currentModel (service w)) as [Heng0 Hcur0]
    by (by subst w0).
  clear Hw0.
  do 3 calm_step Hout. cbv zeta in Hout.
  unfold try_finally, try_catch in Hout.
  do 2 calm_step Hout.
  match type of Hout with
  | context [bind (new_MLCEngine _) _ ?w'] => rename w' into before
  end.
  destruct (engine_ctor_throws env) as [err|].
  - unfold bind at 1, new_MLCEngine at 1, throw at 1 in Hout. cbv beta iota in Hout.
    do 2 calm_step Hout. unfold throw at 1 in Hout.
    unfold assign, modify in Hout. cbv beta iota in Hout.
    subst out. eexists. split; [reflexivity|]. split; [reflexivity|]. cbv beta iota.
    split; [eexists; reflexivity|].
    unfold same_model in *. cbn [fst snd service set_service engine currentModel with_isLoading].
    split; intuition congruence.
  - unfold bind at 1, new_MLCEngine at 1 in Hout. cbv beta iota in Hout.
    unfold bind at 1, assign at 1, modify at 1 in Hout. cbv beta iota in Hout.
    match type of Hout with
    | context [bind _ _ ?w'] =>
        remember w' as created eqn:Hcreated;
        assert (engine (service created) = Some (engines_created before)
                /\ currentModel (service created) = currentModel (service before))
          as [Heng6 Hcur6] by (by subst created);
        clear Hcreated
    end.
    do 2 calm_step Hout.
    match type of Hout with
    | context [bind (engine_reload ?env' ?gpu (Some ?cb) ?model) _ ?w7] =>
        destruct (engine_reload_outcome env' gpu cb model w7 (engines_created before)
                    progressCallback_quiet)
          as (w8 & Hreload & Hsame8)
    end.
    { unfold same_model in *. intuition congruence. }
    unfold bind at 1 in Hout. rewrite Hreload in Hout. clear Hreload.
    destruct (reload_throws env) as [err|]; cbv beta iota in Hout.
    + do 2 calm_step Hout. unfold throw at 1 in Hout.
      unfold assign, modify in Hout. cbv beta iota in Hout.
      subst out. eexists. split; [reflexivity|]. split; [reflexivity|]. cbv beta iota.
      split; [eexists; reflexivity|].
      unfold same_model in *.
      cbn [fst snd service set_service engine currentModel with_isLoading].
      split; [exists (engines_created before)|]; intuition congruence.
    + do 3 calm_step Hout.
      unfold assign, modify in Hout. cbv beta iota in Hout.
      subst out. eexists. split; [reflexivity|]. split; [reflexivity|]. cbv beta iota.
      split; [reflexivity|].
      unfold same_model in *.
      cbn [fst snd service set_service engine currentModel with_isLoading with_currentModel].
      split; [exists (engines_created before)|]; intuition congruence.
Qed.

(** X20.  When [initializeModel] resolves, the model asked for is loaded:
    [isModelLoaded()] is [true], [getCurrentModel()] is the id of that model
    and [getLoadingStatus()] is [false]. *)
Theorem initializeModel_resolves_with_the_model_loaded
    (env : LoadEnv) (modelConfig : ModelConfig.t) (w : World) :
  fst (initializeModel env modelConfig (Some progressCallback) w) = Ok tt ->
  let w' := snd (initializeModel env modelConfig (Some progressCallback) w) in
  fst (isModelLoaded w') = Ok true
  /\ fst (getCurrentModel w') = Ok (Some (ModelConfig.id modelConfig))
  /\ fst (getLoadingStatus w') = Ok false.
Proof.
  destruct (isLoading (service w)) eqn:Hidle.
  { unfold initializeModel. unfold bind at 1, gets at 1. by rewrite Hidle. }
  assert (forall w0,
    fst (load env modelConfig (Some progressCallback) w0) = Ok tt ->
    let w' := snd (load env modelConfig (Some progressCallback) w0) in
    fst (isModelLoaded w') = Ok true
    /\ fst (getCurrentModel w') = Ok (Some (ModelConfig.id modelConfig))
    /\ fst (getLoadingStatus w') = Ok false) as Hload.
  { intros w0 Hok. destruct (load_outcome env modelConfig w0) as (w' & -> & Hidle' & Hcase).
    unfold isModelLoaded, getCurrentModel, getLoadingStatus, gets. cbn [fst].
    destruct (engine_ctor_throws env), (reload_throws env).
    1-3: destruct Hcase as ([err Herr] & _); congruence.
    destruct Hcase as (_ & [e0 ->] & ->). by rewrite Hidle'. }
  destruct (engine (service w)) as [e|] eqn:Hengine.
  - destruct (Js.is_text (currentModel (service w)) (ModelConfig.id modelConfig)) eqn:Hsame.
    + rewrite (initializeModel_same env modelConfig _ w e) by done.
      intros _. unfold isModelLoaded, getCurrentModel, getLoadingStatus, gets. cbn.
      rewrite Hengine, Hidle. repeat split.
      destruct (currentModel (service w)) as [current|]; [|done].
      by apply String.eqb_eq in Hsame as ->.
    + rewrite (initializeModel_switch env modelConfig _ w e) by done. apply Hload.
  - rewrite (initializeModel_first env modelConfig _ w) by done. apply Hload.
Qed.

(** X21.  When the engine is created but the download fails,
    [initializeModel] rejects and keeps the engine: afterwards
    [isModelLoaded()] is [true] although [getCurrentModel()] is not the
    model asked for; [getLoadingStatus()] is [false]. *)
Theorem failed_download_leaves_an_engine_without_model
    (env : LoadEnv) (modelConfig : ModelConfig.t) (w : World) (err : exn) :
  isLoading (service w) = false ->
  currentModel (service w) <> Some (ModelConfig.id modelConfig) ->
  engine_ctor_throws env = None ->
  reload_throws env = Some err ->
  let out := initializeModel env modelConfig (Some progressCallback) w in
  (exists e, fst out = Throw e)
  /\ fst (isModelLoaded (snd out)) = Ok true
  /\ (exists current, fst (getCurrentModel (snd out)) = Ok current
                      /\ current <> Some (ModelConfig.id modelConfig))
  /\ fst (getLoadingStatus (snd out)) = Ok false.
Proof.
  intros Hidle Hother Hctor Hreload.
  assert (Js.is_text (currentModel (service w)) (ModelConfig.id modelConfig) = false)
    as Hdiffers.
  { destruct (currentModel (service w)) as [current|]; [|done]. simpl.
    apply String.eqb_neq. congruence. }
  assert (forall w0,
    currentModel (service w0) <> Some (ModelConfig.id modelConfig) ->
    let out := load env modelConfig (Some progressCallback) w0 in
    (exists e, fst out = Throw e)
    /\ fst (isModelLoaded (snd out)) = Ok true
    /\ (exists current, fst (getCurrentModel (snd out)) = Ok current
                        /\ current <> Some (ModelConfig.id modelConfig))
    /\ fst (getLoadingStatus (snd out)) = Ok false) as Hload.
  { intros w0 Hw0. destruct (load_outcome env modelConfig w0) as (w' & Hw' & Hidle' & Hcase).
    rewrite Hctor, Hreload in Hcase. destruct Hcase as (Hthrow & [e0 Heng] & Hmodel).
    cbn zeta. rewrite Hw'.
    unfold isModelLoaded, getCurrentModel, getLoadingStatus, gets. cbn [fst].
    rewrite Heng, Hidle'. split; [done|]. split; [done|]. split; [|done].
    eexists. split; [reflexivity|]. by rewrite Hmodel. }
  destruct (engine (service w)) as [e|] eqn:Hengine.
  - rewrite (initializeModel_switch env modelConfig _ w e) by done. apply Hload.
    destruct (cleanup_unloads (unload_throws env) w e Hengine) as (w' & -> & _ & Hnone & _).
    simpl. by rewrite Hnone.
  - rewrite (initializeModel_first env modelConfig _ w) by done. by apply Hload.
Qed.

End LoadOutcome.

(** ** Disposing of the service *)

Section Dispose.
Import Service WebLLMService.
Context `{DOMPurify}.

(** X22.  In every state of the service, [dispose] ends normally, even
    when [unload] fails: the engine that the service held, if any, gets its
    [unload] call and no other call is made; afterwards the service holds
    no engine, no model is current, no abort controller is left, and a
    later [generateResponse] throws "Model not initialized" without
    touching anything. *)
Theorem dispose_releases_the_engine
    (unload_throws : bool) (w : World)
    (env : GenEnv) (messages : list ChatMessage.t)
    (onToken : option (string -> eff World unit)) (maxTokens : option Z)
    (systemInstruction : option string) :
  let out := dispose unload_throws w in
  fst out = Ok tt
  /\ engine (service (snd out)) = None
  /\ currentModel (service (snd out)) = None
  /\ abortController (service (snd out)) = None
  /\ trace (snd out) =
     trace w ++ match engine (service w) with
                | Some e => [EngineUnload e]
                | None => []
                end
  /\ generateResponse env messages onToken maxTokens systemInstruction (snd out) =
     (Throw (new_Error "Model not initialized"), snd out).
Proof.
  assert (exists w',
    cleanup unload_throws w = (Ok tt, w')
    /\ engine (service w') = None /\ currentModel (service w') = None
    /\ trace w' = trace w ++ match engine (service w) with
                             | Some e => [EngineUnload e]
                             | None => []
                             end) as (w' & Hcleanup & Hnone & Hmodel & Hevents).
  { destruct (engine (service w)) as [e|] eqn:Heng.
    - destruct (cleanup_unloads unload_throws w e Heng)
        as (w' & Hcleanup & Hnone & Hmodel & _ & Htrace).
      by exists w'.
    - eexists. split.
      { unfold cleanup. unfold bind at 1, gets at 1. rewrite Heng. reflexivity. }
      cbn [service set_service trace]. rewrite app_nil_r. by repeat split. }
  assert (exists w'',
    cancelGeneration w' = (Ok tt, w'')
    /\ engine (service w'') = engine (service w')
    /\ currentModel (service w'') = currentModel (service w')
    /\ abortController (service w'') = None
    /\ trace w'' = trace w') as (w'' & Hcancel & Heng & Hcur & Hctl & Htrace).
  { unfold cancelGeneration. unfold bind at 1, gets at 1.
    destruct (abortController (service w')) eqn:Hc; eexists; (split; [reflexivity|]);
      by repeat split. }
  assert (dispose unload_throws w = (Ok tt, w'')) as ->.
  { unfold dispose. unfold bind at 1. by rewrite Hcleanup. }
  cbn [fst snd].
  split; [done|]. split; [congruence|]. split; [congruence|]. split; [done|].
  split; [congruence|].
  unfold generateResponse. unfold bind at 1, gets at 1. by rewrite Heng, Hnone.
Qed.

End Dispose.

(** ** What the storage scrub removes and what it spares *)

Section Purge.
Import Browser SecurityManager.

Lemma purge_filter (doomed : string -> bool) (names remaining : list string) :
  purge doomed names remaining =
  List.filter (fun n => negb (existsb (fun name => doomed name && String.eqb n name) names))
              remaining.
Proof.
  revert remaining. induction names as [|name names IH]; intros remaining; simpl.
  - induction remaining as [|n remaining IHr]; simpl; [done|]. by rewrite <- IHr.
  - unfold purge in *. simpl. rewrite IH. destruct (doomed name); simpl; [|done].
    induction remaining as [|n remaining IHr]; simpl; [done|].
    destruct (String.eqb n name); simpl; [done|].
    destruct (existsb _ names); simpl; by rewrite IHr.
Qed.

(** Deleting from a list the names of that list that are doomed leaves
    the others. *)
Lemma purge_self (doomed : string -> bool) (names : list string) :
  purge doomed names names = List.filter (fun n => negb (doomed n)) names.
Proof.
  rewrite purge_filter. apply filter_ext_in. intros n Hin. f_equal.
  destruct (doomed n) eqn:Hdoomed.
  - apply existsb_exists. exists n. split; [done|].
    by rewrite Hdoomed, String.eqb_refl.
  - apply not_true_iff_false. intros (name & _ & Hname)%existsb_exists.
    apply andb_true_iff in Hname as [Hd ->%String.eqb_eq]. by rewrite Hdoomed in Hd.
Qed.

Variable policy : Policy.

Lemma delete_databases (doomed : string -> bool) (names : list string) (st : Storage) :
  (forall name, deleteDatabase_throws policy name = false) ->
  forEach (fun dbName => when (doomed dbName) (indexedDB_deleteDatabase policy dbName))
          names st =
  (Ok tt, mkStorage (localStorage st) (sessionStorage st)
                    (purge doomed names (databases st)) (cacheNames st)).
Proof.
  intros Hdelete. revert st. induction names as [|name names IH]; intros st.
  - by destruct st.
  - cbn [forEach]. unfold bind at 1, when, indexedDB_deleteDatabase. rewrite Hdelete.
    destruct (doomed name) eqn:Hdoomed; simpl; rewrite IH; unfold purge; simpl;
      by rewrite Hdoomed.
Qed.

Lemma delete_caches (doomed : string -> bool) (names : list string) (st : Storage) :
  (forall name, caches_delete_throws policy name = false) ->
  forEach (fun name => when (doomed name) (caches_delete policy name)) names st =
  (Ok tt, mkStorage (localStorage st) (sessionStorage st) (databases st)
                    (purge doomed names (cacheNames st))).
Proof.
  intros Hdelete. revert st. induction names as [|name names IH]; intros st.
  - by destruct st.
  - cbn [forEach]. unfold bind at 1, when, caches_delete. rewrite Hdelete.
    destruct (doomed name) eqn:Hdoomed; simpl; rewrite IH; unfold purge; simpl;
      by rewrite Hdoomed.
Qed.

(** The storage after [secureMemoryWipe], in a browser that answers every
    storage call. *)
Lemma secureMemoryWipe_answered (st : Storage) :
  answers_all policy ->
  secureMemoryWipe policy st =
  (Ok tt,
   mkStorage ∅ ∅
     (List.filter (fun dbName => Js.some (fun allowed => Js.includes dbName allowed)
                                         allowedDatabases)
                  (databases st))
     (List.filter (fun name => Js.includes name "webllm" || Js.includes name "mlc")
                  (cacheNames st))).
Proof.
  intros (Hlocal & Hsession & _ & Hdefined & Hhas & Hrejects & Hdelete & Hcaches & Hkeys
          & Hcache_delete).
  unfold secureMemoryWipe, clearUserDataFromIndexedDB, databases_in_indexedDB,
    indexedDB_databases, caches_keys_call, localStorage_clear, sessionStorage_clear.
  rewrite Hlocal, Hsession, Hdefined, Hhas, Hrejects, Hcaches, Hkeys.
  unfold try_catch, settle, ignore, when, then_, catch_, await, bind, gets, modify, ret.
  cbv beta iota. cbn [databases cacheNames localStorage sessionStorage].
  rewrite (delete_databases
    (fun dbName => negb (Js.some (fun allowed => Js.includes dbName allowed) allowedDatabases)))
    by done.
  cbv beta iota. cbn [databases cacheNames localStorage sessionStorage].
  unfold settle.
  rewrite (delete_caches
    (fun name => negb (Js.includes name "webllm") && negb (Js.includes name "mlc")))
    by done.
  cbv beta iota. cbn [databases cacheNames localStorage sessionStorage].
  rewrite !purge_self.
  assert (forall l, List.filter (fun n => negb (negb (Js.includes n "webllm")
                                               && negb (Js.includes n "mlc"))) l =
                    List.filter (fun n => Js.includes n "webllm" || Js.includes n "mlc") l)
    as ->.
  { intros l. apply filter_ext. intros n.
    by destruct (Js.includes n "webllm"), (Js.includes n "mlc"). }
  assert (forall l,
    List.filter (fun n => negb (negb (Js.some (fun allowed => Js.includes n allowed)
                                              allowedDatabases))) l =
    List.filter (fun n => Js.some (fun allowed => Js.includes n allowed) allowedDatabases) l)
    as ->.
  { intros l. apply filter_ext. intros n. apply negb_involutive. }
  destruct (crypto_defined policy) eqn:Hcrypto; [|done].
  unfold overwrite_memory, ignore, bind, getRandomValues. rewrite Hcrypto. reflexivity.
Qed.

(** X23.  In a browser that answers every storage call, [secureMemoryWipe]
    empties the local and the session storage, deletes every IndexedDB
    database but those whose name includes a name of the model caches, and
    every cache of the Cache API but those whose name includes [webllm] or
    [mlc]; it ends normally. *)
Theorem secureMemoryWipe_spares_the_model_caches (st : Storage) :
  answers_all policy ->
  secureMemoryWipe policy st =
  (Ok tt,
   mkStorage ∅ ∅
     (List.filter (fun dbName => Js.some (fun allowed => Js.includes dbName allowed)
                                         allowedDatabases)
                  (databases st))
     (List.filter (fun name => Js.includes name "webllm" || Js.includes name "mlc")
                  (cacheNames st))).
Proof. apply secureMemoryWipe_answered. Qed.

End Purge.

(** ** The order of the steps of [sanitizeInput] *)

Section Order.
Import Security.
Context `{DOMPurify}.

(** X24.  [sanitizeInput] looks for the blocked patterns before it removes
    the control characters: a blocked word that a control character splits
    is not found, and comes out whole once the character is removed.  For
    every control character [c], when DOMPurify returns the text
    [java c script:] as it is, [sanitizeInput] returns [javascript:]. *)
Theorem sanitizeInput_joins_text_split_by_control_character (c : ascii) :
  is_control c = true ->
  let input := "java" +:+ String c "script:" in
  sanitize_text input = input ->
  sanitizeInput input = Ok "javascript:".
Proof.
  intros Hc input Hpure. unfold sanitizeInput. rewrite Hpure. subst input. clear Hpure.
  destruct c as [[] [] [] [] [] [] [] []]; try discriminate Hc; vm_compute; reflexivity.
Qed.

End Order.

(** ** Clearing the history: the store and the browser *)

Section ClearAll.
Import Browser ChatState ChatStore.

Variable policy : Policy.

Lemma delete_databases_of_page (doomed : string -> bool) (names : list string) (w : World) :
  (forall name, deleteDatabase_throws policy name = false) ->
  forEach (fun dbName => when (doomed dbName)
                              (on_storage (indexedDB_deleteDatabase policy dbName)))
          names w =
  (Ok tt,
   with_storage (mkStorage (localStorage (storage w)) (sessionStorage (storage w))
                           (purge doomed names (databases (storage w)))
                           (cacheNames (storage w))) w).
Proof.
  intros Hdelete. revert w. induction names as [|name names IH]; intros w.
  - by destruct w as [? [] ? ? ? ? ?].
  - cbn [forEach]. unfold bind at 1, when, on_storage, zoom, indexedDB_deleteDatabase.
    rewrite Hdelete.
    destruct (doomed name) eqn:Hdoomed; simpl; rewrite IH; unfold purge; simpl;
      by rewrite Hdoomed.
Qed.

Lemma delete_caches_of_page (doomed : string -> bool) (names : list string) (w : World) :
  (forall name, caches_delete_throws policy name = false) ->
  forEach (fun name => when (doomed name) (on_storage (caches_delete policy name)))
          names w =
  (Ok tt,
   with_storage (mkStorage (localStorage (storage w)) (sessionStorage (storage w))
                           (databases (storage w))
                           (purge doomed names (cacheNames (storage w)))) w).
Proof.
  intros Hdelete. revert w. induction names as [|name names IH]; intros w.
  - by destruct w as [? [] ? ? ? ? ?].
  - cbn [forEach]. unfold bind at 1, when, on_storage, zoom, caches_delete.
    rewrite Hdelete.
    destruct (doomed name) eqn:Hdoomed; simpl; rewrite IH; unfold purge; simpl;
      by rewrite Hdoomed.
Qed.

Lemma overwrite_from_same_storage (i : nat) (msgs : list ChatMessage.t) :
  keeps (unchanged storage) (overwrite_from policy i msgs).
Proof.
  revert i. induction msgs as [|msg msgs IH]; intros i; simpl.
  - apply keeps_ret, _.
  - keeps_auto; first [apply getRandomValues_keeps; apply _ | by intros ? | apply IH].
Qed.

(** The store and the storage after [clearAllHistory], in a browser that
    answers every storage call. *)
Lemma clearAllHistory_answered (w : World) :
  answers_all policy ->
  crypto_defined policy = true ->
  Forall within_quota (messages (chat w)) ->
  exists w',
    clearAllHistory policy w = (Ok tt, w')
    /\ cleared (chat w') /\ systemInstruction (chat w') = ""
    /\ storage w' =
       mkStorage ∅ ∅
         (List.filter (fun dbName => Js.some (fun p => Js.includes dbName p) preserveDatabases)
                      (databases (storage w)))
         (List.filter keep_cache (cacheNames (storage w))).
Proof.
  intros (Hlocal & Hsession & Hin_window & Hdefined & Hhas & Hrejects & Hdelete & Hcaches
          & Hkeys & Hcache_delete) Hcrypto Hmsgs.
  unfold clearAllHistory.
  unfold bind at 1. unfold get, gets.
  pose proof (overwrite_from_within_quota policy Hcrypto 0 _ w Hmsgs) as Hok.
  pose proof (overwrite_from_same_storage 0 (messages (chat w)) w) as Hsame.
  unfold bind at 1.
  destruct (overwrite_from policy 0 (messages (chat w)) w) as [r w1].
  simpl in Hok, Hsame. subst r. unfold unchanged in Hsame.
  unfold databases_in_indexedDB, indexedDB_databases, caches_keys_call,
    localStorage_clear, sessionStorage_clear.
  rewrite Hlocal, Hsession, Hin_window, Hdefined, Hhas, Hrejects, Hcaches, Hkeys.
  unfold set, on_storage, zoom.
  unfold try_catch, settle, ignore, when, then_, catch_, await, bind, gets, modify, ret.
  cbv beta iota. cbn [storage databases cacheNames localStorage sessionStorage].
  unfold settle.
  rewrite (delete_caches_of_page (fun cacheName => negb (keep_cache cacheName))) by done.
  cbv beta iota. cbn [storage with_storage databases cacheNames localStorage sessionStorage].
  rewrite (delete_databases_of_page
    (fun dbName => negb (Js.some (fun p => Js.includes dbName p) preserveDatabases)))
    by done.
  cbv beta iota. cbn [storage with_storage databases cacheNames localStorage sessionStorage].
  eexists. split; [reflexivity|]. split; [by repeat split|]. split; [done|].
  cbn [storage with_storage set_chat].
  rewrite !purge_self, Hsame. f_equal; apply filter_ext; intros n; apply negb_involutive.
Qed.

(** X25.  In a browser that answers every storage call, with every message
    of the store within the quota of [crypto.getRandomValues],
    [clearAllHistory] ends normally: the history is cleared and the system
    instruction is empty; the local and the session storage are empty; of
    the databases those are left whose name holds a name of the preserve
    list ([webllm], [mlc-wasm-cache], [mlc-chat-config], [tvmjs]), of the
    caches those whose name holds [mlc], [webllm] or [oblivai-static]; and
    since the saved theme went with the local storage, the next load of the
    page is dark. *)
Theorem clearAllHistory_spares_the_model_caches (w : World) (classes : gset string) :
  answers_all policy ->
  crypto_defined policy = true ->
  Forall within_quota (messages (chat w)) ->
  let out := clearAllHistory policy w in
  fst out = Ok tt
  /\ cleared (chat (snd out))
  /\ systemInstruction (chat (snd out)) = ""
  /\ storage (snd out) =
     mkStorage ∅ ∅
       (List.filter (fun dbName => Js.some (fun p => Js.includes dbName p) preserveDatabases)
                    (databases (storage w)))
       (List.filter keep_cache (cacheNames (storage w)))
  /\ SetTheme.load policy (storage (snd out)) classes = Ok true.
Proof.
  intros Hanswers Hcrypto Hmsgs.
  destruct (clearAllHistory_answered w Hanswers Hcrypto Hmsgs)
    as (w' & -> & Hcleared & Hinstruction & Hstorage).
  cbn zeta. cbn [fst snd]. split; [done|]. split; [done|]. split; [done|]. split; [done|].
  rewrite load_reads_saved_theme, Hstorage.
  destruct Hanswers as [-> _]. reflexivity.
Qed.

End ClearAll.

(** ** The two wipes compared *)

Section Wipes.
Import Browser ChatState ChatStore SecurityManager.

Lemma prefix_of_append (a b s : string) :
  String.prefix (a +:+ b) s = true -> String.prefix a s = true.
Proof.
  revert s. induction a as [|c a IH]; intros s; [by destruct s|].
  rewrite append_cons. destruct s as [|c' s]; simpl; [done|].
  destruct (ascii_dec c c'); [apply IH|done].
Qed.

(** A text that includes [a] followed by [b] includes [a]. *)
Lemma includes_of_append (s a b : string) :
  Js.includes s (a +:+ b) = true -> Js.includes s a = true.
Proof.
  induction s as [|c s IH]; cbn [Js.includes]; intros [Hprefix|Hlater]%orb_true_iff.
  - by rewrite (prefix_of_append _ _ _ Hprefix).
  - done.
  - by rewrite (prefix_of_append _ _ _ Hprefix).
  - rewrite (IH Hlater). apply orb_true_r.
Qed.

(** The allow-list of [clearUserDataFromIndexedDB] and the preserve list of
    [clearAllHistory] keep the same databases. *)
Lemma allowed_is_preserved (dbName : string) :
  Js.some (fun allowed => Js.includes dbName allowed) allowedDatabases =
  Js.some (fun p => Js.includes dbName p) preserveDatabases.
Proof.
  unfold Js.some, allowedDatabases, preserveDatabases. cbn [existsb].
  destruct (Js.includes dbName "webllm") eqn:Hwebllm; [done|].
  destruct (Js.includes dbName "webllm-cache") eqn:Hcache; [|done].
  by rewrite (includes_of_append dbName "webllm" "-cache" Hcache) in Hwebllm.
Qed.

Lemma filter_twice {A} (p q : A -> bool) (l : list A) :
  (forall x, p x = true -> q x = true) ->
  List.filter p (List.filter q l) = List.filter p l.
Proof.
  intros Hpq. induction l as [|x l IH]; simpl; [done|].
  destruct (q x) eqn:Hq; simpl.
  - by rewrite IH.
  - destruct (p x) eqn:Hp; [|done]. by rewrite (Hpq x Hp) in Hq.
Qed.

Variable policy : Policy.

(** X28.  The wipe that runs when the page is left and the button that
    clears the history treat the browser alike but for one cache.  In a
    browser that answers every storage call, from the same storage, both
    leave the local and the session storage empty and keep the same
    databases (the entry [webllm-cache] of the allow-list changes nothing,
    since [webllm] is on both lists); [secureMemoryWipe] keeps of the
    caches that [clearAllHistory] keeps those whose name holds [webllm] or
    [mlc]: a cache of the pages of the application, [oblivai-static], is
    deleted by the one and kept by the other. *)
Theorem secureMemoryWipe_also_drops_the_static_cache (w : World) :
  answers_all policy ->
  crypto_defined policy = true ->
  Forall within_quota (messages (chat w)) ->
  let cleared := storage (snd (clearAllHistory policy w)) in
  let wiped := snd (secureMemoryWipe policy (storage w)) in
  localStorage wiped = localStorage cleared
  /\ sessionStorage wiped = sessionStorage cleared
  /\ databases wiped = databases cleared
  /\ cacheNames wiped =
     List.filter (fun name => Js.includes name "webllm" || Js.includes name "mlc")
                 (cacheNames cleared).
Proof.
  intros Hanswers Hcrypto Hmsgs. cbv zeta.
  destruct (clearAllHistory_answered policy w Hanswers Hcrypto Hmsgs)
    as (w' & -> & _ & _ & Hstorage).
  rewrite (secureMemoryWipe_answered policy (storage w) Hanswers).
  cbn [snd]. rewrite Hstorage.
  cbn [localStorage sessionStorage databases cacheNames].
  split; [done|]. split; [done|]. split.
  - apply filter_ext. intros dbName. apply allowed_is_preserved.
  - symmetry. apply filter_twice. intros name Hname. unfold keep_cache.
    destruct (Js.includes name "webllm"), (Js.includes name "mlc"); done.
Qed.

End Wipes.

(** ** A lost GPU device *)

Section GpuLoss.
Import Service WebLLMService.


Context `{DOMPurify}.


End GpuLoss.

Section SendLoss.
Import ChatState ChatInterface.
Context `{DOMPurify}.
Variable Date_now : nat -> Z.



End SendLoss.

(** ** Random identifiers *)

Section Id.
Import SecureId.

Lemma byte_hex (byte : N) :
  (byte < 256)%N ->
  String.length (padStart2 (toString16 byte)) = 2
  /\ Js.all_chars is_lower_hex (padStart2 (toString16 byte)) = true.
Proof.
  intros Hbyte.
  assert (forall n, (n < 256)%nat ->
    String.length (padStart2 (toString16 (N.of_nat n))) = 2
    /\ Js.all_chars is_lower_hex (padStart2 (toString16 (N.of_nat n))) = true) as Hall.
  { intros n Hn. do 256 (destruct n as [|n]; [by vm_compute|]). lia. }
  rewrite <- (N2Nat.id byte). apply Hall. lia.
Qed.

Lemma length_of_append (s t : string) :
  String.length (s +:+ t) = String.length s + String.length t.
Proof. induction s as [|c s IH]; [done|]. rewrite append_cons. simpl. by rewrite IH. Qed.

Lemma all_chars_append' (p : ascii -> bool) (s t : string) :
  Js.all_chars p s = true -> Js.all_chars p t = true -> Js.all_chars p (s +:+ t) = true.
Proof. intros Hs Ht. by rewrite all_chars_append, Hs, Ht. Qed.

Lemma bytes_hex (bytes : list N) :
  Forall (fun byte => (byte < 256)%N) bytes ->
  String.length (String.concat "" (map (fun byte => padStart2 (toString16 byte)) bytes)) =
    2 * List.length bytes
  /\ Js.all_chars is_lower_hex
       (String.concat "" (map (fun byte => padStart2 (toString16 byte)) bytes)) = true.
Proof.
  induction 1 as [|byte bytes Hbyte _ [IHlen IHhex]]; [done|].
  destruct (byte_hex byte Hbyte) as [Hlen Hhex].
  cbn [map]. rewrite concat_cons. split.
  - rewrite length_of_append, Hlen, IHlen. simpl. lia.
  - by apply all_chars_append'.
Qed.

(** X27.  Where [crypto] is defined and fills the array with bytes,
    [generateSecureId(length)] for a length from 0 to 65536 returns a text
    of exactly twice that many characters, each one of [0-9a-f], and
    changes nothing. *)
Theorem generateSecureId_is_hex_of_twice_the_length
    {S} (policy : Browser.Policy) (length : Z) (s : S) :
  Browser.crypto_defined policy = true ->
  (0 <= length <= 65536)%Z ->
  fills_bytes policy length ->
  exists id,
    generateSecureId policy length s = (Ok id, s)
    /\ Js.length id = (2 * length)%Z
    /\ Js.all_chars is_lower_hex id = true.
Proof.
  intros Hcrypto [Hmin Hmax] [Hlength Hbytes].
  unfold generateSecureId, Browser.getRandomValues, bind.
  rewrite Hcrypto. cbn [negb].
  destruct (Z.ltb_spec length 0); [lia|].
  destruct (Z.ltb_spec Browser.ENTROPY_QUOTA length);
    [unfold Browser.ENTROPY_QUOTA in *; lia|].
  eexists. split; [reflexivity|].
  destruct (bytes_hex _ Hbytes) as [Hlen Hhex].
  split; [|exact Hhex]. unfold Js.length. rewrite Hlen. lia.
Qed.

End Id.

(** ** The further theorems with hypotheses, applied *)

(** X1 at work: at most 2 requests in 10 ms; the third call is refused. *)
Lemma rate_limiter_sliding_window_witness :
  Sorted Z.le [0; 1; 2]%Z
  /\ fst (Security.RateLimiter.run [0; 1; 2]%Z (Security.RateLimiter.create 2 10)) =
     [(0%Z, true)] ++ (1%Z, true) :: [(2%Z, false)]
  /\ (Z.of_nat (length (List.filter (Security.RateLimiter.recent_grant 10 1)
                                    [(0%Z, true)])) < 2)%Z.
Proof.
  assert (Sorted Z.le [0; 1; 2]%Z) as Hsorted by (repeat constructor; lia).
  split; [exact Hsorted|]. split; [reflexivity|].
  apply (rate_limiter_sliding_window 2 10 [0; 1; 2]%Z [(0%Z, true)] [(2%Z, false)] 1
           Hsorted).
  reflexivity.
Defined.

(** X2 at work: one request in 10 ms; a call at 5 ms is refused, the wait is
    5 ms, and the call at 10 ms is granted. *)
Lemma rate_limiter_wait_then_granted_witness :
  let this := snd (Security.RateLimiter.run [0%Z] (Security.RateLimiter.create 1 10)) in
  let refused := snd (Security.RateLimiter.canProceed 5 this) in
  fst (Security.RateLimiter.canProceed 5 this) = false
  /\ (0 < Security.RateLimiter.getRemainingTime 5 refused)%Z
  /\ fst (Security.RateLimiter.canProceed
            (5 + Security.RateLimiter.getRemainingTime 5 refused) refused) = true.
Proof.
  cbv zeta. split; [reflexivity|].
  apply (rate_limiter_wait_then_granted 1 10 [0%Z] 5); [lia|reflexivity].
Defined.

(** X5 at work. *)
Lemma sanitizeFileName_rejoins_dots_witness :
  Js.all_chars Security.plain "etc" = true
  /\ Security.sanitizeFileName "./.etc" = "..etc".
Proof.
  split; [reflexivity|].
  apply (sanitizeFileName_rejoins_dots "etc"). reflexivity.
Defined.

(** X6 at work: a file of the model host. *)
Lemma validateOrigin_hosts_pass_the_gate_witness :
  let url := "https://cdn-lfs.huggingface.co/model.bin" in
  SecurityManager.validateOrigin (Url.hostname "oblivai.app") url = true
  /\ exists hostname,
       Url.hostname "oblivai.app" url = Some hostname
       /\ NetworkSecurity.isAllowed hostname = true
       /\ fst (NetworkSecurity.fetch "oblivai.app" (Url.hostname "oblivai.app") Z.of_nat
                 url None NetworkSecurity.initial) = Ok tt
       /\ NetworkSecurity.issued
            (snd (NetworkSecurity.fetch "oblivai.app" (Url.hostname "oblivai.app") Z.of_nat
                    url None NetworkSecurity.initial)) =
          NetworkSecurity.issued NetworkSecurity.initial ++ [url].
Proof.
  cbv zeta. split; [reflexivity|].
  apply (validateOrigin_hosts_pass_the_gate "oblivai.app" (Url.hostname "oblivai.app")
           Z.of_nat "https://cdn-lfs.huggingface.co/model.bin" None
           NetworkSecurity.initial).
  reflexivity.
Defined.

(** X8 at work: a host of another domain whose name starts with an allowed
    domain. *)
Lemma fetch_gate_accepts_host_containing_allowed_domain_witness :
  let url := "https://huggingface.co.evil.example/x" in
  Url.hostname "oblivai.app" url = Some "huggingface.co.evil.example"
  /\ NetworkSecurity.isAllowed "huggingface.co.evil.example" = true
  /\ fst (NetworkSecurity.fetch "oblivai.app" (Url.hostname "oblivai.app") Z.of_nat
            url None NetworkSecurity.initial) = Ok tt
  /\ NetworkSecurity.issued
       (snd (NetworkSecurity.fetch "oblivai.app" (Url.hostname "oblivai.app") Z.of_nat
               url None NetworkSecurity.initial)) =
     NetworkSecurity.issued NetworkSecurity.initial ++ [url].
Proof.
  cbv zeta. split; [reflexivity|].
  apply (fetch_gate_accepts_host_containing_allowed_domain "oblivai.app"
           (Url.hostname "oblivai.app") Z.of_nat
           "https://huggingface.co.evil.example/x" "" "huggingface.co" ".evil.example"
           None NetworkSecurity.initial).
  - left. reflexivity.
  - reflexivity.
Defined.

(** X9 at work: a path of the page. *)
Lemma fetch_gate_same_origin_proceeds_witness :
  Url.hostname "oblivai.app" "/models/list.json" = Some "oblivai.app"
  /\ fst (NetworkSecurity.fetch "oblivai.app" (Url.hostname "oblivai.app") Z.of_nat
            "/models/list.json" None NetworkSecurity.initial) = Ok tt.
Proof.
  split; [reflexivity|].
  rewrite (fetch_gate_same_origin_proceeds "oblivai.app" (Url.hostname "oblivai.app")
             Z.of_nat "/models/list.json" None NetworkSecurity.initial);
    reflexivity.
Defined.

(** X10 at work: a page without host name, and a host of no list. *)
Lemma fetch_gate_open_on_page_without_host_witness :
  Url.hostname "" "https://evil.example.com/x" = Some "evil.example.com"
  /\ NetworkSecurity.host_matches "oblivai.app" "evil.example.com" = false
  /\ fst (NetworkSecurity.fetch "" (Url.hostname "") Z.of_nat
            "https://evil.example.com/x" None NetworkSecurity.initial) = Ok tt.
Proof.
  split; [reflexivity|]. split; [reflexivity|].
  rewrite (fetch_gate_open_on_page_without_host (Url.hostname "") Z.of_nat
             "https://evil.example.com/x" "evil.example.com" None
             NetworkSecurity.initial);
    reflexivity.
Defined.

(** X11 at work: two requests to one host, one of them blocked, and a
    blocked request to a host named [constructor]. *)
Lemma getStatistics_counts_the_log_witness :
  let calls :=
    [NetworkAudit.mkCall 0 "https://huggingface.co/a" true None "GET";
     NetworkAudit.mkCall 1 "https://huggingface.co/b" false None "GET";
     NetworkAudit.mkCall 2 "https://constructor/x" false None "GET"] in
  let stats :=
    NetworkAudit.getStatistics (Url.hostname "oblivai.app")
      (NetworkAudit.run calls NetworkAudit.empty) in
  NetworkAudit.inherits "huggingface.co" = false
  /\ NetworkAudit.inherits "constructor" = true
  /\ NetworkAudit.Statistics.blocked stats = 2%Z
  /\ NetworkAudit.Statistics.allowed stats = 1%Z
  /\ NetworkAudit.Statistics.domains stats !! "huggingface.co" =
     Some (NetworkAudit.Number 2)
  /\ NetworkAudit.Statistics.domains stats !! "constructor" =
     Some (NetworkAudit.Text "constructor" 1).
Proof.
  cbv zeta.
  destruct (getStatistics_counts_the_log (Url.hostname "oblivai.app")
              [NetworkAudit.mkCall 0 "https://huggingface.co/a" true None "GET";
               NetworkAudit.mkCall 1 "https://huggingface.co/b" false None "GET";
               NetworkAudit.mkCall 2 "https://constructor/x" false None "GET"]
              "huggingface.co")
    as (_ & Hblocked & Hallowed & Hdomain & _).
  destruct (getStatistics_counts_the_log (Url.hostname "oblivai.app")
              [NetworkAudit.mkCall 0 "https://huggingface.co/a" true None "GET";
               NetworkAudit.mkCall 1 "https://huggingface.co/b" false None "GET";
               NetworkAudit.mkCall 2 "https://constructor/x" false None "GET"]
              "constructor")
    as (_ & _ & _ & _ & Hgarbled).
  split; [reflexivity|]. split; [reflexivity|].
  split; [exact Hblocked|]. split; [exact Hallowed|].
  split; [exact (Hdomain eq_refl)|exact (Hgarbled eq_refl)].
Defined.

(** X12 at work: the dark page is switched to light; a load right then
    would be light, a load after the page was left is dark. *)
Lemma toggled_theme_is_lost_on_unload_witness :
  let w := initial_world true Example.empty_storage in
  let w' := snd (ChatStore.toggleDarkMode Example.permissive w) in
  Browser.localStorage_denied Example.permissive = false
  /\ ChatState.isDarkMode (chat w') = false
  /\ SetTheme.load Example.permissive (storage w') ∅ = Ok false
  /\ SetTheme.load Example.permissive
       (snd (SecurityManager.on_beforeunload Example.permissive (storage w'))) ∅ = Ok true.
Proof.
  cbv zeta.
  destruct (toggled_theme_is_lost_on_unload Example.permissive
              (initial_world true Example.empty_storage) ∅) as (Hsaved & Hlost & _).
  split; [reflexivity|]. split; [reflexivity|].
  split; [exact (Hsaved eq_refl)|exact Hlost].
Defined.

(** X13 at work: the count is set to 3000 tokens. *)
Lemma context_warning_only_above_threshold_witness :
  let w := ChatStore.run Example.permissive Z.of_nat (fun _ => "")
             [ChatStore.UpdateContextTokenCount 3000]
             (initial_world true Example.empty_storage) in
  ChatState.showContextWarning (chat w) = true
  /\ (2048 < ChatState.contextTokenCount (chat w))%Z.
Proof.
  cbv zeta. split; [reflexivity|].
  apply (context_warning_only_above_threshold Example.permissive Z.of_nat (fun _ => "")
           [ChatStore.UpdateContextTokenCount 3000] true Example.empty_storage).
  reflexivity.
Defined.

(** X14 at work: a desktop with 4 GB, then with 8 GB. *)
Lemma more_memory_keeps_models_compatible_witness :
  (4 <= 8)%Q
  /\ Models.isModelCompatible Models.qwen2_0_5b 4%Q false = true
  /\ Models.isModelCompatible Models.qwen2_0_5b 8%Q false = true.
Proof.
  assert ((4 <= 8)%Q) as Hmore by (unfold Qle; simpl; lia).
  split; [exact Hmore|]. split; [reflexivity|].
  apply (more_memory_keeps_models_compatible Models.qwen2_0_5b 4%Q 8%Q false Hmore).
  reflexivity.
Defined.

(** X15 at work: a phone with 8 GB is offered a small model. *)
Lemma mobile_devices_get_tiny_and_small_models_witness :
  In Models.qwen2_1_5b (Models.getModelsForDevice 8%Q true)
  /\ (ModelConfig.category Models.qwen2_1_5b = ModelConfig.tiny
      \/ ModelConfig.category Models.qwen2_1_5b = ModelConfig.small).
Proof.
  assert (In Models.qwen2_1_5b (Models.getModelsForDevice 8%Q true)) as Hlisted.
  { apply List.filter_In. split; [|reflexivity].
    do 5 right. left. reflexivity. }
  split; [exact Hlisted|].
  apply (mobile_devices_get_tiny_and_small_models Models.qwen2_1_5b 8%Q Hlisted).
Defined.

(** X16 at work: a small model on a laptop with 8 GB and WebGPU. *)
Lemma selectable_model_fits_the_device_witness :
  ModelSelector.getModelStatus (Some Example.laptop) Models.qwen2_1_5b =
    ModelSelector.recommended
  /\ ModelSelector.isDisabled (Some Example.laptop) Models.qwen2_1_5b false = false
  /\ (inject_Z (ModelConfig.ram Models.qwen2_1_5b) <= HardwareInfo.memory Example.laptop)%Q.
Proof.
  split; [reflexivity|]. split; [reflexivity|].
  apply (selectable_model_fits_the_device Example.laptop Models.qwen2_1_5b).
  reflexivity.
Defined.

(** X17 at work: a completion of two words. *)
Lemma generateResponse_streams_every_chunk_witness :
  let w := Example.ready true Example.empty_storage in
  let question := ChatMessage.mk ChatMessage.user "hi" 0 in
  let answer := ChatMessage.mk ChatMessage.assistant "" 0 in
  let out :=
    WebLLMService.generateResponse (H := Example.text_only) Example.two_words [question]
      (Some (ChatInterface.onToken answer)) None None w in
  Service.engine (service w) = Some 0%nat
  /\ WebLLMService.convert (H := Example.text_only) [question] = Ok [("user", "hi")]
  /\ delta_texts (WebLLMService.stream Example.two_words) = ["Hel"; "lo"]
  /\ fst out = Ok "Hello"
  /\ Service.abortController (service (snd out)) = None.
Proof.
  cbv zeta.
  destruct (generateResponse_streams_every_chunk (H := Example.text_only)
              Example.two_words [ChatMessage.mk ChatMessage.user "hi" 0]
              (ChatInterface.onToken (ChatMessage.mk ChatMessage.assistant "" 0))
              None None (Example.ready true Example.empty_storage) 0%nat [("user", "hi")])
    as (Htext & _ & Hcontroller & _).
  - reflexivity.
  - reflexivity.
  - reflexivity.
  - repeat constructor.
  - intros token w. repeat split.
  - split; [reflexivity|]. split; [reflexivity|]. split; [reflexivity|].
    split; [exact Htext|exact Hcontroller].
Defined.


(** X19 at work: "hello" is answered by "Hello". *)
Lemma handleSendMessage_appends_question_and_answer_witness :
  let w := Example.ready true Example.empty_storage in
  let out :=
    ChatInterface.handleSendMessage (H := Example.text_only) Z.of_nat Example.two_words
      "hello" w in
  Security.sanitizeInput (H := Example.text_only) "hello" = Ok "hello"
  /\ fst out = Ok tt
  /\ Example.transcript (snd out) =
     [(ChatMessage.user, "hello"); (ChatMessage.assistant, "Hello")].
Proof.
  cbv zeta.
  destruct (handleSendMessage_appends_question_and_answer (H := Example.text_only) Z.of_nat
              Example.two_words "hello" (Example.ready true Example.empty_storage)
              Example.smollm2_360m 0%nat)
    as (sanitized & Hsanitized & Hok & Htranscript).
  - reflexivity.
  - reflexivity.
  - vm_compute. discriminate.
  - constructor.
  - reflexivity.
  - repeat constructor.
  - assert (Security.sanitizeInput (H := Example.text_only) "hello" = Ok "hello") as Hhello
      by (vm_compute; reflexivity).
    split; [exact Hhello|]. split; [exact Hok|].
    rewrite Htranscript. rewrite Hhello in Hsanitized.
    injection Hsanitized as <-. reflexivity.
Defined.

(** X20 at work: the first model of the catalogue is loaded on a desktop. *)
Lemma initializeModel_resolves_with_the_model_loaded_witness :
  let out :=
    WebLLMService.initializeModel Example.desktop Example.smollm2_360m
      (Some progressCallback) (initial_world true Example.empty_storage) in
  fst out = Ok tt
  /\ fst (WebLLMService.isModelLoaded (snd out)) = Ok true
  /\ fst (WebLLMService.getCurrentModel (snd out)) =
     Ok (Some "SmolLM2-360M-Instruct-q4f16_1-MLC").
Proof.
  cbv zeta.
  assert (fst (WebLLMService.initializeModel Example.desktop Example.smollm2_360m
                 (Some progressCallback) (initial_world true Example.empty_storage)) = Ok tt)
    as Hok by reflexivity.
  destruct (initializeModel_resolves_with_the_model_loaded Example.desktop
              Example.smollm2_360m (initial_world true Example.empty_storage) Hok)
    as (Hloaded & Hcurrent & _).
  split; [exact Hok|]. split; [exact Hloaded|exact Hcurrent].
Defined.

(** X21 at work: the download fails on the first load. *)
Lemma failed_download_leaves_an_engine_without_model_witness :
  let out :=
    WebLLMService.initializeModel Example.offline Example.smollm2_360m
      (Some progressCallback) (initial_world true Example.empty_storage) in
  (exists e, fst out = Throw e)
  /\ fst (WebLLMService.isModelLoaded (snd out)) = Ok true
  /\ fst (WebLLMService.getCurrentModel (snd out)) = Ok None.
Proof.
  cbv zeta.
  destruct (failed_download_leaves_an_engine_without_model Example.offline
              Example.smollm2_360m (initial_world true Example.empty_storage)
              (new_Error "network down"))
    as (Hthrow & Hloaded & _ & _).
  - reflexivity.
  - discriminate.
  - reflexivity.
  - reflexivity.
  - split; [exact Hthrow|]. split; [exact Hloaded|reflexivity].
Defined.

(** X23 at work: the theme, the notes and the pages go, the model caches
    stay. *)
Lemma secureMemoryWipe_spares_the_model_caches_witness :
  answers_all Example.permissive
  /\ SecurityManager.secureMemoryWipe Example.permissive Example.used_storage =
     (Ok tt, Browser.mkStorage ∅ ∅ ["webllm-cache"] ["mlc-models"]).
Proof.
  assert (answers_all Example.permissive) as Hanswers by (by repeat split).
  split; [exact Hanswers|].
  rewrite (secureMemoryWipe_spares_the_model_caches Example.permissive Example.used_storage
             Hanswers).
  reflexivity.
Defined.

(** X24 at work: a tab between "java" and "script:". *)
Lemma sanitizeInput_joins_text_split_by_control_character_witness :
  let tab := "009"%char in
  Security.is_control tab = true
  /\ Security.sanitizeInput (H := Example.text_only) ("java" +:+ String tab "script:") =
     Ok "javascript:".
Proof.
  cbv zeta. split; [reflexivity|].
  apply (sanitizeInput_joins_text_split_by_control_character (H := Example.text_only)
           "009"%char); reflexivity.
Defined.

(** X25 at work: one message in the store, a saved light theme, a model
    cache and data of the user in the browser. *)
Lemma clearAllHistory_spares_the_model_caches_witness :
  let w := snd (ChatStore.addMessage Z.of_nat
                  (ChatMessage.mk ChatMessage.user "hello" 0)
                  (initial_world false Example.used_storage)) in
  let out := ChatStore.clearAllHistory Example.permissive w in
  answers_all Example.permissive
  /\ Forall within_quota (ChatState.messages (chat w))
  /\ fst out = Ok tt
  /\ storage (snd out) = Browser.mkStorage ∅ ∅ ["webllm-cache"] ["mlc-models"]
  /\ SetTheme.load Example.permissive (storage (snd out)) ∅ = Ok true.
Proof.
  cbv zeta.
  assert (answers_all Example.permissive) as Hanswers by (by repeat split).
  assert (Forall within_quota
            (ChatState.messages
               (chat (snd (ChatStore.addMessage Z.of_nat
                             (ChatMessage.mk ChatMessage.user "hello" 0)
                             (initial_world false Example.used_storage))))))
    as Hmsgs.
  { repeat constructor. vm_compute. discriminate. }
  destruct (clearAllHistory_spares_the_model_caches Example.permissive
              (snd (ChatStore.addMessage Z.of_nat
                      (ChatMessage.mk ChatMessage.user "hello" 0)
                      (initial_world false Example.used_storage)))
              ∅ Hanswers eq_refl Hmsgs)
    as (Hok & _ & _ & Hstorage & Htheme).
  split; [exact Hanswers|]. split; [exact Hmsgs|]. split; [exact Hok|].
  split; [|exact Htheme]. rewrite Hstorage. reflexivity.
Defined.


(** X27 at work: four bytes 0xab. *)
Lemma generateSecureId_is_hex_of_twice_the_length_witness :
  let policy :=
    Browser.mkPolicy false false true true true false (fun _ => false)
                     true Browser.KeysResolves (fun _ => false) true
                     (fun n => repeat 171%N (Z.to_nat n)) in
  SecureId.fills_bytes policy 4
  /\ exists id,
       SecureId.generateSecureId policy 4 tt = (Ok id, tt)
       /\ Js.length id = 8%Z
       /\ Js.all_chars SecureId.is_lower_hex id = true.
Proof.
  cbv zeta.
  assert (SecureId.fills_bytes
            (Browser.mkPolicy false false true true true false (fun _ => false)
               true Browser.KeysResolves (fun _ => false) true
               (fun n => repeat 171%N (Z.to_nat n))) 4) as Hfills.
  { split; [reflexivity|]. repeat constructor. }
  split; [exact Hfills|].
  apply (generateSecureId_is_hex_of_twice_the_length _ 4 tt); [reflexivity|lia|exact Hfills].
Defined.

(** X28 at work: a model cache and the cache of the pages. *)
Lemma secureMemoryWipe_also_drops_the_static_cache_witness :
  let st := Browser.mkStorage ∅ ∅ ["webllm-cache"; "notes"]
                              ["mlc-models"; "oblivai-static-v1"] in
  let w := initial_world true st in
  answers_all Example.permissive
  /\ Browser.cacheNames (storage (snd (ChatStore.clearAllHistory Example.permissive w))) =
     ["mlc-models"; "oblivai-static-v1"]
  /\ Browser.cacheNames (snd (SecurityManager.secureMemoryWipe Example.permissive st)) =
     ["mlc-models"]
  /\ Browser.databases (snd (SecurityManager.secureMemoryWipe Example.permissive st)) =
     Browser.databases (storage (snd (ChatStore.clearAllHistory Example.permissive w))).
Proof.
  cbv zeta.
  assert (answers_all Example.permissive) as Hanswers by (by repeat split).
  destruct (secureMemoryWipe_also_drops_the_static_cache Example.permissive
              (initial_world true
                 (Browser.mkStorage ∅ ∅ ["webllm-cache"; "notes"]
                                    ["mlc-models"; "oblivai-static-v1"]))
              Hanswers eq_refl (Forall_nil_2 _))
    as (_ & _ & Hdatabases & Hcaches).
  split; [exact Hanswers|]. split; [reflexivity|]. split; [|exact Hdatabases].
  cbn [storage initial_world] in Hcaches. rewrite Hcaches. reflexivity.
Defined.

(** X29 at work: a [Request] object for a host of no list, on oblivai.app. *)
Lemma fetch_gate_passes_every_request_object_witness :
  let out :=
    NetworkSecurity.fetch_input "oblivai.app" (Url.hostname "oblivai.app") Z.of_nat
      (NetworkSecurity.InputRequest "https://evil.example.com/x" "POST") None
      NetworkSecurity.initial in
  Url.hostname "oblivai.app" "[object Request]" = Some "oblivai.app"
  /\ Url.hostname "oblivai.app" "https://evil.example.com/x" = Some "evil.example.com"
  /\ NetworkSecurity.host_matches "oblivai.app" "evil.example.com" = false
  /\ fst out = Ok tt
  /\ NetworkSecurity.issued (snd out) = ["https://evil.example.com/x"].
Proof.
  cbv zeta. split; [reflexivity|]. split; [reflexivity|]. split; [reflexivity|].
  rewrite (fetch_gate_passes_every_request_object "oblivai.app"
             (Url.hostname "oblivai.app") Z.of_nat "https://evil.example.com/x" "POST"
             None NetworkSecurity.initial eq_refl).
  split; reflexivity.
Defined.

(** X7 at work: a [Request] object with the method POST is logged as a GET
    of [[object Request]]. *)
Lemma fetch_gate_last_entry_is_the_verdict_witness :
  let out :=
    NetworkSecurity.fetch_input "oblivai.app" (Url.hostname "oblivai.app") Z.of_nat
      (NetworkSecurity.InputRequest "https://huggingface.co/model.bin" "POST") None
      NetworkSecurity.initial in
  exists entry,
    last (NetworkSecurity.requests (snd out)) = Some entry
    /\ NetworkAudit.url entry = "[object Request]"
    /\ NetworkAudit.method entry = "GET".
Proof.
  cbv zeta.
  destruct (fetch_gate_last_entry_is_the_verdict "oblivai.app"
              (Url.hostname "oblivai.app") Z.of_nat
              (NetworkSecurity.InputRequest "https://huggingface.co/model.bin" "POST") None
              NetworkSecurity.initial)
    as (entry & Hlast & Hurl & Hmethod & _).
  exists entry. split; [exact Hlast|]. split; [exact Hurl|exact Hmethod].
Defined.
